(** * Benchmark result analyzers: a shallow embedding and its properties

    The development embeds the scripts of the repository,

    - [src/benchmark_analyzer.py]                          (module [BenchmarkAnalyzer]),
    - [src/result-analyse/analyze_benchmark_results.py]    (module [AnalyzeBenchmarkResults]),
    - [src/remove_supervisor.py]                           (modules [RemoveSupervisor]
                                                            and [StripDirectory]),
    - [src/extract_conversations.py]                       (module [ExtractConversations]),

    over a model of the Python values that [json.load] produces.

    Modelling conventions.
    - A JSON document is a [json] value: [None], booleans, integers of any
      size, binary64 floats (with the [NaN] and [Infinity] that [json.load]
      accepts), strings, arrays and objects.  Objects are finite maps
      ([gmap]) from strings to values, as the scripts only test membership,
      read and delete keys.
    - Numbers follow Python: integer arithmetic is exact, an operation with a
      float converts the integer operand and is rounded, and the conversion
      of an integer beyond the float range raises [OverflowError].
    - Strings are byte strings, the UTF-8 encoding of the Python string; a
      lone surrogate, which [json.load] builds from an escape, is encoded
      like any other character of its range.  [str.lower] is the ASCII case
      map: the keywords the scripts look for in a lowered identifier are
      ASCII, and no other character lower-cases to a letter that could
      complete one of them ([U+0130] gives an [i] followed by a combining
      dot, the Kelvin sign a [k]).
    - A Python exception raised while a file is processed is caught by the
      [try/except] of the per-file loop; functions that can raise return an
      [option], [None] standing for the raised exception.
    - What pandas and [datetime] compute is taken as a parameter. *)

From Stdlib Require Import ZArith Ascii Floats.
From stdpp Require Import gmap strings list.

#[local] Open Scope Z_scope.

(** ** Python strings *)

Module PyStr.

(** [c.lower()] on one ASCII character. *)
Definition lower_ascii (c : ascii) : ascii :=
  let n := N_of_ascii c in
  if ((65 <=? n) && (n <=? 90))%N then ascii_of_N (n + 32) else c.

(** [s.lower()] *)
Fixpoint lower (s : string) : string :=
  match s with
  | EmptyString => EmptyString
  | String c s' => String (lower_ascii c) (lower s')
  end.

(** [s.startswith(k)] *)
Fixpoint startswith (k s : string) : bool :=
  match k, s with
  | EmptyString, _ => true
  | String a k', String b s' => if Ascii.eqb a b then startswith k' s' else false
  | String _ _, EmptyString => false
  end.

(** [k in s]: [k] occurs in [s] as a contiguous substring. *)
Fixpoint contains (k s : string) : bool :=
  startswith k s ||
  match s with
  | EmptyString => false
  | String _ s' => contains k s'
  end.

(** [s.split(sep)] for a one-character separator: the result always has
    at least one segment, and [n] separators give [n + 1] segments. *)
Fixpoint split (sep : ascii) (s : string) : list string :=
  match s with
  | EmptyString => [EmptyString]
  | String c s' =>
      if Ascii.eqb c sep then EmptyString :: split sep s'
      else match split sep s' with
           | seg :: segs => String c seg :: segs
           | [] => [String c EmptyString]
           end
  end.

(** [sep.join(parts)] *)
Fixpoint join (sep : string) (parts : list string) : string :=
  match parts with
  | [] => EmptyString
  | [p] => p
  | p :: ps => p +:+ sep +:+ join sep ps
  end.

(** The character [c] occurs in [s]. *)
Fixpoint mem_ascii (c : ascii) (s : string) : bool :=
  match s with
  | EmptyString => false
  | String a s' => Ascii.eqb a c || mem_ascii c s'
  end.

(** Propositional reading of [k in s]. *)
Definition substring_of (k s : string) : Prop :=
  ∃ pre post, s = pre +:+ k +:+ post.

(** The string of the given bytes. *)
Definition bytes (codes : list N) : string :=
  String.string_of_list_ascii (ascii_of_N <$> codes).

(** The string holds a lone surrogate ([U+D800] to [U+DFFF]): the byte [ED]
    followed by a byte from [A0] on.  Such a string has no UTF-8 encoding in
    the strict sense, and writing it to a file opened with
    [encoding='utf-8'] raises [UnicodeEncodeError]. *)
Fixpoint has_surrogate (s : string) : bool :=
  match s with
  | String c (String d _ as s') =>
      (N_of_ascii c =? 237)%N && (160 <=? N_of_ascii d)%N || has_surrogate s'
  | _ => false
  end.

End PyStr.

(** ** Python numbers *)

Module PyNum.

(** A number is an [int] or a [float]. *)
Inductive num : Type :=
| Int (z : Z)
| Float (f : float).

(** The integers from [float_limit] on round to a float beyond the largest
    finite one. *)
Definition float_limit : Z := 2 ^ 1024 - 2 ^ 970.

(** [float(z)], the conversion Python applies to the integer operand of a
    mixed operation: the nearest float, ties to even; [OverflowError] when
    that is not finite. *)
Definition float_of_Z (z : Z) : option float :=
  if Z.abs z <? float_limit
  then Some (SF2Prim (binary_normalize prec emax z 0 false))
  else None.

Definition to_float (n : num) : option float :=
  match n with
  | Int z => float_of_Z z
  | Float f => Some f
  end.

(** [a + b] *)
Definition add (a b : num) : option num :=
  match a, b with
  | Int x, Int y => Some (Int (x + y))
  | _, _ => x ← to_float a; y ← to_float b; Some (Float (PrimFloat.add x y))
  end.

(** [a - b] *)
Definition sub (a b : num) : option num :=
  match a, b with
  | Int x, Int y => Some (Int (x - y))
  | _, _ => x ← to_float a; y ← to_float b; Some (Float (PrimFloat.sub x y))
  end.

(** [a / b] on two integers: the float nearest to the exact quotient;
    [ZeroDivisionError], or [OverflowError] when the quotient is beyond the
    float range. *)
Definition exact (z : Z) : spec_float :=
  match z with
  | Z0 => S754_zero false
  | Zpos p => S754_finite false p 0
  | Zneg p => S754_finite true p 0
  end.

Definition truediv (a b : Z) : option float :=
  if b =? 0 then None
  else match SFdiv prec emax (exact a) (exact b) with
       | S754_infinity _ => None
       | q => Some (SF2Prim q)
       end.

(** The order of an integer and a float, which Python decides on the exact
    values; [None] for [nan], which compares with nothing. *)
Definition compare_Z_float (z : Z) (f : spec_float) : option comparison :=
  match f with
  | S754_nan => None
  | S754_infinity negative => Some (if negative then Gt else Lt)
  | S754_zero _ => Some (z ?= 0)
  | S754_finite negative m e =>
      let v := if negative then Z.neg m else Z.pos m in
      Some (if 0 <=? e then z ?= v * 2 ^ e else z * 2 ^ (- e) ?= v)
  end.

Definition compare (a b : num) : option comparison :=
  match a, b with
  | Int x, Int y => Some (x ?= y)
  | Int x, Float g => compare_Z_float x (Prim2SF g)
  | Float f, Int y => CompOpp <$> compare_Z_float y (Prim2SF f)
  | Float f, Float g => SFcompare (Prim2SF f) (Prim2SF g)
  end.

(** [a > b] and [a == b] *)
Definition gt (a b : num) : bool :=
  match compare a b with Some Gt => true | _ => false end.

Definition eq (a b : num) : bool :=
  match compare a b with Some Eq => true | _ => false end.

(** [math.isnan] *)
Definition isnan (n : num) : bool :=
  match n with
  | Float f => match Prim2SF f with S754_nan => true | _ => false end
  | Int _ => false
  end.

(** The integer a float is equal to, if any. *)
Definition integral (f : spec_float) : option Z :=
  match f with
  | S754_zero _ => Some 0
  | S754_finite negative m e =>
      let v := if negative then Z.neg m else Z.pos m in
      if 0 <=? e then Some (v * 2 ^ e)
      else if Z.pos m mod 2 ^ (- e) =? 0 then Some (v / 2 ^ (- e))
      else None
  | _ => None
  end.

End PyNum.

(** ** Python values read from JSON *)

Module Py.
Export PyNum.

#[warnings="-register-all"]
Inductive json : Type :=
| JNull                       (* None *)
| JBool (b : bool)            (* True / False *)
| JNum (z : Z)                (* int *)
| JFloat (f : float)          (* float *)
| JStr (s : string)           (* str *)
| JArr (l : list json)        (* list *)
| JObj (m : gmap string json) (* dict *).

Abbreviation dict := (gmap string json).

(** [k in d] *)
Definition has_key (k : string) (d : dict) : bool :=
  match d !! k with Some _ => true | None => false end.

(** [d.get(k, dflt)] *)
Definition get (k : string) (dflt : json) (d : dict) : json :=
  match d !! k with Some v => v | None => dflt end.

(** Numeric reading of a value: [bool] is a subclass of [int]. *)
Definition as_num (v : json) : option num :=
  match v with
  | JNum z => Some (Int z)
  | JBool b => Some (Int (if b then 1 else 0))
  | JFloat f => Some (Float f)
  | _ => None
  end.

Definition of_num (n : num) : json :=
  match n with
  | Int z => JNum z
  | Float f => JFloat f
  end.

(** [bool(v)] *)
Definition truthy (v : json) : bool :=
  match v with
  | JNull => false
  | JBool b => b
  | JNum z => negb (z =? 0)
  | JFloat f => negb (PyNum.eq (Float f) (Int 0))
  | JStr s => negb (String.eqb s "")
  | JArr l => match l with [] => false | _ :: _ => true end
  | JObj m => negb (bool_decide (m = ∅))
  end.

(** [v == s] for a string literal [s]. *)
Definition eq_str (v : json) (s : string) : bool :=
  match v with JStr t => String.eqb t s | _ => false end.

(** Equality of two items of containers, as the comparison of lists and
    dictionaries tests it: [x is y or x == y].  Numbers are equal by value
    whatever their type; [json.load] returns one and the same object for
    every [NaN] of a document, so that two such items count as equal although
    [nan == nan] is false. *)
Fixpoint eq_item (a b : json) {struct a} : bool :=
  match a, b with
  | JNull, JNull => true
  | JStr s, JStr t => String.eqb s t
  | JArr l, JArr l' =>
      (fix all2 (l l' : list json) {struct l} : bool :=
         match l, l' with
         | [], [] => true
         | x :: l, y :: l' => eq_item x y && all2 l l'
         | _, _ => false
         end) l l'
  | JObj m, JObj m' =>
      bool_decide (size m = size m') &&
      map_fold (λ k v acc,
                  acc && match m' !! k with
                         | Some w => eq_item v w
                         | None => false
                         end) true m
  | _, _ =>
      match as_num a, as_num b with
      | Some x, Some y => PyNum.eq x y || isnan x && isnan y
      | _, _ => false
      end
  end.

(** [a - b]; raises [TypeError] unless both are numbers. *)
Definition sub (a b : json) : option json :=
  x ← as_num a; y ← as_num b; of_num <$> PyNum.sub x y.

(** [a > b]; numbers compare with numbers, strings with strings, lists with
    lists (at the first pair of items that are not equal, by their sizes
    when there is none), anything else raises [TypeError]. *)
Fixpoint gt (a b : json) {struct a} : option bool :=
  match a, b with
  | JStr s, JStr t => Some (String.ltb t s)
  | JArr l, JArr l' =>
      (fix items (l l' : list json) {struct l} : option bool :=
         match l, l' with
         | x :: l, y :: l' => if eq_item x y then items l l' else gt x y
         | _ :: _, [] => Some true
         | [], _ => Some false
         end) l l'
  | _, _ =>
      match as_num a, as_num b with
      | Some x, Some y => Some (PyNum.gt x y)
      | _, _ => None
      end
  end.

(** No key and no string of [v] holds a lone surrogate: the text
    [json.dumps(v, ensure_ascii=False)] has a UTF-8 encoding. *)
Fixpoint encodable (v : json) : bool :=
  match v with
  | JStr s => negb (PyStr.has_surrogate s)
  | JArr l => forallb encodable l
  | JObj m =>
      map_fold (λ k v acc, acc && negb (PyStr.has_surrogate k) && encodable v) true m
  | _ => true
  end.

End Py.
(** ** [src/benchmark_analyzer.py] *)

Module BenchmarkAnalyzer.
Import Py.

Section analyzer.

(** [datetime.fromtimestamp(t, tz=timezone.utc).strftime('%Y-%m-%d %H:%M:%S')]:
    the calendar formatting of the [datetime] library, [None] when the
    library raises (a timestamp outside the supported years, [nan]). *)
Variable strftime_utc : num → option string.

(** The pandas reductions [mean()], [max()] and [min()] of a column of the
    frame, restricted to the rows selected by the mask and with its missing
    cells dropped; [None] when pandas raises. *)
Variable series_mean : list json → list bool → option json.
Variable series_max : list json → list bool → option json.
Variable series_min : list json → list bool → option json.

(** The builtins [round(x, 2)] and [int(x)] on a computed statistic; they
    dispatch on the type of the value that pandas returned. *)
Variable round2 : json → option json.
Variable to_int : json → option json.

Definition task_types : list string :=
  ["detection"; "localization"; "analysis"; "mitigation"].

(** The [for task_type in task_types] loop of [extract_task_type], over the
    lowered identifier. *)
Fixpoint scan_task_types (lowered : string) (types : list string) : string :=
  match types with
  | [] => "unknown"
  | task_type :: rest =>
      if PyStr.contains task_type lowered then task_type
      else scan_task_types lowered rest
  end.

(** [extract_task_type(problem_id)].  The argument is whatever the document
    holds under ["problem_id"]; a truthy value that is not a string has no
    [lower] method. *)
Definition extract_task_type (problem_id : json) : option string :=
  if negb (truthy problem_id) then Some "unknown"
  else match problem_id with
       | JStr s => Some (scan_task_types (PyStr.lower s) task_types)
       | _ => None
       end.

(** An integer timestamp has to fit the 64 bits of [time_t] before the
    library looks at it ([OverflowError] otherwise). *)
Definition fits_time_t (z : Z) : bool := (- 2 ^ 63 <=? z) && (z <? 2 ^ 63).

(** [datetime.fromtimestamp(timestamp, tz=timezone.utc).strftime(...)] on a
    number. *)
Definition format_timestamp (timestamp : num) : option string :=
  match timestamp with
  | Int z => if fits_time_t z then strftime_utc timestamp else None
  | Float _ => strftime_utc timestamp
  end.

(** [convert_timestamp_to_utc(timestamp)] *)
Definition convert_timestamp_to_utc (timestamp : json) : option json :=
  match timestamp with
  | JNull => Some JNull
  | _ =>
      match as_num timestamp with
      | Some t => JStr <$> format_timestamp t
      | None => None
      end
  end.

(** One entry of the [results] list built by [analyze_json_files]. *)
Record result : Type := Result {
  filename : string;
  session_id : json;
  problem_id : json;
  success : json;
  task_type : string;
  in_tokens : json;
  out_tokens : json;
  start_time : json;
  end_time : json;
  duration : json;
  steps : json;
  supervisor_result : json
}.

(** The [if 'success' in results_data ... elif ...] chain; [JNull] is the
    initial [None] of [result['success']]. *)
Definition resolve_success (results_data : dict) (supervisor_result : json)
    (is_supervisor_enabled : bool) : json :=
  if has_key "success" results_data then
    get "success" (JBool false) results_data
  else if has_key "Detection Accuracy" results_data then
    if is_supervisor_enabled then
      JBool (eq_str (get "Detection Accuracy" JNull results_data) "Correct"
             && eq_str supervisor_result "Correct")
    else
      JBool (eq_str (get "Detection Accuracy" JNull results_data) "Correct")
  else if has_key "Localization Accuracy" results_data then
    JBool (eq_str (get "Localization Accuracy" JNull results_data) "Correct")
  else if has_key "Analysis Accuracy" results_data then
    JBool (eq_str (get "Analysis Accuracy" JNull results_data) "Correct")
  else if has_key "Mitigation Accuracy" results_data then
    JBool (eq_str (get "Mitigation Accuracy" JNull results_data) "Correct")
  else if has_key "Accuracy" results_data then
    JBool (eq_str (get "Accuracy" JNull results_data) "Correct")
  else JNull.

(** [if result['start_time'] and result['end_time']: duration = end - start];
    [JNull] is the initial [None] of [result['duration']]. *)
Definition resolve_duration (start_time end_time : json) : option json :=
  if truthy start_time && truthy end_time then sub end_time start_time
  else Some JNull.

(** The body of the [try] block of [analyze_json_files] for one file:
    [Some result] when the file contributes an entry, [None] when an
    exception makes the loop skip it.  A document or a [results] value that
    is not a dictionary has no [get] method. *)
Definition analyze_json_file (json_file : string) (data : json)
    (is_supervisor_enabled : bool) : option result :=
  match data with
  | JObj data =>
      match get "results" (JObj ∅) data with
      | JObj results_data =>
          task_type ← extract_task_type (get "problem_id" (JStr "") data);
          let supervisor_result := get "supervisor_result" JNull results_data in
          let start_time := get "start_time" JNull data in
          let end_time := get "end_time" JNull data in
          let success :=
            resolve_success results_data supervisor_result is_supervisor_enabled in
          duration ← resolve_duration start_time end_time;
          start_str ← convert_timestamp_to_utc start_time;
          end_str ← convert_timestamp_to_utc end_time;
          Some {| filename := json_file;
                  session_id := get "session_id" (JStr "") data;
                  problem_id := get "problem_id" (JStr "") data;
                  success := success;
                  task_type := task_type;
                  in_tokens := get "in_tokens" JNull results_data;
                  out_tokens := get "out_tokens" JNull results_data;
                  start_time := start_str;
                  end_time := end_str;
                  duration := duration;
                  steps := get "steps" JNull results_data;
                  supervisor_result := supervisor_result |}
      | _ => None
      end
  | _ => None
  end.

(** [analyze_json_files]: the entries of the files that were not skipped, in
    the order of the files. *)
Definition analyze_json_files (json_files : list (string * json))
    (is_supervisor_enabled : bool) : list result :=
  omap (λ f, analyze_json_file f.1 f.2 is_supervisor_enabled) json_files.

(** *** Console summary *)

(** The comparison [df['success'] == b] on one cell. *)
Definition cell_eq_bool (v : json) (b : bool) : bool :=
  match as_num v with
  | Some n => PyNum.eq n (Int (if b then 1 else 0))
  | None => false
  end.

(** [isna()] on one cell: [None] or [nan]. *)
Definition isna (v : json) : bool :=
  match v with
  | JNull => true
  | JFloat f => isnan (Float f)
  | _ => false
  end.

Definition count (p : result → bool) (df : list result) : Z :=
  Z.of_nat (length (filter (λ r, p r = true) df)).

(** The four numbers of the OVERALL STATISTICS block of
    [print_summary_stats]. *)
Record overall : Type := Overall {
  total_tasks : Z;
  successful_tasks : Z;
  failed_tasks : Z;
  unknown_tasks : Z
}.

Definition print_summary_stats (df : list result) : overall :=
  {| total_tasks := Z.of_nat (length df);
     successful_tasks := count (λ r, cell_eq_bool (success r) true) df;
     failed_tasks := count (λ r, cell_eq_bool (success r) false) df;
     unknown_tasks := count (λ r, isna (success r)) df |}.

(** *** Observation report *)

(** One row of the observation CSV. *)
Record observation : Type := Observation {
  taskType : string;
  successRate : json;
  averageTime : json;
  averageSteps : json;
  longestTime : json;
  mostSteps : json;
  leastTime : json;
  leastSteps : json
}.

(** The row appended when there is no data for the task type. *)
Definition empty_row (task_type : string) : observation :=
  {| taskType := task_type;
     successRate := JFloat 0; averageTime := JFloat 0; averageSteps := JFloat 0;
     longestTime := JFloat 0; mostSteps := JNum 0; leastTime := JFloat 0;
     leastSteps := JNum 0 |}.

(** [df[df['task_type'] == task_type]] *)
Definition task_rows (df : list result) (t : string) : list result :=
  filter (λ r, task_type r = t) df.

(** The mask [df['task_type'] == task_type]. *)
Definition task_mask (df : list result) (t : string) : list bool :=
  (λ r, bool_decide (task_type r = t)) <$> df.

(** [len(task_data[column].dropna()) > 0] *)
Definition has_values (cells : list json) : bool :=
  bool_decide (0 < length (filter (λ v, isna v = false) cells))%nat.

(** [successful_tasks / total_tasks * 100] *)
Definition rate (successful_tasks total_tasks : Z) : option json :=
  q ← truediv successful_tasks total_tasks;
  Some (JFloat (PrimFloat.mul q 100)).

(** [int(x) if pd.notna(x) else 0] *)
Definition int_or_zero (x : json) : option json :=
  if isna x then Some (JNum 0) else to_int x.

(** The body of the [for task_type in task_types] loop of
    [generate_observation_csv]. *)
Definition observation_row (df : list result) (t : string) : option observation :=
  let task_data := task_rows df t in
  if bool_decide (length task_data = 0%nat) then Some (empty_row t)
  else
    let total_tasks := Z.of_nat (length task_data) in
    let successful_tasks := count (λ r, cell_eq_bool (success r) true) task_data in
    success_rate ←
      (if 0 <? total_tasks then rate successful_tasks total_tasks
       else Some (JNum 0));
    let has_time := has_values (duration <$> task_data) in
    let reduce_time reduction :=
      if has_time then reduction (duration <$> df) (task_mask df t)
      else Some (JNum 0) in
    avg_time ← reduce_time series_mean;
    longest_time ← reduce_time series_max;
    least_time ← reduce_time series_min;
    let has_steps := has_values (steps <$> task_data) in
    let reduce_steps reduction :=
      if has_steps then reduction (steps <$> df) (task_mask df t)
      else Some (JNum 0) in
    avg_steps ← reduce_steps series_mean;
    most_steps ← reduce_steps series_max;
    least_steps ← reduce_steps series_min;
    success_rate ← round2 success_rate;
    avg_time ← round2 avg_time;
    avg_steps ← round2 avg_steps;
    longest_time ← round2 longest_time;
    most_steps ← int_or_zero most_steps;
    least_time ← round2 least_time;
    least_steps ← int_or_zero least_steps;
    Some {| taskType := t;
            successRate := success_rate;
            averageTime := avg_time;
            averageSteps := avg_steps;
            longestTime := longest_time;
            mostSteps := most_steps;
            leastTime := least_time;
            leastSteps := least_steps |}.

(** [generate_observation_csv]: the rows of [observation_df]; [None] when
    the function raises (it has no [try]).  The frame is built by
    [pd.DataFrame(results)]: the frame of an empty list has no column, and
    [df['task_type']] raises [KeyError]. *)
Definition generate_observation_csv (df : list result) : option (list observation) :=
  match df with
  | [] => None
  | _ => mapM (observation_row df) task_types
  end.

End analyzer.
End BenchmarkAnalyzer.

(** ** [src/result-analyse/analyze_benchmark_results.py] *)

Module AnalyzeBenchmarkResults.
Import Py.

(** [extract_problem_info(problem_id)], returning
    [(problem_base, task_type)].  Under the guard [len(parts) >= 2] the
    index [parts[-2]] is position [len(parts) - 2] and always exists. *)
Definition extract_problem_info (problem_id : string) : string * string :=
  let parts := PyStr.split "-" problem_id in
  if bool_decide (2 ≤ length parts)%nat then
    let task_type := default "" (parts !! (length parts - 2)%nat) in
    let problem_base := PyStr.join "-" (take (length parts - 2) parts) in
    (problem_base, task_type)
  else (problem_id, "unknown").

(** The [categories] dictionary of [categorize_problem_type], in insertion
    order, which is the order [categories.items()] enumerates. *)
Definition categories : list (string * list string) :=
  [ ("infrastructure",
     ["k8s_target_port"; "auth_miss_mongodb"; "revoke_auth_mongodb";
      "storage_user_unregistered"; "redeploy_without_pv"; "network_loss";
      "network_delay"; "kernel_fault"; "disk_woreout"]);
    ("application",
     ["misconfig_app"; "ad_service_failure"; "ad_service_high_cpu";
      "ad_service_manual_gc"; "cart_service_failure"; "payment_service_failure";
      "payment_service_unreachable"; "product_catalog_failure";
      "recommendation_service_cache_failure"; "image_slow_load";
      "loadgenerator_flood_homepage"; "kafka_queue_problems";
      "flower_model_misconfig"]);
    ("operational",
     ["scale_pod"; "assign_non_existent_node"; "container_kill";
      "pod_failure"; "pod_kill"; "wrong_bin_usage"; "operator_misoperation";
      "flower_node_stop"]);
    ("baseline", ["no_op"]) ].

(** The inner loop [for problem in problems]: does some keyword occur in
    [problem_base]? *)
Fixpoint scan_problems (problem_base : string) (problems : list string) : bool :=
  match problems with
  | [] => false
  | problem :: rest =>
      if PyStr.contains problem problem_base then true
      else scan_problems problem_base rest
  end.

(** The outer loop [for category, problems in categories.items()]. *)
Fixpoint scan_categories (problem_base : string)
    (cats : list (string * list string)) : string :=
  match cats with
  | [] => "other"
  | (category, problems) :: rest =>
      if scan_problems problem_base problems then category
      else scan_categories problem_base rest
  end.

(** [categorize_problem_type(problem_base)] *)
Definition categorize_problem_type (problem_base : string) : string :=
  scan_categories problem_base categories.

(** *** Statistics containers *)

(** One value of the [defaultdict]s: the six counters of a group.  The
    first three only ever grow by one; the sums take the type of what is
    added to them. *)
Record group : Type := Group {
  total : Z;
  success : Z;
  failed : Z;
  tokens_in : num;
  tokens_out : num;
  total_time : num
}.

(** The [lambda] of the [defaultdict]s. *)
Definition group_zero : group := Group 0 0 0 (Int 0) (Int 0) (Int 0).

#[export] Instance spec_float_eq_dec : EqDecision spec_float.
Proof. solve_decision. Defined.

#[export] Instance spec_float_countable : Countable spec_float :=
  inj_countable'
    (λ f, match f with
          | S754_zero s => inl s
          | S754_infinity s => inr (inl s)
          | S754_nan => inr (inr (inl ()))
          | S754_finite s m e => inr (inr (inr (s, m, e)))
          end)
    (λ c, match c with
          | inl s => S754_zero s
          | inr (inl s) => S754_infinity s
          | inr (inr (inl _)) => S754_nan
          | inr (inr (inr (s, m, e))) => S754_finite s m e
          end)
    (λ f, match f with
          | S754_zero _ => eq_refl
          | S754_infinity _ => eq_refl
          | S754_nan => eq_refl
          | S754_finite _ _ _ => eq_refl
          end).

(** Keys of [stats['by_agent']]: the hashable values a document can hold
    under ["agent"].  Numbers that are equal are the same key: [True], [1]
    and [1.0], and every float that is an integer with that integer; a
    [KFloat] is a float that is no integer. *)
Inductive key : Type :=
| KNone
| KNum (z : Z)
| KFloat (f : spec_float)
| KStr (s : string).

#[export] Instance key_eq_dec : EqDecision key.
Proof. solve_decision. Defined.

#[export] Instance key_countable : Countable key :=
  inj_countable'
    (λ k, match k with
          | KNone => inl ()
          | KNum z => inr (inl z)
          | KFloat f => inr (inr (inl f))
          | KStr s => inr (inr (inr s))
          end)
    (λ c, match c with
          | inl _ => KNone
          | inr (inl z) => KNum z
          | inr (inr (inl f)) => KFloat f
          | inr (inr (inr s)) => KStr s
          end)
    (λ k, match k with
          | KNone => eq_refl
          | KNum _ => eq_refl
          | KFloat _ => eq_refl
          | KStr _ => eq_refl
          end).

(** Using a value as a dictionary key; a [list] or a [dict] is unhashable
    ([TypeError]). *)
Definition hash_key (v : json) : option key :=
  match v with
  | JNull => Some KNone
  | JBool b => Some (KNum (if b then 1 else 0))
  | JNum z => Some (KNum z)
  | JFloat f =>
      match integral (Prim2SF f) with
      | Some z => Some (KNum z)
      | None => Some (KFloat (Prim2SF f))
      end
  | JStr s => Some (KStr s)
  | JArr _ | JObj _ => None
  end.

(** The local variables of one loop iteration once lines 96-156 have run,
    which are also the fields of [case_detail]. *)
Record case : Type := Case {
  session_id : json;
  agent : json;
  problem_id : string;
  problem_base : string;
  task_type : string;
  category : string;
  case_success : json;
  execution_time : json;
  task_time : json;
  steps : json;
  in_tokens : json;
  out_tokens : json;
  file_path : string
}.

(** The [stats] dictionary. *)
Record stats : Type := Stats {
  total_cases : Z;
  successful_cases : Z;
  failed_cases : Z;
  by_agent : gmap key group;
  by_problem_type : gmap string group;
  by_task_type : gmap string group;
  by_category : gmap string group;
  detailed_cases : list case
}.

Definition stats_init : stats := Stats 0 0 0 ∅ ∅ ∅ ∅ [].

(** *** Normalising one document (lines 96-156) *)

(** The success chain; [success = False] is the initial value. *)
Definition resolve_success (results : dict) : json :=
  if has_key "success" results then get "success" (JBool false) results
  else if has_key "Detection Accuracy" results then
    JBool (eq_str (get "Detection Accuracy" JNull results) "Correct")
  else if has_key "Localization Accuracy" results then
    JBool (eq_str (get "Localization Accuracy" JNull results) "Correct")
  else if has_key "Analysis Accuracy" results then
    JBool (eq_str (get "Analysis Accuracy" JNull results) "Correct")
  else if has_key "Mitigation Accuracy" results then
    JBool (eq_str (get "Mitigation Accuracy" JNull results) "Correct")
  else if has_key "Accuracy" results then
    JBool (eq_str (get "Accuracy" JNull results) "Correct")
  else JBool false.

(** The time-metric chain; [ttm = 0] is the initial value. *)
Definition resolve_ttm (results : dict) : json :=
  if has_key "TTM" results then get "TTM" (JNum 0) results
  else if has_key "TTD" results then get "TTD" (JNum 0) results
  else if has_key "TTL" results then get "TTL" (JNum 0) results
  else if has_key "TTA" results then get "TTA" (JNum 0) results
  else JNum 0.

(** [end_time - start_time if end_time > start_time else ttm] *)
Definition resolve_execution_time (start_time end_time ttm : json) : option json :=
  later ← gt end_time start_time;
  if later : bool then sub end_time start_time else Some ttm.

(** Lines 96-156 for one file; [None] when one of them raises, in which
    case no counter has been touched yet.  A document that is no dictionary
    has no [get]; a [results] value that is no dictionary raises at the
    latest at [results.get('steps', 0)] (a list or a string passes the
    membership tests, but has no [get] either); a [problem_id] that is no
    string has no [split]. *)
Definition normalize (json_file : string) (data : json) : option case :=
  match data with
  | JObj data =>
      let session_id := get "session_id" (JStr "unknown") data in
      let agent := get "agent" (JStr "unknown") data in
      let problem_id := get "problem_id" (JStr "unknown") data in
      let start_time := get "start_time" (JNum 0) data in
      let end_time := get "end_time" (JNum 0) data in
      match get "results" (JObj ∅) data with
      | JObj results =>
          let success := resolve_success results in
          let ttm := resolve_ttm results in
          let steps := get "steps" (JNum 0) results in
          let in_tokens := get "in_tokens" (JNum 0) results in
          let out_tokens := get "out_tokens" (JNum 0) results in
          execution_time ← resolve_execution_time start_time end_time ttm;
          match problem_id with
          | JStr problem_id =>
              let '(problem_base, task_type) := extract_problem_info problem_id in
              let category := categorize_problem_type problem_base in
              Some {| session_id := session_id; agent := agent;
                      problem_id := problem_id; problem_base := problem_base;
                      task_type := task_type; category := category;
                      case_success := success; execution_time := execution_time;
                      task_time := ttm; steps := steps;
                      in_tokens := in_tokens; out_tokens := out_tokens;
                      file_path := json_file |}
          | _ => None
          end
      | _ => None
      end
  | _ => None
  end.

(** *** Updating the statistics (lines 158-226) *)

(** How a block of statements leaves the state it works on: it ran to its
    end, or it raised and the enclosing [except] keeps the state reached. *)
Inductive outcome (A : Type) : Type :=
| Done (a : A)
| Raised (a : A).
Arguments Done {A} a.
Arguments Raised {A} a.

(** [g['total'] += 1] followed by [g['success'] += 1] or
    [g['failed'] += 1]. *)
Definition count_case (succeeded : bool) (g : group) : group :=
  if succeeded
  then Group (total g + 1) (success g + 1) (failed g)
             (tokens_in g) (tokens_out g) (total_time g)
  else Group (total g + 1) (success g) (failed g + 1)
             (tokens_in g) (tokens_out g) (total_time g).

(** [acc += v] on a sum: [TypeError] when [v] is not a number,
    [OverflowError] when an integer operand does not convert. *)
Definition accumulate (acc : num) (v : json) : option num :=
  n ← as_num v; PyNum.add acc n.

Definition set_tokens_in (n : num) (g : group) : group :=
  Group (total g) (success g) (failed g) n (tokens_out g) (total_time g).

Definition set_tokens_out (n : num) (g : group) : group :=
  Group (total g) (success g) (failed g) (tokens_in g) n (total_time g).

Definition set_total_time (n : num) (g : group) : group :=
  Group (total g) (success g) (failed g) (tokens_in g) (tokens_out g) n.

(** One of the four "Update by ..." blocks, on the table [table] and the
    key [k].  [table[k]] creates the zero entry when the key is new, and the
    six counters are updated in place in the order of the statements; an
    addition that raises does so after the earlier statements have taken
    effect. *)
Definition update_group `{Countable K} (table : gmap K group) (k : K) (c : case)
    : outcome (gmap K group) :=
  let g := default group_zero (table !! k) in
  let g := count_case (truthy (case_success c)) g in
  match accumulate (tokens_in g) (in_tokens c) with
  | None => Raised (<[k := g]> table)
  | Some n_in =>
      let g := set_tokens_in n_in g in
      match accumulate (tokens_out g) (out_tokens c) with
      | None => Raised (<[k := g]> table)
      | Some n_out =>
          let g := set_tokens_out n_out g in
          match accumulate (total_time g) (execution_time c) with
          | None => Raised (<[k := g]> table)
          | Some t => Done (<[k := set_total_time t g]> table)
          end
      end
  end.

Definition set_by_agent (st : stats) (t : gmap key group) : stats :=
  Stats (total_cases st) (successful_cases st) (failed_cases st)
        t (by_problem_type st) (by_task_type st) (by_category st)
        (detailed_cases st).

Definition set_by_problem_type (st : stats) (t : gmap string group) : stats :=
  Stats (total_cases st) (successful_cases st) (failed_cases st)
        (by_agent st) t (by_task_type st) (by_category st)
        (detailed_cases st).

Definition set_by_task_type (st : stats) (t : gmap string group) : stats :=
  Stats (total_cases st) (successful_cases st) (failed_cases st)
        (by_agent st) (by_problem_type st) t (by_category st)
        (detailed_cases st).

Definition set_by_category (st : stats) (t : gmap string group) : stats :=
  Stats (total_cases st) (successful_cases st) (failed_cases st)
        (by_agent st) (by_problem_type st) (by_task_type st) t
        (detailed_cases st).

(** [stats['total_cases'] += 1] and the overall success / failed tally. *)
Definition count_overall (succeeded : bool) (st : stats) : stats :=
  Stats (total_cases st + 1)
        (if succeeded then successful_cases st + 1 else successful_cases st)
        (if succeeded then failed_cases st else failed_cases st + 1)
        (by_agent st) (by_problem_type st) (by_task_type st) (by_category st)
        (detailed_cases st).

(** The ['total_tokens': in_tokens + out_tokens] of [case_detail]; the two
    values have been added to the sums before, so they are numbers here. *)
Definition total_tokens (c : case) : option num :=
  n_in ← as_num (in_tokens c); n_out ← as_num (out_tokens c); PyNum.add n_in n_out.

(** Building [case_detail] and [stats['detailed_cases'].append(case_detail)] *)
Definition append_case (st : stats) (c : case) : stats :=
  match total_tokens c with
  | Some _ =>
      Stats (total_cases st) (successful_cases st) (failed_cases st)
            (by_agent st) (by_problem_type st) (by_task_type st) (by_category st)
            (detailed_cases st ++ [c])
  | None => st
  end.

(** Lines 158-226 for one normalised case. *)
Definition update_statistics (st : stats) (c : case) : stats :=
  let st := count_overall (truthy (case_success c)) st in
  match hash_key (agent c) with
  | None => st
  | Some a =>
  match update_group (by_agent st) a c with
  | Raised t => set_by_agent st t
  | Done t =>
  let st := set_by_agent st t in
  match update_group (by_problem_type st) (problem_base c) c with
  | Raised t => set_by_problem_type st t
  | Done t =>
  let st := set_by_problem_type st t in
  match update_group (by_task_type st) (task_type c) c with
  | Raised t => set_by_task_type st t
  | Done t =>
  let st := set_by_task_type st t in
  match update_group (by_category st) (category c) c with
  | Raised t => set_by_category st t
  | Done t =>
  let st := set_by_category st t in
  append_case st c
  end end end end end.

(** The folding of the normalised cases into the statistics. *)
Definition aggregate (cases : list case) (st : stats) : stats :=
  fold_left update_statistics cases st.

(** One iteration of [for json_file in json_files]. *)
Definition process_file (st : stats) (f : string * json) : stats :=
  match normalize f.1 f.2 with
  | Some c => update_statistics st c
  | None => st
  end.

(** [analyze_results] on the files found in the directory; [None] when
    there is none. *)
Definition analyze_results (json_files : list (string * json)) : option stats :=
  match json_files with
  | [] => None
  | _ => Some (fold_left process_file json_files stats_init)
  end.

End AnalyzeBenchmarkResults.
(** ** [src/remove_supervisor.py] *)

Module RemoveSupervisor.
Import Py.

Definition detection_patterns : list string := ["detection"; "detect"].

(** The loop [for pattern in detection_patterns]; the patterns have no
    regular-expression operator, so [re.search] is the substring test. *)
Fixpoint search_patterns (problem_id_lower : string) (patterns : list string) : bool :=
  match patterns with
  | [] => false
  | pattern :: rest =>
      if PyStr.contains pattern problem_id_lower then true
      else search_patterns problem_id_lower rest
  end.

(** [is_detection_task(problem_id)] *)
Definition is_detection_task (problem_id : string) : bool :=
  search_patterns (PyStr.lower problem_id) detection_patterns.

Definition fields_to_remove : list string :=
  ["supervisor_result"; "supervisor_explanation"].

(** The loop [for field in fields_to_remove], on the [results] dictionary
    and the list [removed_fields] built so far. *)
Fixpoint remove_fields (fields : list string) (results : dict)
    (removed_fields : list string) : dict * list string :=
  match fields with
  | [] => (results, removed_fields)
  | field :: rest =>
      if has_key field results
      then remove_fields rest (delete field results) (removed_fields ++ [field])
      else remove_fields rest results removed_fields
  end.

(** [remove_supervisor_fields(data)], returning
    [(modified_data, removed_fields)].  [data.copy()] is a shallow copy: the
    [results] dictionary is shared, and the deletions made through
    [modified_data] are the in-place edit of the document. *)
Definition remove_supervisor_fields (data : dict) : dict * list string :=
  let modified_data := data in
  if negb (has_key "results" modified_data) then (modified_data, [])
  else
    match get "results" JNull modified_data with
    | JObj results =>
        let '(results, removed_fields) := remove_fields fields_to_remove results [] in
        (<["results" := JObj results]> modified_data, removed_fields)
    | _ => (modified_data, [])
    end.

(** What [process_directory] does with one file that [json.load] read. *)
Inductive action : Type :=
| NoProblemId                                      (* skipped, file untouched *)
| DetectionKept                                    (* detection task, file untouched *)
| Rewritten (modified_data : dict) (removed_fields : list string)
| NothingToRemove                                  (* file untouched *)
| UnexpectedError.                                 (* exception caught, file untouched *)

(** The body of the [try] block of [process_directory] on the parsed
    content of one file, up to the decision to write.  On a list or a
    string, ['problem_id' not in data] is the membership or the substring
    test and [data['problem_id']] raises; on a number, a boolean or [None]
    the test itself raises; a [problem_id] that is no string has no [lower]
    method. *)
Definition process_file (data : json) : action :=
  match data with
  | JObj data =>
      if negb (has_key "problem_id" data) then NoProblemId
      else
        match get "problem_id" JNull data with
        | JStr problem_id =>
            if is_detection_task problem_id then DetectionKept
            else
              let '(modified_data, removed_fields) := remove_supervisor_fields data in
              match removed_fields with
              | [] => NothingToRemove
              | _ => Rewritten modified_data removed_fields
              end
        | _ => UnexpectedError
        end
  | JStr s => if negb (PyStr.contains "problem_id" s) then NoProblemId else UnexpectedError
  | JArr l =>
      if negb (existsb (λ item, eq_str item "problem_id") l) then NoProblemId
      else UnexpectedError
  | _ => UnexpectedError
  end.

End RemoveSupervisor.

(** ** [src/remove_supervisor.py]: the directory loop *)

Module StripDirectory.
Import Py RemoveSupervisor.

(** [s.endswith(suffix)] *)
Fixpoint endswith (suffix s : string) : bool :=
  String.eqb suffix s ||
  match s with
  | EmptyString => false
  | String _ s' => endswith suffix s'
  end.

(** The three counters of [process_directory]. *)
Record counters : Type := Counters {
  processed_files : Z;
  non_detection_files : Z;
  modified_files : Z
}.

Section directory_loop.

(** Whether [json.dump(v, f, ensure_ascii=False, indent=2)] returns, on the
    file just opened for writing, rather than raising: [UnicodeEncodeError]
    on a string without UTF-8 encoding, [RecursionError] on a document
    nested too deeply for the encoder. *)
Variable json_dump : json → bool.

(** The body of the loop of [process_directory] on the content of one
    file, [None] standing for a file [json.load] rejects
    ([JSONDecodeError], caught before any counter moves): the content the
    file has afterwards, and the counters.

    Writing back is [open(file_path, 'w')], which empties the file (the
    file system is taken to work), followed by [json.dump]; when that
    raises, the exception is caught after the file has been cut off before
    the end of the document, so that it no longer parses, and before the
    file is counted as modified. *)
Definition process_entry (content : option json) (n : counters)
    : option json * counters :=
  match content with
  | None => (None, n)
  | Some data =>
      let processed := processed_files n + 1 in
      match process_file data with
      | NoProblemId | DetectionKept | UnexpectedError =>
          (Some data, Counters processed (non_detection_files n) (modified_files n))
      | NothingToRemove =>
          (Some data,
           Counters processed (non_detection_files n + 1) (modified_files n))
      | Rewritten modified_data _ =>
          if json_dump (JObj modified_data) then
            (Some (JObj modified_data),
             Counters processed (non_detection_files n + 1) (modified_files n + 1))
          else
            (None, Counters processed (non_detection_files n + 1) (modified_files n))
      end
  end.

(** The loop [for json_file in json_files], over the entries of the
    directory; an entry whose name does not end in [.json] is not listed
    and keeps its content. *)
Fixpoint process_entries (directory : list (string * option json)) (n : counters)
    : list (string * option json) * counters :=
  match directory with
  | [] => ([], n)
  | (name, content) :: rest =>
      if endswith ".json" name then
        let '(content, n) := process_entry content n in
        let '(rest, n) := process_entries rest n in
        ((name, content) :: rest, n)
      else
        let '(rest, n) := process_entries rest n in
        ((name, content) :: rest, n)
  end.

(** [process_directory] on an existing directory: the directory
    afterwards, and the counters of the summary, [None] when the function
    returns early because no name ends in [.json]. *)
Definition process_directory (directory : list (string * option json))
    : list (string * option json) * option counters :=
  let json_files := filter (λ f, endswith ".json" f.1 = true) directory in
  match json_files with
  | [] => (directory, None)
  | _ =>
      let '(directory, n) := process_entries directory (Counters 0 0 0) in
      (directory, Some n)
  end.

(** The document, if it is rewritten, can be written back. *)
Definition writable_content (content : option json) : Prop :=
  ∀ data modified_data removed_fields,
    content = Some data →
    process_file data = Rewritten modified_data removed_fields →
    json_dump (JObj modified_data) = true.

(** Every write the loop attempts on the directory succeeds. *)
Definition writable (directory : list (string * option json)) : Prop :=
  Forall (λ f, endswith ".json" f.1 = true → writable_content f.2) directory.

End directory_loop.

(** How far the counters [n'] are ahead of [n]. *)
Definition ahead (n n' : counters) : Z * Z * Z :=
  (processed_files n' - processed_files n,
   non_detection_files n' - non_detection_files n,
   modified_files n' - modified_files n).

End StripDirectory.

(** ** [src/extract_conversations.py] *)

Module ExtractConversations.

(** The newline character, and the two quote characters of the
    [exec_shell] pattern. *)
Definition newline : ascii := "010"%char.
Definition double_quote : ascii := "034"%char.
Definition single_quote : ascii := "039"%char.

(** The characters for which [str.isspace] holds, which are the ones
    [strip] and [rstrip] remove, each as its UTF-8 encoding: tab to carriage
    return, the four separators 28-31, space, [U+0085], [U+00A0], [U+1680],
    [U+2000] to [U+200A], [U+2028], [U+2029], [U+202F], [U+205F],
    [U+3000]. *)
Definition whitespace : list string :=
  PyStr.bytes <$>
    [[9]; [10]; [11]; [12]; [13]; [28]; [29]; [30]; [31]; [32];
     [194; 133]; [194; 160]; [225; 154; 128];
     [226; 128; 128]; [226; 128; 129]; [226; 128; 130]; [226; 128; 131];
     [226; 128; 132]; [226; 128; 133]; [226; 128; 134]; [226; 128; 135];
     [226; 128; 136]; [226; 128; 137]; [226; 128; 138];
     [226; 128; 168]; [226; 128; 169]; [226; 128; 175]; [226; 129; 159];
     [227; 128; 128]]%N.

(** The string is one whitespace character. *)
Definition is_space (s : string) : bool := existsb (String.eqb s) whitespace.

(** The number of bytes of the whitespace character [s] starts with, [0]
    when it starts with none. *)
Fixpoint space_width (spaces : list string) (s : string) : nat :=
  match spaces with
  | [] => 0
  | w :: rest =>
      if PyStr.startswith w s then String.length w else space_width rest s
  end.

(** [s.lstrip()]; [skip] is the number of bytes still to drop of the
    whitespace character being removed. *)
Fixpoint lstrip_from (skip : nat) (s : string) : string :=
  match s with
  | EmptyString => EmptyString
  | String _ s' =>
      match skip with
      | S k => lstrip_from k s'
      | O =>
          match space_width whitespace s with
          | O => s
          | S k => lstrip_from k s'
          end
      end
  end.

Definition lstrip (s : string) : string := lstrip_from 0 s.

(** [s.rstrip()]: what is left of the string is dropped as soon as it is
    one whitespace character. *)
Fixpoint rstrip (s : string) : string :=
  match s with
  | EmptyString => EmptyString
  | String c s' =>
      let r := String c (rstrip s') in
      if is_space r then EmptyString else r
  end.

(** [s.strip()] *)
Definition strip (s : string) : string := lstrip (rstrip s).

(** The last byte of a string, and the bytes a whitespace character can
    end with. *)
Fixpoint last_byte (s : string) : option ascii :=
  match s with
  | EmptyString => None
  | String c EmptyString => Some c
  | String _ s' => last_byte s'
  end.

Definition ends_space (c : ascii) : bool :=
  existsb (λ w, bool_decide (last_byte w = Some c)) whitespace.

(** The rest of [s] after the prefix [p], when [s] starts with [p]. *)
Fixpoint strip_prefix (p s : string) : option string :=
  match p, s with
  | EmptyString, _ => Some s
  | String a p', String b s' => if Ascii.eqb a b then strip_prefix p' s' else None
  | String _ _, EmptyString => None
  end.

(** The part of [s] before the suffix [suffix], when [s] ends with it. *)
Fixpoint strip_suffix (suffix s : string) : option string :=
  if String.eqb s suffix then Some EmptyString
  else match s with
       | EmptyString => None
       | String c s' => String c <$> strip_suffix suffix s'
       end.

(** The loop of [read_content_until_delimiter] over the lines from
    [start_index] on: the right-stripped lines up to the first one that
    starts with [=====]. *)
Fixpoint content_lines (lines : list string) : list string :=
  match lines with
  | [] => []
  | l :: rest =>
      let line := rstrip l in
      if PyStr.startswith "=====" line then []
      else line :: content_lines rest
  end.

(** [read_content_until_delimiter(lines, start_index)] *)
Definition read_content_until_delimiter (lines : list string) (start_index : nat)
    : string :=
  strip (PyStr.join (String newline EmptyString)
           (content_lines (drop start_index lines))).

(** [PROMPT_PATTERN.match(line)], the pattern being
    [^===== prompt =====$]: the line is the marker, possibly followed by
    one final newline, before which [$] matches too. *)
Definition prompt_match (line : string) : bool :=
  String.eqb line "===== prompt =====" ||
  String.eqb line ("===== prompt =====" +:+ String newline EmptyString).

(** [AGENT_PATTERN.match(line)], the pattern being [^===== Agent]. *)
Definition agent_match (line : string) : bool :=
  PyStr.startswith "===== Agent" line.

(** [CODE_BLOCK_PATTERN.match(raw)] with its group 1, the pattern being
    [^```\n(.*?)\n```$] with [re.DOTALL]: the text between an opening fence
    line and a closing fence that ends the string (or is followed by one
    final newline). *)
Definition code_block_match (raw : string) : option string :=
  match strip_prefix ("```" +:+ String newline EmptyString) raw with
  | None => None
  | Some rest =>
      match strip_suffix (String newline "```") rest with
      | Some body => Some body
      | None => strip_suffix (String newline ("```" +:+ String newline EmptyString)) rest
      end
  end.

Definition is_quote (c : ascii) : bool :=
  Ascii.eqb c double_quote || Ascii.eqb c single_quote.

(** The lazy group [(.*?)] followed by a quote and a closing parenthesis:
    the shortest prefix of [s] that is followed by a quote and [)], and
    that holds no newline, which [.] does not match. *)
Fixpoint lazy_until_close (s : string) : option string :=
  match s with
  | EmptyString => None
  | String c s' =>
      if is_quote c && PyStr.startswith ")" s' then Some EmptyString
      else if Ascii.eqb c newline then None
      else String c <$> lazy_until_close s'
  end.

(** [EXEC_SHELL_PATTERN.match(response)] with its group 1, the pattern
    being [exec_shell\(["'](.*?)["']\)]. *)
Definition exec_shell_match (response : string) : option string :=
  match strip_prefix "exec_shell(" response with
  | Some (String q rest) => if is_quote q then lazy_until_close rest else None
  | _ => None
  end.

(** One element of the list [res]. *)
Record conversation : Type := Conversation {
  prompt : string;
  response : string
}.

(** The response built from the lines that follow an Agent line. *)
Definition agent_response (lines_after : list string) : string :=
  let raw_response := read_content_until_delimiter lines_after 0 in
  let response :=
    match code_block_match raw_response with
    | Some body => strip body
    | None => raw_response
    end in
  match exec_shell_match response with
  | Some command => command
  | None => response
  end.

(** The inner loop [while j < len(lines)] from [j = i + 1]: the lines
    after the first Agent line, if there is one. *)
Fixpoint find_agent (lines_after : list string) : option (list string) :=
  match lines_after with
  | [] => None
  | l :: rest => if agent_match (strip l) then Some rest else find_agent rest
  end.

(** [processing_file] on the lines of the file ([file.readlines()]).  The
    outer loop visits every line; [rest] is [lines[i+1:]]. *)
Fixpoint processing_file (lines : list string) : list conversation :=
  match lines with
  | [] => []
  | l :: rest =>
      let line := strip l in
      if prompt_match line then
        let prompt := read_content_until_delimiter rest 0 in
        match find_agent rest with
        | Some lines_after =>
            {| prompt := prompt; response := agent_response lines_after |}
              :: processing_file rest
        | None => processing_file rest
        end
      else processing_file rest
  end.

(** A line the outer loop takes for a prompt marker, and one the inner
    loop takes for an Agent marker. *)
Definition prompt_line (l : string) : bool := prompt_match (strip l).
Definition agent_line (l : string) : bool := agent_match (strip l).

(** A command that the [exec_shell] pattern captures whole: it holds no
    newline and no quote directly followed by a closing parenthesis. *)
Definition bare_command (command : string) : Prop :=
  PyStr.mem_ascii newline command = false ∧
  ∀ q, is_quote q = true → ¬ PyStr.substring_of (String q ")") command.

End ExtractConversations.
(** ** Vocabulary for statements about documents *)

Module Document.
Import Py.

(** The [results] mapping of a document, as both analyzers read it:
    [data.get('results', {})], when that is a dictionary. *)
Definition results_of (data : json) : option dict :=
  match data with
  | JObj doc =>
      match get "results" (JObj ∅) doc with
      | JObj results => Some results
      | _ => None
      end
  | _ => None
  end.

(** The success-indicating fields the analyzers recognise. *)
Definition success_fields : list string :=
  ["success"; "Detection Accuracy"; "Localization Accuracy";
   "Analysis Accuracy"; "Mitigation Accuracy"; "Accuracy"].

(** The named duration fields, in the order they are probed. *)
Definition duration_fields : list string := ["TTM"; "TTD"; "TTL"; "TTA"].

(** The value of the first field of [fields] that [d] holds. *)
Fixpoint first_present (fields : list string) (d : dict) : option json :=
  match fields with
  | [] => None
  | field :: rest =>
      match d !! field with
      | Some v => Some v
      | None => first_present rest d
      end
  end.

(** The value a document holds under [field] inside its [results]
    dictionary, if any. *)
Definition results_field (data : dict) (field : string) : option json :=
  match data !! "results" with
  | Some (JObj results) => results !! field
  | _ => None
  end.

End Document.

(** ** Sample documents *)

Module Samples.
Import Py.

Definition obj (fields : list (string * json)) : json := JObj (list_to_map fields).

(** The library stand-in used when a sample is run through the first
    analyzer. *)
Definition strftime_stub (t : num) : option string := Some "1970-01-01 00:00:00".

(** Stand-ins for the pandas reductions, used when a sample frame is run
    through the observation report: exact on the integer cells the samples
    hold, raising on a cell that is not a number as the reductions do. *)
Definition selected (column : list json) (rows : list bool) : list json :=
  omap (λ cell, if (cell.2 : bool) && negb (BenchmarkAnalyzer.isna cell.1)
                then Some cell.1 else None)
       (zip column rows).

Definition integers (cells : list json) : option (list Z) :=
  mapM (λ v, match v with JNum z => Some z | _ => None end) cells.

Definition mean_stub (column : list json) (rows : list bool) : option json :=
  values ← integers (selected column rows);
  JFloat <$> truediv (foldr Z.add 0 values) (Z.of_nat (length values)).

Definition max_stub (column : list json) (rows : list bool) : option json :=
  values ← integers (selected column rows);
  match values with
  | [] => None
  | v :: vs => Some (JNum (foldr Z.max v vs))
  end.

Definition min_stub (column : list json) (rows : list bool) : option json :=
  values ← integers (selected column rows);
  match values with
  | [] => None
  | v :: vs => Some (JNum (foldr Z.min v vs))
  end.

(** Stand-ins for [round(x, 2)] and [int(x)]: the identity on the numbers
    of the samples, which have no third decimal. *)
Definition round2_stub (x : json) : option json :=
  match x with
  | JNum _ | JFloat _ => Some x
  | _ => None
  end.

Definition to_int_stub (x : json) : option json :=
  match x with
  | JNum _ => Some x
  | _ => None
  end.

(** Stand-in for the success of [json.dump]: documents of moderate depth,
    which only a string without UTF-8 encoding keeps from being written. *)
Definition json_dump_stub (v : json) : bool := encodable v.

(** The observation report with the stand-ins. *)
Definition observation_report (df : list BenchmarkAnalyzer.result)
    : option (list BenchmarkAnalyzer.observation) :=
  BenchmarkAnalyzer.generate_observation_csv
    mean_stub max_stub min_stub round2_stub to_int_stub df.

(** An explicit [success] next to a contradicting accuracy field. *)
Definition explicit_false : json :=
  obj [("problem_id", JStr "k8s_target_port-detection-1");
       ("results", obj [("success", JBool false);
                        ("Detection Accuracy", JStr "Correct");
                        ("supervisor_result", JStr "Correct")])].

(** A [success] field that is [null] next to a confirmed detection. *)
Definition null_success : json :=
  obj [("problem_id", JStr "k8s_target_port-detection-1");
       ("results", obj [("success", JNull);
                        ("Detection Accuracy", JStr "Correct");
                        ("supervisor_result", JStr "Correct")])].

(** The scenario of the specification: detection confirmed by the
    supervisor. *)
Definition detection_confirmed : json :=
  obj [("problem_id", JStr "k8s_target_port-detection-1");
       ("results", obj [("Detection Accuracy", JStr "Correct");
                        ("supervisor_result", JStr "Correct")])].

(** Detection judged correct, no supervisor verdict. *)
Definition detection_unsupervised : json :=
  obj [("problem_id", JStr "k8s_target_port-detection-1");
       ("results", obj [("Detection Accuracy", JStr "Correct")])].

(** No recognised field at all: [results = {}]. *)
Definition empty_results : json :=
  obj [("problem_id", JStr "pod_kill-mitigation-1"); ("results", obj [])].

(** Only a named duration, no timestamps. *)
Definition only_ttm : json :=
  obj [("problem_id", JStr "pod_kill-mitigation-1");
       ("results", obj [("TTM", JNum 5)])].

(** A start at the epoch itself. *)
Definition zero_start : json :=
  obj [("problem_id", JStr "pod_kill-mitigation-1");
       ("start_time", JNum 0); ("end_time", JNum 50);
       ("results", obj [])].

(** Timestamps and two named durations. *)
Definition timed : json :=
  obj [("problem_id", JStr "pod_kill-mitigation-1");
       ("start_time", JNum 100); ("end_time", JNum 160);
       ("results", obj [("TTD", JNum 7); ("TTM", JNum 5)])].

(** Equal timestamps and two named durations. *)
Definition untimed : json :=
  obj [("problem_id", JStr "pod_kill-mitigation-1");
       ("start_time", JNum 100); ("end_time", JNum 100);
       ("results", obj [("TTD", JNum 7); ("TTL", JNum 9)])].

(** Two mitigation runs, of 10 and 20 seconds. *)
Definition mitigation_10 : json :=
  obj [("problem_id", JStr "pod_kill-mitigation-1");
       ("start_time", JNum 1000); ("end_time", JNum 1010);
       ("results", obj [("success", JBool true)])].

Definition mitigation_20 : json :=
  obj [("problem_id", JStr "pod_kill-mitigation-2");
       ("start_time", JNum 1000); ("end_time", JNum 1020);
       ("results", obj [("success", JBool false)])].

(** A run whose only timing is a named duration, a float. *)
Definition run_of (seconds : float) : json :=
  obj [("problem_id", JStr "pod_kill-mitigation-1");
       ("results", obj [("TTM", JFloat seconds)])].

(** Three runs of 0.865, 1.04 and 1.7 seconds, and the two floats their
    times add up to, from the first to the last and from the last to the
    first. *)
#[warnings="-inexact-float"]
Definition float_runs : list (string * json) :=
  [("a.json", run_of 0.865); ("b.json", run_of 1.04); ("c.json", run_of 1.7)].

#[warnings="-inexact-float"]
Definition forward_sum : float := 3.605.

#[warnings="-inexact-float"]
Definition backward_sum : float := 3.6050000000000004.

(** A run that reports only its input tokens. *)
Definition tokens_of (in_tokens : json) : json :=
  obj [("problem_id", JStr "pod_kill-mitigation-1");
       ("results", obj [("in_tokens", in_tokens)])].

(** Three runs whose input tokens are a very large integer, its opposite
    and a float. *)
Definition overflow_runs : list (string * json) :=
  [("a.json", tokens_of (JNum (2 ^ 1024))); ("b.json", tokens_of (JNum (- 2 ^ 1024)));
   ("c.json", tokens_of (JFloat 1.5))].

(** A step count that is no number. *)
Definition steps_not_available : json :=
  obj [("problem_id", JStr "pod_kill-mitigation-1");
       ("results", obj [("steps", JStr "n/a")])].

(** A document with a string that holds the lone surrogate [U+D800],
    which [json.load] builds from the escape [\ud800]. *)
Definition surrogate : json :=
  obj [("problem_id", JStr "pod_kill-mitigation-1");
       ("session_id", JStr (PyStr.bytes [237; 160; 128]%N));
       ("results", obj [("supervisor_result", JStr "Correct")])].

(** A frame with detection and mitigation entries only. *)
Definition frame : list BenchmarkAnalyzer.result :=
  BenchmarkAnalyzer.analyze_json_files strftime_stub
    [("a.json", detection_confirmed); ("b.json", timed); ("c.json", only_ttm)]
    true.

(** A case whose four blocks run to their end, and one whose
    [out_tokens] is [null], so that the first block raises half-way. *)
Definition case_complete : AnalyzeBenchmarkResults.case :=
  AnalyzeBenchmarkResults.Case
    (JStr "s-1") (JStr "gpt") "pod_kill-mitigation-1" "pod_kill" "mitigation"
    "operational" (JBool true) (JNum 60) (JNum 5) (JNum 3) (JNum 10) (JNum 20)
    "a.json".

Definition case_partial : AnalyzeBenchmarkResults.case :=
  AnalyzeBenchmarkResults.Case
    (JStr "s-2") (JStr "gpt") "pod_kill-detection-1" "pod_kill" "detection"
    "operational" (JBool false) (JNum 30) (JNum 0) (JNum 2) (JNum 7) JNull
    "b.json".

End Samples.

(** ** Sums up to floating-point rounding

    The sums of the second analyzer are integers as long as only integers
    are added, and floats from the first float on.  An [amount] is what
    such a sum is worth when the last bits of a float are not trusted: the
    integer it is, or the mere fact that it is a float. *)

Module Amount.
Import Py.

Definition amount : Type := option Z.

Definition amount_of (n : num) : amount :=
  match n with
  | Int z => Some z
  | Float _ => None
  end.

(** The amount of a sum of two numbers that can be added. *)
Definition amount_add (a b : amount) : amount :=
  match a, b with
  | Some x, Some y => Some (x + y)
  | _, _ => None
  end.

(** The amount a value adds to a sum; a value that is no number adds
    nothing, the addition raises. *)
Definition value_amount (v : json) : amount :=
  match as_num v with
  | Some n => amount_of n
  | None => Some 0
  end.

(** The sum of the amounts of a list. *)
Definition amount_sum {A} (f : A → amount) (l : list A) : amount :=
  foldr (λ x acc, amount_add (f x) acc) (Some 0) l.

(** The size of the integer a value holds, [0] when it holds none. *)
Definition magnitude (v : json) : Z :=
  match as_num v with
  | Some (Int z) => Z.abs z
  | _ => 0
  end.

(** An integer sum that is at most [b] in absolute value, or a float. *)
Definition within (b : Z) (n : num) : Prop :=
  match n with
  | Int z => Z.abs z ≤ b
  | Float _ => True
  end.

End Amount.

(** ** The contribution of one case to a table

    What the statements of an "Update by ..." block add to the entry of
    their key, written as one increment of the counters and of the amounts
    of the sums; used to reason about the order of the updates. *)

Module Contribution.
Import Py AnalyzeBenchmarkResults.
Export Amount.

(** The counters of a group and the amounts of its sums. *)
Record tally : Type := Tally {
  count : Z;
  succeeded : Z;
  failures : Z;
  sum_in : amount;
  sum_out : amount;
  sum_time : amount
}.

Definition tally_of (g : group) : tally :=
  Tally (total g) (success g) (failed g)
        (amount_of (tokens_in g)) (amount_of (tokens_out g))
        (amount_of (total_time g)).

Definition tally_zero : tally := Tally 0 0 0 (Some 0) (Some 0) (Some 0).

(** Counter-wise sum. *)
Definition tally_add (g d : tally) : tally :=
  Tally (count g + count d) (succeeded g + succeeded d) (failures g + failures d)
        (amount_add (sum_in g) (sum_in d)) (amount_add (sum_out g) (sum_out d))
        (amount_add (sum_time g) (sum_time d)).

(** Add [d] to the entry of [k], created at zero when absent. *)
Definition bump `{Countable K} (k : K) (d : tally) (table : gmap K tally)
    : gmap K tally :=
  <[k := tally_add (default tally_zero (table !! k)) d]> table.

(** The three quantities of the case are numbers. *)
Definition completes (c : case) : bool :=
  match as_num (in_tokens c), as_num (out_tokens c), as_num (execution_time c) with
  | Some _, Some _, Some _ => true
  | _, _, _ => false
  end.

(** The increment a block applies before it ends or meets a value that is
    no number. *)
Definition delta (c : case) : tally :=
  let ok := truthy (case_success c) in
  let succ := if ok then 1 else 0 in
  let fail := if ok then 0 else 1 in
  match as_num (in_tokens c) with
  | None => Tally 1 succ fail (Some 0) (Some 0) (Some 0)
  | Some n_in =>
      match as_num (out_tokens c) with
      | None => Tally 1 succ fail (amount_of n_in) (Some 0) (Some 0)
      | Some n_out =>
          match as_num (execution_time c) with
          | None => Tally 1 succ fail (amount_of n_in) (amount_of n_out) (Some 0)
          | Some t =>
              Tally 1 succ fail (amount_of n_in) (amount_of n_out) (amount_of t)
          end
      end
  end.

(** The effect of one case on [by_agent]. *)
Definition agent_step (table : gmap key tally) (c : case) : gmap key tally :=
  match hash_key (agent c) with
  | Some a => bump a (delta c) table
  | None => table
  end.

(** The effect of one case on one of the three string-keyed tables, [k]
    being the key the case has in that table. *)
Definition keyed_step (k : case → string) (table : gmap string tally) (c : case)
    : gmap string tally :=
  match hash_key (agent c) with
  | Some _ => if completes c then bump (k c) (delta c) table else table
  | None => table
  end.

(** The effect of one case on the three overall counters. *)
Definition overall_step (counters : Z * Z * Z) (c : case) : Z * Z * Z :=
  let '(n, s, f) := counters in
  if truthy (case_success c) then (n + 1, s + 1, f) else (n + 1, s, f + 1).

(** The sum of a counter, and of an amount, over the entries of a table of
    tallies. *)
Definition tally_count `{Countable K} (field : tally → Z) (table : gmap K tally) : Z :=
  map_fold (λ _ d acc, acc + field d) 0 table.

Definition tally_amount `{Countable K} (field : tally → amount)
    (table : gmap K tally) : amount :=
  map_fold (λ _ d acc, amount_add acc (field d)) (Some 0) table.

(** The sums of every group of the table are [within] the bound. *)
Definition table_within `{Countable K} (b : Z) (table : gmap K group) : Prop :=
  map_Forall (λ _ g, within b (tokens_in g) ∧ within b (tokens_out g) ∧
                     within b (total_time g)) table.

Definition stats_within (b : Z) (st : stats) : Prop :=
  table_within b (by_agent st) ∧ table_within b (by_problem_type st) ∧
  table_within b (by_task_type st) ∧ table_within b (by_category st).

(** The state a block leaves behind, however it ended. *)
Definition reached {A} (o : outcome A) : A :=
  match o with
  | Done a | Raised a => a
  end.

End Contribution.

(** ** The numbers of the reports of the second analyzer *)

Module Reports.
Import Py AnalyzeBenchmarkResults Amount.

(** [sum(data[field] for data in table.values())] over one of the three
    counters. *)
Definition table_count `{Countable K} (field : group → Z) (table : gmap K group) : Z :=
  map_fold (λ _ data acc, acc + field data) 0 table.

(** [sum(data[field] for data in table.values())] over one of the three
    sums, as an amount: the integer it is when every value is one, and a
    float as soon as one value is a float, whose bits depend on the order
    of the dictionary and on the summation of [sum] and are not given.
    (The builtin raises only when an integer it holds or meets is beyond
    the float range.) *)
Definition table_sum `{Countable K} (field : group → num) (table : gmap K group)
    : amount :=
  map_fold (λ _ data acc, amount_add acc (amount_of (field data))) (Some 0) table.

(** The rows of the summary report of [generate_csv_reports] that are
    counts or sums, which [print_summary_stats] prints as well: the three
    overall counters and the token and time totals, summed over
    [stats['by_agent']].  (The rows that format a rate or an average are
    left out.) *)
Record summary : Type := Summary {
  row_total_cases : Z;
  row_successful_cases : Z;
  row_failed_cases : Z;
  row_total_tokens_in : amount;
  row_total_tokens_out : amount;
  row_total_tokens : amount;
  row_total_time : amount
}.

Definition summary_rows (st : stats) : summary :=
  let total_tokens_in := table_sum tokens_in (by_agent st) in
  let total_tokens_out := table_sum tokens_out (by_agent st) in
  let total_time := table_sum total_time (by_agent st) in
  {| row_total_cases := total_cases st;
     row_successful_cases := successful_cases st;
     row_failed_cases := failed_cases st;
     row_total_tokens_in := total_tokens_in;
     row_total_tokens_out := total_tokens_out;
     row_total_tokens := amount_add total_tokens_in total_tokens_out;
     row_total_time := total_time |}.

End Reports.

(** ** Vocabulary for statements about cases *)

Module Cases.
Import Py AnalyzeBenchmarkResults Contribution.

(** The agent of the case can be a dictionary key and its three quantities
    are numbers: the four blocks of the update run to their end, unless an
    integer is too large to be added to a float. *)
Definition recorded (c : case) : bool :=
  match hash_key (agent c) with
  | Some _ => completes c
  | None => false
  end.

(** A group that at least one case was counted in, with its tallies adding
    up. *)
Definition balanced (g : group) : Prop :=
  success g + failed g = total g ∧ 0 ≤ success g ∧ 0 ≤ failed g ∧ 0 < total g.

(** Statistics whose successes and failures add up, overall and in every
    group of every table. *)
Definition sound (st : stats) : Prop :=
  successful_cases st + failed_cases st = total_cases st ∧
  map_Forall (λ _ g, balanced g) (by_agent st) ∧
  map_Forall (λ _ g, balanced g) (by_problem_type st) ∧
  map_Forall (λ _ g, balanced g) (by_task_type st) ∧
  map_Forall (λ _ g, balanced g) (by_category st).

(** The integers among the token counts and the time of a case, and of a
    list of cases, added up in absolute value. *)
Definition case_magnitude (c : case) : Z :=
  magnitude (in_tokens c) + magnitude (out_tokens c) + magnitude (execution_time c).

Definition mass (cases : list case) : Z :=
  foldr (λ c acc, case_magnitude c + acc) 0 cases.

(** No integer that the cases can add up to is too large for a float: no
    addition of the update raises [OverflowError]. *)
Definition no_overflow (cases : list case) : Prop := mass cases < float_limit.

(** Two sums are the same integer, or are both floats. *)
Definition same_amount (a b : num) : Prop :=
  match a, b with
  | Int x, Int y => x = y
  | Float _, Float _ => True
  | _, _ => False
  end.

(** Two groups have the same counters, and the same sums up to the value
    of a float. *)
Definition same_sums (g g' : group) : Prop :=
  total g = total g' ∧ success g = success g' ∧ failed g = failed g' ∧
  same_amount (tokens_in g) (tokens_in g') ∧
  same_amount (tokens_out g) (tokens_out g') ∧
  same_amount (total_time g) (total_time g').

(** Two tables have the same keys, with the same sums at every key. *)
Definition same_table `{Countable K} (table table' : gmap K group) : Prop :=
  ∀ k, match table !! k, table' !! k with
       | Some g, Some g' => same_sums g g'
       | None, None => True
       | _, _ => False
       end.

(** The counters of [table] are the totals over [cases]: one count per
    case, and the amounts of the token and time sums of the cases. *)
Definition accounts_for `{Countable K} (table : gmap K group) (cases : list case)
    : Prop :=
  Reports.table_count total table = Z.of_nat (length cases) ∧
  Reports.table_sum tokens_in table
    = amount_sum (λ c, value_amount (in_tokens c)) cases ∧
  Reports.table_sum tokens_out table
    = amount_sum (λ c, value_amount (out_tokens c)) cases ∧
  Reports.table_sum total_time table
    = amount_sum (λ c, value_amount (execution_time c)) cases.

(** The same, on a table of tallies. *)
Definition tallies_account `{Countable K} (table : gmap K tally) (cases : list case)
    : Prop :=
  tally_count count table = Z.of_nat (length cases) ∧
  tally_amount sum_in table = amount_sum (λ c, value_amount (in_tokens c)) cases ∧
  tally_amount sum_out table = amount_sum (λ c, value_amount (out_tokens c)) cases ∧
  tally_amount sum_time table
    = amount_sum (λ c, value_amount (execution_time c)) cases.

End Cases.

(** ** Vocabulary for statements about accepted documents *)

Module Accepted.
Import Py.

(** A value under ["problem_id"] the first analyzer can classify: a falsy
    value, or a string. *)
Definition classifiable (problem_id : json) : Prop :=
  truthy problem_id = false ∨ ∃ s, problem_id = JStr s.

(** A timestamp the first analyzer can convert: [None], or a number the
    calendar formatting accepts. *)
Definition convertible (strftime_utc : num → option string) (timestamp : json) : Prop :=
  timestamp = JNull ∨
  ∃ t, as_num timestamp = Some t ∧
       is_Some (BenchmarkAnalyzer.format_timestamp strftime_utc t).

(** A success cell that is [None], [True] or [False]. *)
Definition tri_state (v : json) : Prop := v = JNull ∨ ∃ b, v = JBool b.

(** The [success] field of the results of a document, when there is one,
    is a boolean. *)
Definition boolean_success (data : json) : Prop :=
  ∀ results v,
    Document.results_of data = Some results → results !! "success" = Some v →
    ∃ b, v = JBool b.

(** The timestamps the second analyzer accepts: two numbers, whose
    difference can be formed when the end is the greater; two strings of
    which the end is not after the start; or two lists of which the end
    does not compare greater. *)
Definition timestamps_accepted (start_time end_time : json) : Prop :=
  (∃ s e, as_num start_time = Some s ∧ as_num end_time = Some e ∧
          (PyNum.gt e s = true → is_Some (PyNum.sub e s))) ∨
  (∃ s e, start_time = JStr s ∧ end_time = JStr e ∧ String.ltb s e = false) ∨
  (∃ s e, start_time = JArr s ∧ end_time = JArr e ∧
          gt end_time start_time = Some false).

End Accepted.

(** * Properties *)

(** ** Strings *)

Section string_facts.
Import PyStr.
#[local] Arguments String.append !_ _ / : simpl nomatch.

Lemma append_nil_r (s : string) : s +:+ "" = s.
Proof. induction s as [|c s IH]; simpl; [done|by rewrite IH]. Qed.

Lemma append_assoc (a b c : string) : (a +:+ b) +:+ c = a +:+ (b +:+ c).
Proof. induction a as [|x a IH]; simpl; [done|by rewrite IH]. Qed.

Lemma startswith_spec (k s : string) :
  startswith k s = true ↔ ∃ post, s = k +:+ post.
Proof.
  revert s. induction k as [|a k IH]; intros s; simpl.
  - split; [intros _; by exists s|done].
  - destruct s as [|b s].
    + split; [done|intros [post Hpost]; discriminate].
    + destruct (Ascii.eqb_spec a b) as [->|Hne].
      * rewrite IH. split; intros [post Hpost]; exists post; congruence.
      * split; [done|intros [post Hpost]; congruence].
Qed.

(** [contains] decides the occurrence of [k] inside [s]. *)
Lemma contains_spec (k s : string) :
  contains k s = true ↔ substring_of k s.
Proof.
  unfold substring_of. induction s as [|c s IH].
  - simpl. rewrite orb_false_r, startswith_spec. split.
    + intros [post Hpost]. by exists "", post.
    + intros (pre & post & Heq). destruct pre; [by exists post|discriminate].
  - cbn [contains]. rewrite orb_true_iff, IH, startswith_spec. split.
    + intros [[post Hpost]|(pre & post & Heq)].
      * by exists "", post.
      * exists (String c pre), post. simpl. by rewrite Heq.
    + intros (pre & post & Heq). destruct pre as [|c' pre].
      * left. by exists post.
      * right. exists pre, post. simpl in Heq. congruence.
Qed.

Lemma contains_false (k s : string) :
  contains k s = false ↔ ¬ substring_of k s.
Proof. rewrite <- contains_spec. by destruct (contains k s). Qed.

Lemma split_nonempty (sep : ascii) (s : string) : split sep s ≠ [].
Proof.
  destruct s as [|c s]; simpl; [done|].
  destruct (Ascii.eqb c sep); [done|]. by destruct (split sep s).
Qed.

(** Joining the segments with the separator gives the string back. *)
Lemma join_split (sep : ascii) (s : string) :
  join (String sep "") (split sep s) = s.
Proof.
  induction s as [|c s IH]; [done|]. cbn [split].
  pose proof (split_nonempty sep s) as Hne.
  destruct (Ascii.eqb_spec c sep) as [->|Hc].
  - destruct (split sep s) as [|seg segs]; [done|].
    change (join (String sep "") ("" :: seg :: segs))
      with (String sep (join (String sep "") (seg :: segs))).
    by rewrite IH.
  - destruct (split sep s) as [|seg segs]; [done|].
    destruct segs as [|seg' segs]; simpl in *; congruence.
Qed.

(** No segment contains the separator. *)
Lemma split_sep_free (sep : ascii) (s : string) :
  Forall (λ seg, mem_ascii sep seg = false) (split sep s).
Proof.
  induction s as [|c s IH]; simpl; [by repeat constructor|].
  destruct (Ascii.eqb_spec c sep) as [->|Hc]; [by constructor|].
  destruct (split sep s) as [|seg segs]; simpl.
  - repeat constructor. simpl. rewrite orb_false_r. by apply Ascii.eqb_neq.
  - inversion IH; subst. constructor; [|done].
    simpl. rewrite orb_false_iff. split; [by apply Ascii.eqb_neq|done].
Qed.

Lemma split_sep_free_string (sep : ascii) (s : string) :
  mem_ascii sep s = false → split sep s = [s].
Proof.
  induction s as [|c s IH]; simpl; [done|].
  rewrite orb_false_iff. intros [Hc Hs]. rewrite Hc, (IH Hs). done.
Qed.

Lemma split_app_sep (sep : ascii) (seg rest : string) :
  mem_ascii sep seg = false →
  split sep (seg +:+ String sep rest) = seg :: split sep rest.
Proof.
  induction seg as [|c seg IH]; simpl.
  - intros _. by rewrite Ascii.eqb_refl.
  - rewrite orb_false_iff. intros [Hc Hseg]. by rewrite Hc, (IH Hseg).
Qed.

(** [split] is the only way to cut a string into separator-free segments:
    it inverts [join] on such segments. *)
Lemma split_join (sep : ascii) (parts : list string) :
  parts ≠ [] →
  Forall (λ seg, mem_ascii sep seg = false) parts →
  split sep (join (String sep "") parts) = parts.
Proof.
  induction parts as [|p ps IH]; [done|]. intros _ Hfree.
  inversion Hfree as [|? ? Hp Hps]; subst.
  destruct ps as [|q ps].
  - simpl. by apply split_sep_free_string.
  - change (join (String sep "") (p :: q :: ps))
      with (p +:+ String sep "" +:+ join (String sep "") (q :: ps)).
    change (String sep "" +:+ join (String sep "") (q :: ps))
      with (String sep (join (String sep "") (q :: ps))).
    rewrite split_app_sep by done. by rewrite IH.
Qed.

End string_facts.

(** ** The classifiers *)

(** Case analysis on [x ∈ [a; b; ...]] for a list given in full. *)
Ltac enum_elem H :=
  repeat (apply elem_of_cons in H as [H|H]); [..|by apply elem_of_nil in H].

Section structural_split.
Import PyStr AnalyzeBenchmarkResults.

(** Whenever the segments are [before ++ [t; v]], the classifier returns
    [t] and the join of [before]. *)
Lemma extract_problem_info_parts (problem_id : string) (before : list string)
    (t v : string) :
  split "-" problem_id = before ++ [t; v] →
  extract_problem_info problem_id = (join "-" before, t).
Proof.
  intros Hparts. unfold extract_problem_info. rewrite Hparts.
  rewrite length_app. cbn [length].
  rewrite bool_decide_eq_true_2 by lia.
  replace (length before + 2 - 2)%nat with (length before) by lia.
  rewrite take_app_length, lookup_app_r by lia.
  by rewrite Nat.sub_diag.
Qed.

Lemma two_last {A} (l : list A) :
  (2 ≤ length l)%nat → ∃ before t v, l = before ++ [t; v].
Proof.
  intros Hlen. pose proof (take_drop (length l - 2) l) as Hsplit.
  pose proof (length_drop l (length l - 2)) as Hdrop.
  destruct (drop (length l - 2) l) as [|t [|v [|w r]]]; cbn in Hdrop; try lia.
  by exists (take (length l - 2) l), t, v.
Qed.

(** An identifier written as ['-'.join(before + [t, v])] with
    separator-free segments is classified [(before joined, t)]. *)
Lemma extract_problem_info_join (before : list string) (t v : string) :
  Forall (λ seg, mem_ascii "-" seg = false) (before ++ [t; v]) →
  extract_problem_info (join "-" (before ++ [t; v])) = (join "-" before, t).
Proof.
  intros Hfree. apply extract_problem_info_parts with v.
  apply split_join; [by destruct before|done].
Qed.

(** C5. Variant B splits the identifier on ['-']; with at least two
    segments it returns the second-to-last segment as task type and the
    segments before it, joined by ['-'], as problem base; with fewer than
    two segments it returns task type [unknown] and the whole identifier. *)
Theorem extract_problem_info_structural_split (problem_id : string) :
  let parts := split "-" problem_id in
  ((2 ≤ length parts)%nat →
     ∃ before t v, parts = before ++ [t; v] ∧
       extract_problem_info problem_id = (join "-" before, t)) ∧
  ((length parts < 2)%nat →
     extract_problem_info problem_id = (problem_id, "unknown")).
Proof.
  intros parts. split.
  - intros Hlen. destruct (two_last parts Hlen) as (before & t & v & Hparts).
    exists before, t, v. split; [done|].
    by apply extract_problem_info_parts with v.
  - intros Hlen. unfold extract_problem_info. fold parts.
    by rewrite bool_decide_eq_false_2 by lia.
Qed.

Lemma extract_problem_info_structural_split_witness :
  ((2 ≤ length (split "-" "k8s_target_port-detection-1"))%nat ∧
   ∃ before t v,
     split "-" "k8s_target_port-detection-1" = before ++ [t; v] ∧
     extract_problem_info "k8s_target_port-detection-1" = (join "-" before, t)) ∧
  ((length (split "-" "noop") < 2)%nat ∧
   extract_problem_info "noop" = ("noop", "unknown")).
Proof.
  split; split.
  - cbn. lia.
  - apply (proj1 (extract_problem_info_structural_split "k8s_target_port-detection-1")).
    cbn. lia.
  - cbn. lia.
  - apply (proj2 (extract_problem_info_structural_split "noop")). cbn. lia.
Defined.

Example extract_problem_info_k8s :
  extract_problem_info "k8s_target_port-detection-1" = ("k8s_target_port", "detection").
Proof. reflexivity. Qed.

Example extract_problem_info_two_segments :
  extract_problem_info "detection-1" = ("", "detection").
Proof. reflexivity. Qed.

End structural_split.

Section category.
Import PyStr AnalyzeBenchmarkResults.

Lemma scan_problems_spec (problem_base : string) (problems : list string) :
  scan_problems problem_base problems = true ↔
  ∃ kw, kw ∈ problems ∧ substring_of kw problem_base.
Proof.
  induction problems as [|p ps IH]; simpl.
  - split; [done|]. intros (kw & Hin & _). by apply elem_of_nil in Hin.
  - destruct (contains p problem_base) eqn:Hp.
    + split; [intros _|done]. exists p. split; [left|by apply contains_spec].
    + rewrite IH. apply contains_false in Hp.
      split; intros (kw & Hin & Hsub); exists kw.
      * split; [by right|done].
      * apply elem_of_cons in Hin as [->|Hin]; [done|by split].
Qed.

Lemma scan_categories_first_match (problem_base : string)
    (earlier later : list (string * list string)) (category : string)
    (problems : list string) :
  Forall (λ cp, scan_problems problem_base cp.2 = false) earlier →
  scan_problems problem_base problems = true →
  scan_categories problem_base (earlier ++ (category, problems) :: later) = category.
Proof.
  intros Hearlier Hhere. induction Hearlier as [|[c ps] earlier Hc _ IH]; simpl.
  - by rewrite Hhere.
  - simpl in Hc. by rewrite Hc.
Qed.

Lemma scan_categories_no_match (problem_base : string)
    (cats : list (string * list string)) :
  Forall (λ cp, scan_problems problem_base cp.2 = false) cats →
  scan_categories problem_base cats = "other".
Proof.
  induction 1 as [|[c ps] cats Hc _ IH]; simpl; [done|].
  simpl in Hc. by rewrite Hc.
Qed.

Lemma no_keyword_scan (problem_base : string) (cats : list (string * list string)) :
  (∀ c ps kw, (c, ps) ∈ cats → kw ∈ ps → ¬ substring_of kw problem_base) →
  Forall (λ cp, scan_problems problem_base cp.2 = false) cats.
Proof.
  intros Hnone. apply Forall_forall. intros [c ps] Hin. simpl.
  destruct (scan_problems problem_base ps) eqn:Hscan; [|done].
  apply scan_problems_spec in Hscan as (kw & Hkw & Hsub).
  by destruct (Hnone c ps kw Hin Hkw).
Qed.

(** C6. The category of a problem base is the first category, in the order
    infrastructure, application, operational, baseline, one of whose
    keywords occurs in the problem base, and [other] when no keyword of any
    list occurs; ["k8s_target_port"] is an infrastructure problem. *)
Theorem categorize_problem_type_first_match (problem_base : string) :
  (∀ earlier category problems later,
     categories = earlier ++ (category, problems) :: later →
     (∃ kw, kw ∈ problems ∧ substring_of kw problem_base) →
     (∀ c ps kw, (c, ps) ∈ earlier → kw ∈ ps → ¬ substring_of kw problem_base) →
     categorize_problem_type problem_base = category) ∧
  ((∀ c ps kw, (c, ps) ∈ categories → kw ∈ ps → ¬ substring_of kw problem_base) →
     categorize_problem_type problem_base = "other") ∧
  categories.*1 = ["infrastructure"; "application"; "operational"; "baseline"] ∧
  categorize_problem_type "k8s_target_port" = "infrastructure".
Proof.
  split; [|split; [|split; reflexivity]].
  - intros earlier category problems later Hcats Hhere Hearlier.
    unfold categorize_problem_type. rewrite Hcats.
    apply scan_categories_first_match.
    + by apply no_keyword_scan.
    + by apply scan_problems_spec.
  - intros Hnone. apply scan_categories_no_match. by apply no_keyword_scan.
Qed.

Lemma categorize_problem_type_first_match_witness :
  categorize_problem_type "pod_kill_hotel_res" = "operational" ∧
  categorize_problem_type "hotel_reservation" = "other".
Proof.
  split.
  - apply (proj1 (categorize_problem_type_first_match "pod_kill_hotel_res")
             (take 2 categories) "operational"
             ["scale_pod"; "assign_non_existent_node"; "container_kill";
              "pod_failure"; "pod_kill"; "wrong_bin_usage";
              "operator_misoperation"; "flower_node_stop"]
             (drop 3 categories)).
    + reflexivity.
    + exists "pod_kill". split; [set_solver|].
      apply contains_spec. reflexivity.
    + intros c ps kw Hc Hkw. apply contains_false.
      enum_elem Hc; inversion Hc; subst; enum_elem Hkw; subst; reflexivity.
  - apply (proj1 (proj2 (categorize_problem_type_first_match "hotel_reservation"))).
    intros c ps kw Hc Hkw. apply contains_false.
    enum_elem Hc; inversion Hc; subst; enum_elem Hkw; subst; reflexivity.
Defined.

End category.

Section substring_match.
Import PyStr Py BenchmarkAnalyzer.
#[local] Arguments String.append !_ _ / : simpl nomatch.

Lemma lower_app (a b : string) : lower (a +:+ b) = lower a +:+ lower b.
Proof. induction a as [|c a IH]; simpl; [done|by rewrite IH]. Qed.

(** An occurrence of a word in any letter case is an occurrence of the
    lowered word in the lowered identifier. *)
Lemma substring_of_lower (w s : string) :
  substring_of w s → substring_of (lower w) (lower s).
Proof.
  intros (pre & post & ->). exists (lower pre), (lower post).
  by rewrite !lower_app.
Qed.

Lemma scan_task_types_first_match (lowered : string) (earlier later : list string)
    (t : string) :
  Forall (λ t', contains t' lowered = false) earlier →
  contains t lowered = true →
  scan_task_types lowered (earlier ++ t :: later) = t.
Proof.
  intros Hearlier Hhere. induction Hearlier as [|t' earlier Ht' _ IH]; simpl.
  - by rewrite Hhere.
  - by rewrite Ht'.
Qed.

Lemma scan_task_types_no_match (lowered : string) (types : list string) :
  Forall (λ t, contains t lowered = false) types →
  scan_task_types lowered types = "unknown".
Proof. induction 1 as [|t types Ht _ IH]; simpl; [done|by rewrite Ht]. Qed.

Lemma extract_task_type_nonempty (problem_id : string) :
  problem_id ≠ "" →
  extract_task_type (JStr problem_id) =
    Some (scan_task_types (lower problem_id) task_types).
Proof. by destruct problem_id. Qed.

(** C7. Variant A returns the first of detection, localization, analysis,
    mitigation that occurs in the lowered identifier, and [unknown] when
    none occurs, in particular for the empty identifier. *)
Theorem extract_task_type_first_match (problem_id : string) :
  (∀ earlier t later,
     task_types = earlier ++ t :: later →
     substring_of t (lower problem_id) →
     (∀ t', t' ∈ earlier → ¬ substring_of t' (lower problem_id)) →
     extract_task_type (JStr problem_id) = Some t) ∧
  ((∀ t, t ∈ task_types → ¬ substring_of t (lower problem_id)) →
     extract_task_type (JStr problem_id) = Some "unknown") ∧
  task_types = ["detection"; "localization"; "analysis"; "mitigation"] ∧
  extract_task_type (JStr "") = Some "unknown".
Proof.
  split; [|split; [|split; reflexivity]].
  - intros earlier t later Htypes Hhere Hearlier.
    destruct (decide (problem_id = "")) as [->|Hne].
    + exfalso. apply contains_spec in Hhere.
      assert (t ∈ task_types) as Ht by (rewrite Htypes; set_solver).
      enum_elem Ht; subst; discriminate.
    + rewrite extract_task_type_nonempty, Htypes by done. f_equal.
      apply scan_task_types_first_match; [|by apply contains_spec].
      apply Forall_forall. intros t' Ht'. apply contains_false. by apply Hearlier.
  - intros Hnone. destruct (decide (problem_id = "")) as [->|Hne]; [done|].
    rewrite extract_task_type_nonempty by done. f_equal.
    apply scan_task_types_no_match, Forall_forall.
    intros t Ht. apply contains_false. by apply Hnone.
Qed.

Lemma extract_task_type_first_match_witness :
  extract_task_type (JStr "Net-Analysis-or-Mitigation-1") = Some "analysis" ∧
  extract_task_type (JStr "noop-1") = Some "unknown".
Proof.
  split.
  - apply (proj1 (extract_task_type_first_match "Net-Analysis-or-Mitigation-1")
             ["detection"; "localization"] "analysis" ["mitigation"]).
    + reflexivity.
    + apply contains_spec. reflexivity.
    + intros t' Ht'. apply contains_false. enum_elem Ht'; subst; reflexivity.
  - apply (proj1 (proj2 (extract_task_type_first_match "noop-1"))).
    intros t Ht. apply contains_false. enum_elem Ht; subst; reflexivity.
Defined.

(** An occurrence of "detection" in any letter case decides the type. *)
Lemma extract_task_type_detection_any_case (w problem_id : string) :
  substring_of w problem_id → lower w = "detection" →
  extract_task_type (JStr problem_id) = Some "detection".
Proof.
  intros Hsub Hw. apply substring_of_lower in Hsub. rewrite Hw in Hsub.
  apply contains_spec in Hsub.
  destruct (decide (problem_id = "")) as [->|Hne]; [discriminate|].
  rewrite extract_task_type_nonempty by done. f_equal.
  by apply (scan_task_types_first_match _ []).
Qed.

Example extract_task_type_upper :
  extract_task_type (JStr "K8S_TARGET_PORT-DETECTION-1") = Some "detection".
Proof. reflexivity. Qed.

End substring_match.

(** ** Success resolution *)

Section success.
Import Py Document.

Lemma has_key_true (k : string) (d : dict) (v : json) :
  d !! k = Some v → has_key k d = true ∧ ∀ dflt, get k dflt d = v.
Proof. intros Hk. unfold has_key, get. by rewrite Hk. Qed.

Lemma has_key_false (k : string) (d : dict) :
  d !! k = None → has_key k d = false ∧ ∀ dflt, get k dflt d = dflt.
Proof. intros Hk. unfold has_key, get. by rewrite Hk. Qed.

(** What a produced entry of the first analyzer says about its document. *)
Lemma analyze_json_file_inv (strftime_utc : num → option string)
    (json_file : string) (data : json) (sup : bool) (r : BenchmarkAnalyzer.result) :
  BenchmarkAnalyzer.analyze_json_file strftime_utc json_file data sup = Some r →
  ∃ doc results,
    data = JObj doc ∧ results_of data = Some results ∧
    BenchmarkAnalyzer.extract_task_type (get "problem_id" (JStr "") doc)
      = Some (BenchmarkAnalyzer.task_type r) ∧
    BenchmarkAnalyzer.success r =
      BenchmarkAnalyzer.resolve_success results
        (get "supervisor_result" JNull results) sup ∧
    BenchmarkAnalyzer.resolve_duration
      (get "start_time" JNull doc) (get "end_time" JNull doc)
      = Some (BenchmarkAnalyzer.duration r) ∧
    BenchmarkAnalyzer.steps r = get "steps" JNull results.
Proof.
  unfold BenchmarkAnalyzer.analyze_json_file, results_of.
  destruct data as [| | | | | |doc]; try done.
  destruct (get "results" (JObj ∅) doc) as [| | | | | |results]; try done.
  intros Hr. exists doc, results.
  destruct (BenchmarkAnalyzer.extract_task_type _) as [t|]; [|done].
  destruct (BenchmarkAnalyzer.resolve_duration _ _) as [d|]; [|done].
  destruct (BenchmarkAnalyzer.convert_timestamp_to_utc _ (get "start_time" _ _));
    [|done].
  destruct (BenchmarkAnalyzer.convert_timestamp_to_utc _ (get "end_time" _ _));
    [|done].
  simpl in Hr. by injection Hr as <-.
Qed.

(** What a normalised case of the second analyzer says about its document. *)
Lemma normalize_inv (json_file : string) (data : json)
    (c : AnalyzeBenchmarkResults.case) :
  AnalyzeBenchmarkResults.normalize json_file data = Some c →
  ∃ doc results problem_id,
    data = JObj doc ∧ results_of data = Some results ∧
    get "problem_id" (JStr "unknown") doc = JStr problem_id ∧
    AnalyzeBenchmarkResults.extract_problem_info problem_id
      = (AnalyzeBenchmarkResults.problem_base c, AnalyzeBenchmarkResults.task_type c) ∧
    AnalyzeBenchmarkResults.category c
      = AnalyzeBenchmarkResults.categorize_problem_type
          (AnalyzeBenchmarkResults.problem_base c) ∧
    AnalyzeBenchmarkResults.case_success c
      = AnalyzeBenchmarkResults.resolve_success results ∧
    AnalyzeBenchmarkResults.task_time c
      = AnalyzeBenchmarkResults.resolve_ttm results ∧
    AnalyzeBenchmarkResults.resolve_execution_time
      (get "start_time" (JNum 0) doc) (get "end_time" (JNum 0) doc)
      (AnalyzeBenchmarkResults.resolve_ttm results)
      = Some (AnalyzeBenchmarkResults.execution_time c).
Proof.
  unfold AnalyzeBenchmarkResults.normalize, results_of.
  destruct data as [| | | | | |doc]; try done.
  destruct (get "results" (JObj ∅) doc) as [| | | | | |results]; try done.
  destruct (AnalyzeBenchmarkResults.resolve_execution_time _ _ _) as [t|] eqn:Ht;
    [|done].
  simpl.
  destruct (get "problem_id" (JStr "unknown") doc) as [| | | |problem_id| |] eqn:Hid;
    try done.
  destruct (AnalyzeBenchmarkResults.extract_problem_info problem_id)
    as [base type] eqn:Hinfo.
  intros Hc. injection Hc as <-. by exists doc, results, problem_id.
Qed.

(** C2. When the results mapping holds a boolean under [success], the
    resolved success is that boolean in both analyzers, whatever
    accuracy-style fields the mapping also holds. *)
Theorem explicit_success_verbatim (strftime_utc : num → option string)
    (json_file : string) (data : json) (results : dict) (b : bool) :
  results_of data = Some results →
  results !! "success" = Some (JBool b) →
  (∀ sup r,
     BenchmarkAnalyzer.analyze_json_file strftime_utc json_file data sup = Some r →
     BenchmarkAnalyzer.success r = JBool b) ∧
  (∀ c,
     AnalyzeBenchmarkResults.normalize json_file data = Some c →
     AnalyzeBenchmarkResults.case_success c = JBool b).
Proof.
  intros Hresults Hsuccess.
  destruct (has_key_true _ _ _ Hsuccess) as [Hkey Hget]. split.
  - intros sup r Hr.
    apply analyze_json_file_inv in Hr as (doc & results' & _ & Hres' & _ & -> & _).
    assert (results' = results) as -> by congruence.
    unfold BenchmarkAnalyzer.resolve_success. by rewrite Hkey, Hget.
  - intros c Hc.
    apply normalize_inv in Hc as (doc & results' & pid & _ & Hres' & _ & _ & _ & -> & _).
    assert (results' = results) as -> by congruence.
    unfold AnalyzeBenchmarkResults.resolve_success. by rewrite Hkey, Hget.
Qed.

Lemma explicit_success_verbatim_witness :
  BenchmarkAnalyzer.success <$>
    BenchmarkAnalyzer.analyze_json_file Samples.strftime_stub "a.json"
      Samples.explicit_false true = Some (JBool false) ∧
  AnalyzeBenchmarkResults.case_success <$>
    AnalyzeBenchmarkResults.normalize "a.json" Samples.explicit_false
    = Some (JBool false).
Proof.
  destruct (explicit_success_verbatim Samples.strftime_stub "a.json"
              Samples.explicit_false
              (list_to_map [("success", JBool false);
                            ("Detection Accuracy", JStr "Correct");
                            ("supervisor_result", JStr "Correct")]) false)
    as [HA HB]; [vm_compute; reflexivity..|].
  split.
  - destruct (BenchmarkAnalyzer.analyze_json_file _ _ _ _) as [r|] eqn:Hr;
      [|vm_compute in Hr; discriminate].
    simpl. f_equal. by apply (HA true).
  - destruct (AnalyzeBenchmarkResults.normalize _ _) as [c|] eqn:Hc;
      [|vm_compute in Hc; discriminate].
    simpl. f_equal. by apply HB.
Defined.

Lemma eq_str_spec (v : json) (s : string) : eq_str v s = true ↔ v = JStr s.
Proof.
  destruct v as [| | | |t| |]; simpl; try by split.
  rewrite String.eqb_eq. split; congruence.
Qed.

Lemma get_null_str (k : string) (d : dict) (s : string) :
  get k JNull d = JStr s ↔ d !! k = Some (JStr s).
Proof. unfold get. destruct (d !! k); split; congruence. Qed.

(** C3, as the code has it.  With a ["Detection Accuracy"] field and no
    [success] key, the supervised analyzer resolves success to a boolean
    that is true exactly when ["Detection Accuracy"] is ["Correct"] and
    [supervisor_result] is present and ["Correct"]; an absent
    [supervisor_result] gives false.  A [success] key, whatever it holds,
    is copied instead. *)
Theorem detection_needs_supervisor (strftime_utc : num → option string)
    (json_file : string) (data : json) (results : dict)
    (r : BenchmarkAnalyzer.result) :
  results_of data = Some results →
  is_Some (results !! "Detection Accuracy") →
  BenchmarkAnalyzer.analyze_json_file strftime_utc json_file data true = Some r →
  (results !! "success" = None →
     (BenchmarkAnalyzer.success r = JBool true ↔
        results !! "Detection Accuracy" = Some (JStr "Correct") ∧
        results !! "supervisor_result" = Some (JStr "Correct")) ∧
     (BenchmarkAnalyzer.success r = JBool true ∨
      BenchmarkAnalyzer.success r = JBool false) ∧
     (results !! "supervisor_result" = None →
      BenchmarkAnalyzer.success r = JBool false)) ∧
  (∀ v, results !! "success" = Some v → BenchmarkAnalyzer.success r = v).
Proof.
  intros Hresults [da Hda] Hr.
  apply analyze_json_file_inv in Hr as (doc & results' & _ & Hres' & _ & -> & _).
  assert (results' = results) as -> by congruence.
  destruct (has_key_true _ _ _ Hda) as [Hkey' _].
  unfold BenchmarkAnalyzer.resolve_success. split.
  - intros Hsuccess. destruct (has_key_false _ _ Hsuccess) as [Hkey _].
    rewrite Hkey, Hkey'.
    rewrite <- !get_null_str, <- !eq_str_spec.
    destruct (eq_str (get "Detection Accuracy" JNull results) "Correct") eqn:E1.
    + destruct (eq_str (get "supervisor_result" JNull results) "Correct") eqn:E2;
        simpl.
      * split; [done|]. split; [by left|]. intros Hnone.
        apply eq_str_spec, get_null_str in E2. congruence.
      * split; [|by split; [right|]]. split; [done|]. by intros [_ ?].
    + simpl. split; [|by split; [right|]]. split; [done|]. by intros [? _].
  - intros v Hv. destruct (has_key_true _ _ _ Hv) as [Hkey Hget].
    by rewrite Hkey, Hget.
Qed.

Lemma detection_needs_supervisor_witness :
  BenchmarkAnalyzer.success <$>
    BenchmarkAnalyzer.analyze_json_file Samples.strftime_stub "a.json"
      Samples.detection_confirmed true = Some (JBool true) ∧
  BenchmarkAnalyzer.success <$>
    BenchmarkAnalyzer.analyze_json_file Samples.strftime_stub "b.json"
      Samples.detection_unsupervised true = Some (JBool false).
Proof.
  split.
  - destruct (BenchmarkAnalyzer.analyze_json_file _ _ _ _) as [r|] eqn:Hr;
      [|vm_compute in Hr; discriminate].
    simpl. f_equal.
    destruct (detection_needs_supervisor Samples.strftime_stub "a.json"
                Samples.detection_confirmed
                (list_to_map [("Detection Accuracy", JStr "Correct");
                              ("supervisor_result", JStr "Correct")]) r)
      as [Hdetect _];
      [vm_compute; reflexivity|by eexists; vm_compute|exact Hr|].
    apply Hdetect; [vm_compute; reflexivity|].
    split; vm_compute; reflexivity.
  - destruct (BenchmarkAnalyzer.analyze_json_file _ _ _ _) as [r|] eqn:Hr;
      [|vm_compute in Hr; discriminate].
    simpl. f_equal.
    destruct (detection_needs_supervisor Samples.strftime_stub "b.json"
                Samples.detection_unsupervised
                (list_to_map [("Detection Accuracy", JStr "Correct")]) r)
      as [Hdetect _];
      [vm_compute; reflexivity|by eexists; vm_compute|exact Hr|].
    apply Hdetect; vm_compute; reflexivity.
Defined.

(** C3 as stated fails on a document whose [success] field is not a
    boolean: with [success] null, ["Detection Accuracy"] correct and the
    supervisor agreeing, the stored success is [None], not [True]. *)
Lemma null_success_copied :
  (results ← results_of Samples.null_success;
   Some (results !! "success", results !! "Detection Accuracy",
         results !! "supervisor_result"))
  = Some (Some JNull, Some (JStr "Correct"), Some (JStr "Correct")) ∧
  BenchmarkAnalyzer.success <$>
    BenchmarkAnalyzer.analyze_json_file Samples.strftime_stub "a.json"
      Samples.null_success true = Some JNull.
Proof. split; vm_compute; reflexivity. Qed.

End success.

(** ** The unknown status and the summaries *)

Section unknown_status.
Import Py Document.

Lemma count_snoc (p : BenchmarkAnalyzer.result → bool)
    (df : list BenchmarkAnalyzer.result) (r : BenchmarkAnalyzer.result) :
  BenchmarkAnalyzer.count p (df ++ [r]) =
  BenchmarkAnalyzer.count p df + (if p r then 1 else 0).
Proof.
  unfold BenchmarkAnalyzer.count. rewrite filter_app, length_app.
  rewrite (filter_cons (λ r0, p r0 = true) r []), filter_nil.
  case_decide as Hp.
  - rewrite Hp. simpl. lia.
  - apply not_true_is_false in Hp. rewrite Hp. simpl. lia.
Qed.

(** The overall tallies of the second analyzer after one more case. *)
Lemma update_statistics_overall (st : AnalyzeBenchmarkResults.stats)
    (c : AnalyzeBenchmarkResults.case) :
  let st' := AnalyzeBenchmarkResults.update_statistics st c in
  let ok := truthy (AnalyzeBenchmarkResults.case_success c) in
  AnalyzeBenchmarkResults.total_cases st'
    = AnalyzeBenchmarkResults.total_cases st + 1 ∧
  AnalyzeBenchmarkResults.successful_cases st'
    = AnalyzeBenchmarkResults.successful_cases st + (if ok then 1 else 0) ∧
  AnalyzeBenchmarkResults.failed_cases st'
    = AnalyzeBenchmarkResults.failed_cases st + (if ok then 0 else 1).
Proof.
  unfold AnalyzeBenchmarkResults.update_statistics,
    AnalyzeBenchmarkResults.append_case.
  destruct (AnalyzeBenchmarkResults.hash_key _);
    repeat (match goal with
            | |- context [match ?x with
                          | AnalyzeBenchmarkResults.Done _ => _
                          | AnalyzeBenchmarkResults.Raised _ => _
                          end] => destruct x
            end);
    try destruct (AnalyzeBenchmarkResults.total_tokens c);
    simpl; destruct (truthy _); simpl; lia.
Qed.

Lemma resolve_success_no_field_A (results : dict) (sv : json) (sup : bool) :
  (∀ field, field ∈ success_fields → results !! field = None) →
  BenchmarkAnalyzer.resolve_success results sv sup = JNull.
Proof.
  intros Hnone. unfold BenchmarkAnalyzer.resolve_success, has_key.
  by rewrite !Hnone by (unfold success_fields; set_solver).
Qed.

Lemma resolve_success_no_field_B (results : dict) :
  (∀ field, field ∈ success_fields → results !! field = None) →
  AnalyzeBenchmarkResults.resolve_success results = JBool false.
Proof.
  intros Hnone. unfold AnalyzeBenchmarkResults.resolve_success, has_key.
  by rewrite !Hnone by (unfold success_fields; set_solver).
Qed.

(** C1, as the code has it.  When the results mapping holds none of the
    recognised success fields: the first analyzer leaves the success
    unknown ([None]) and its console summary counts the entry under
    "Unknown Status", not under failed nor successful; the second analyzer
    resolves the success to [False] and counts the case as failed. *)
Theorem no_success_field_unknown_or_failed (strftime_utc : num → option string)
    (json_file : string) (data : json) (results : dict) :
  results_of data = Some results →
  (∀ field, field ∈ success_fields → results !! field = None) →
  (∀ sup r,
     BenchmarkAnalyzer.analyze_json_file strftime_utc json_file data sup = Some r →
     BenchmarkAnalyzer.success r = JNull ∧
     ∀ df,
       let before := BenchmarkAnalyzer.print_summary_stats df in
       let after := BenchmarkAnalyzer.print_summary_stats (df ++ [r]) in
       BenchmarkAnalyzer.unknown_tasks after
         = BenchmarkAnalyzer.unknown_tasks before + 1 ∧
       BenchmarkAnalyzer.failed_tasks after = BenchmarkAnalyzer.failed_tasks before ∧
       BenchmarkAnalyzer.successful_tasks after
         = BenchmarkAnalyzer.successful_tasks before) ∧
  (∀ c,
     AnalyzeBenchmarkResults.normalize json_file data = Some c →
     AnalyzeBenchmarkResults.case_success c = JBool false ∧
     ∀ st,
       let st' := AnalyzeBenchmarkResults.update_statistics st c in
       AnalyzeBenchmarkResults.failed_cases st'
         = AnalyzeBenchmarkResults.failed_cases st + 1 ∧
       AnalyzeBenchmarkResults.successful_cases st'
         = AnalyzeBenchmarkResults.successful_cases st).
Proof.
  intros Hresults Hnone. split.
  - intros sup r Hr.
    apply analyze_json_file_inv in Hr as (doc & results' & _ & Hres' & _ & Hs & _).
    assert (results' = results) as -> by congruence.
    rewrite resolve_success_no_field_A in Hs by done.
    split; [done|]. intros df. simpl. rewrite !count_snoc, Hs. simpl. lia.
  - intros c Hc.
    apply normalize_inv in Hc as (doc & results' & pid & _ & Hres' & _ & _ & _ & Hs & _).
    assert (results' = results) as -> by congruence.
    rewrite resolve_success_no_field_B in Hs by done.
    split; [done|]. intros st.
    destruct (update_statistics_overall st c) as (_ & Hsucc & Hfail).
    rewrite Hs in Hsucc, Hfail. simpl in *. lia.
Qed.

Lemma no_success_field_unknown_or_failed_witness :
  BenchmarkAnalyzer.success <$>
    BenchmarkAnalyzer.analyze_json_file Samples.strftime_stub "a.json"
      Samples.empty_results true = Some JNull ∧
  AnalyzeBenchmarkResults.case_success <$>
    AnalyzeBenchmarkResults.normalize "a.json" Samples.empty_results
    = Some (JBool false).
Proof.
  destruct (no_success_field_unknown_or_failed Samples.strftime_stub "a.json"
              Samples.empty_results ∅) as [HA HB].
  - vm_compute; reflexivity.
  - intros field _. apply lookup_empty.
  - split.
    + destruct (BenchmarkAnalyzer.analyze_json_file _ _ _ _) as [r|] eqn:Hr;
        [|vm_compute in Hr; discriminate].
      simpl. f_equal. by apply (HA true).
    + destruct (AnalyzeBenchmarkResults.normalize _ _) as [c|] eqn:Hc;
        [|vm_compute in Hc; discriminate].
      simpl. f_equal. by apply HB.
Defined.

(** C1 as stated fails on the second analyzer: a document with
    [results = {}] resolves to [False] and is counted as failed. *)
Lemma empty_results_counted_failed :
  AnalyzeBenchmarkResults.case_success <$>
    AnalyzeBenchmarkResults.normalize "a.json" Samples.empty_results
    = Some (JBool false) ∧
  AnalyzeBenchmarkResults.failed_cases <$>
    AnalyzeBenchmarkResults.analyze_results [("a.json", Samples.empty_results)]
    = Some 1.
Proof. split; vm_compute; reflexivity. Qed.

End unknown_status.

(** ** Duration resolution *)

Section duration.
Import Py Document.

(** C4.  At a document whose only timing is a named duration
    ([{"results": {"TTM": 5}}]) the first analyzer stores no duration at
    all, although a named field is present, where the second analyzer
    stores that field; with a [start_time] of [0] the first analyzer
    stores no duration either, where the second one stores the difference
    of the timestamps; and at a document without any timing the second
    analyzer stores [0], where the first one stores nothing. *)
Theorem duration_at_failing_input :
  first_present duration_fields (list_to_map [("TTM", JNum 5)]) = Some (JNum 5) ∧
  BenchmarkAnalyzer.duration <$>
    BenchmarkAnalyzer.analyze_json_file Samples.strftime_stub "a.json"
      Samples.only_ttm true = Some JNull ∧
  AnalyzeBenchmarkResults.execution_time <$>
    AnalyzeBenchmarkResults.normalize "a.json" Samples.only_ttm = Some (JNum 5) ∧
  BenchmarkAnalyzer.duration <$>
    BenchmarkAnalyzer.analyze_json_file Samples.strftime_stub "c.json"
      Samples.zero_start true = Some JNull ∧
  AnalyzeBenchmarkResults.execution_time <$>
    AnalyzeBenchmarkResults.normalize "c.json" Samples.zero_start = Some (JNum 50) ∧
  BenchmarkAnalyzer.duration <$>
    BenchmarkAnalyzer.analyze_json_file Samples.strftime_stub "b.json"
      Samples.empty_results true = Some JNull ∧
  AnalyzeBenchmarkResults.execution_time <$>
    AnalyzeBenchmarkResults.normalize "b.json" Samples.empty_results = Some (JNum 0).
Proof. repeat split; vm_compute; reflexivity. Qed.

End duration.

(** ** The field-stripping utility *)

Section stripping.
Import Py Document RemoveSupervisor.

(** The loop on the two supervisor fields, by cases on their presence. *)
Lemma remove_fields_supervisor (results : dict) :
  remove_fields fields_to_remove results [] =
  (delete "supervisor_explanation" (delete "supervisor_result" results),
   filter (λ field, is_Some (results !! field)) fields_to_remove).
Proof.
  unfold fields_to_remove. cbn [remove_fields]. unfold has_key.
  rewrite !filter_cons, filter_nil.
  destruct (results !! "supervisor_result") as [v1|] eqn:H1.
  - rewrite lookup_delete_ne by done.
    destruct (results !! "supervisor_explanation") as [v2|] eqn:H2.
    + by rewrite !decide_True by (by eexists).
    + rewrite decide_True by (by eexists).
      rewrite decide_False by (by intros [? ?]).
      by rewrite (delete_id _ "supervisor_explanation")
        by (by rewrite lookup_delete_ne).
  - rewrite (delete_id _ "supervisor_result") by done.
    destruct (results !! "supervisor_explanation") as [v2|] eqn:H2.
    + rewrite decide_False by (by intros [? ?]).
      by rewrite decide_True by (by eexists).
    + rewrite !decide_False by (by intros [? ?]).
      by rewrite delete_id.
Qed.

(** The document returned by the utility, by cases on the shape of
    [data['results']]. *)
Lemma remove_supervisor_fields_unfold (data : dict) :
  remove_supervisor_fields data =
  match data !! "results" with
  | Some (JObj results) =>
      (<["results" :=
           JObj (delete "supervisor_explanation"
                   (delete "supervisor_result" results))]> data,
       filter (λ field, is_Some (results !! field)) fields_to_remove)
  | _ => (data, [])
  end.
Proof.
  unfold remove_supervisor_fields, has_key, get.
  destruct (data !! "results") as [[| | | | | |results]|]; try done.
  cbn [negb]. cbv iota. by rewrite remove_fields_supervisor.
Qed.

(** Running the utility on the document it returned changes nothing and
    reports no field. *)
Lemma remove_supervisor_fields_again (data modified_data : dict)
    (removed_fields : list string) :
  remove_supervisor_fields data = (modified_data, removed_fields) →
  remove_supervisor_fields modified_data = (modified_data, []).
Proof.
  rewrite !remove_supervisor_fields_unfold. intros Hremove.
  destruct (data !! "results") as [[| | | | | |results]|] eqn:Hres;
    injection Hremove as <- <-; rewrite ?Hres; try done.
  rewrite lookup_insert_eq, insert_insert_eq.
  rewrite !(delete_id _ "supervisor_result")
    by (by rewrite lookup_delete_ne, lookup_delete_eq).
  rewrite !(delete_id _ "supervisor_explanation") by apply lookup_delete_eq.
  f_equal. unfold fields_to_remove. rewrite !filter_cons, filter_nil.
  rewrite lookup_delete_ne, !lookup_delete_eq by done.
  by rewrite !decide_False by (by intros [? ?]).
Qed.

(** C8. The utility reports exactly the supervisor fields that the results
    dictionary held, in the order [supervisor_result],
    [supervisor_explanation] (the empty list when it held none); these are
    the fields that are gone from the returned document; and running the
    utility on its own output changes nothing and reports no field. *)
Theorem remove_supervisor_fields_idempotent (data modified_data : dict)
    (removed_fields : list string) :
  remove_supervisor_fields data = (modified_data, removed_fields) →
  remove_supervisor_fields modified_data = (modified_data, []) ∧
  removed_fields
    = filter (λ field, is_Some (results_field data field)) fields_to_remove ∧
  (∀ field, field ∈ fields_to_remove → results_field modified_data field = None) ∧
  (∀ field, field ∈ removed_fields ↔
     field ∈ fields_to_remove ∧
     is_Some (results_field data field) ∧
     results_field modified_data field = None).
Proof.
  intros Hremove. pose proof (remove_supervisor_fields_again _ _ _ Hremove) as Hagain.
  rewrite remove_supervisor_fields_unfold in Hremove.
  assert (∀ field, field ∈ fields_to_remove →
            results_field modified_data field = None) as Hgone.
  { intros field Hfield. unfold results_field.
    destruct (data !! "results") as [[| | | | | |results]|] eqn:Hres;
      injection Hremove as <- <-; rewrite ?Hres; try done.
    rewrite lookup_insert_eq.
    enum_elem Hfield; subst field.
    - by rewrite lookup_delete_ne, lookup_delete_eq.
    - by rewrite lookup_delete_eq. }
  assert (removed_fields =
            filter (λ field, is_Some (results_field data field)) fields_to_remove)
    as Hreport.
  { unfold results_field.
    destruct (data !! "results") as [[| | | | | |results]|] eqn:Hres;
      injection Hremove as <- <-; try done;
      unfold fields_to_remove; rewrite !filter_cons, filter_nil;
      by rewrite !decide_False by (by intros [? ?]). }
  split; [done|split; [done|split; [done|]]].
  intros field. rewrite Hreport, list_elem_of_filter. split.
  - intros [Hsome Hfield]. auto.
  - intros (Hfield & Hsome & _). auto.
Qed.

Lemma remove_supervisor_fields_idempotent_witness :
  (remove_supervisor_fields
     (list_to_map
        [("problem_id", JStr "pod_kill-mitigation-1");
         ("results", Samples.obj [("Mitigation Accuracy", JStr "Correct");
                                  ("supervisor_result", JStr "Correct")])])).2
  = ["supervisor_result"].
Proof.
  destruct (remove_supervisor_fields _) as [modified_data removed_fields] eqn:Hrun.
  destruct (remove_supervisor_fields_idempotent _ _ _ Hrun) as (_ & -> & _).
  vm_compute. reflexivity.
Defined.

(** A second run of [process_directory] rewrites no file that the first
    run rewrote. *)
Lemma process_file_second_pass (data modified_data : dict)
    (removed_fields : list string) :
  process_file (JObj data) = Rewritten modified_data removed_fields →
  process_file (JObj modified_data) = NothingToRemove.
Proof.
  unfold process_file, has_key, get.
  destruct (data !! "problem_id") as [[| | | |problem_id| |]|] eqn:Hid; try done.
  simpl. destruct (is_detection_task problem_id) eqn:Hdet; [done|].
  destruct (remove_supervisor_fields data) as [m removed] eqn:Hrun.
  destruct removed as [|field removed]; [done|]. intros [= <- <-].
  pose proof (remove_supervisor_fields_again _ _ _ Hrun) as Hagain.
  rewrite remove_supervisor_fields_unfold in Hrun.
  assert (m !! "problem_id" = Some (JStr problem_id)) as ->.
  { destruct (data !! "results") as [[| | | | | |results]|];
      injection Hrun as <- _; try done. by rewrite lookup_insert_ne. }
  simpl. by rewrite Hdet, Hagain.
Qed.

End stripping.

(** ** The observation report *)

Section observation_report.
Import Py BenchmarkAnalyzer.

Variable series_mean series_max series_min : list json → list bool → option json.
Variable round2 to_int : json → option json.

Lemma Forall_filter_keep {A} (P Q : A → Prop) `{!∀ x, Decision (Q x)} (l : list A) :
  Forall P l → Forall P (filter Q l).
Proof.
  rewrite !Forall_forall. intros HP x Hx.
  apply list_elem_of_filter in Hx as [_ Hx]. by apply HP.
Qed.

Lemma filter_none {A} (Q : A → Prop) `{!∀ x, Decision (Q x)} (l : list A) :
  (∀ x, x ∈ l → ¬ Q x) → filter Q l = [].
Proof.
  induction l as [|a l IH]; intros Hnone; [done|].
  rewrite filter_cons, decide_False by (apply Hnone; left).
  apply IH. intros x Hx. apply Hnone. by right.
Qed.

(** A task type without entries gets the zero-filled row, and nothing is
    computed for it. *)
Lemma observation_row_empty (df : list result) (t : string) :
  task_rows df t = [] →
  observation_row series_mean series_max series_min round2 to_int df t
  = Some (empty_row t).
Proof. intros Hnone. unfold observation_row. by rewrite Hnone. Qed.

(** A computed row carries its task type. *)
Lemma observation_row_task_type (df : list result) (t : string) (row : observation) :
  observation_row series_mean series_max series_min round2 to_int df t = Some row →
  taskType row = t.
Proof.
  unfold observation_row. case_bool_decide as Hlen; [by intros [= <-]|].
  intros Hrow.
  repeat (match type of Hrow with
          | (_ ≫= _) = Some _ =>
              apply bind_Some in Hrow as (? & _ & Hrow)
          end).
  by injection Hrow as <-.
Qed.

(** C9, as the code has it.  On a frame that is not empty and on which the
    row of every task type with entries can be computed, the observation
    report has exactly one row per task type, in the order detection,
    localization, analysis, mitigation; the row of a task type with no
    entry is the zero-filled row. *)
Theorem observation_report_fixed_rows (df : list result) :
  df ≠ [] →
  (∀ t, t ∈ task_types → task_rows df t ≠ [] →
        is_Some (observation_row series_mean series_max series_min round2 to_int
                   df t)) →
  ∃ rows,
    generate_observation_csv series_mean series_max series_min round2 to_int df
      = Some rows ∧
    taskType <$> rows = ["detection"; "localization"; "analysis"; "mitigation"] ∧
    ∀ i t, task_types !! i = Some t →
           (∀ r, r ∈ df → task_type r ≠ t) →
           rows !! i = Some (empty_row t).
Proof.
  intros Hdf Hcomputed. unfold generate_observation_csv, task_types.
  assert (∀ t, t ∈ task_types → ∃ row,
            observation_row series_mean series_max series_min round2 to_int df t
              = Some row ∧
            taskType row = t ∧
            ((∀ r, r ∈ df → task_type r ≠ t) → row = empty_row t)) as Hrow.
  { intros t Ht. destruct (decide (task_rows df t = [])) as [Hnone|Hsome].
    - exists (empty_row t). split; [by apply observation_row_empty|done].
    - destruct (Hcomputed t Ht Hsome) as [row Hrow]. exists row.
      split; [done|]. split; [by apply observation_row_task_type in Hrow|].
      intros Hnone. destruct Hsome. apply filter_none.
      intros r Hr. by apply Hnone. }
  destruct (Hrow "detection") as (r1 & E1 & T1 & Z1); [set_solver|].
  destruct (Hrow "localization") as (r2 & E2 & T2 & Z2); [set_solver|].
  destruct (Hrow "analysis") as (r3 & E3 & T3 & Z3); [set_solver|].
  destruct (Hrow "mitigation") as (r4 & E4 & T4 & Z4); [set_solver|].
  exists [r1; r2; r3; r4]. split; [|split].
  - destruct df; [done|]. cbn [mapM]. by rewrite E1, E2, E3, E4.
  - cbn. by rewrite T1, T2, T3, T4.
  - intros i t Hi Hnone.
    destruct i as [|[|[|[|i]]]]; cbn in Hi; try done;
      injection Hi as <-; cbn; f_equal; auto.
Qed.

End observation_report.

Lemma observation_report_fixed_rows_witness :
  ∃ rows,
    Samples.observation_report Samples.frame = Some rows ∧
    BenchmarkAnalyzer.taskType <$> rows
      = ["detection"; "localization"; "analysis"; "mitigation"] ∧
    rows !! 1%nat = Some (BenchmarkAnalyzer.empty_row "localization") ∧
    rows !! 2%nat = Some (BenchmarkAnalyzer.empty_row "analysis").
Proof.
  destruct (observation_report_fixed_rows
              Samples.mean_stub Samples.max_stub Samples.min_stub
              Samples.round2_stub Samples.to_int_stub Samples.frame)
    as (rows & Hrows & Htypes & Hzero).
  - intros Hframe. vm_compute in Hframe. discriminate.
  - intros t Ht _. unfold BenchmarkAnalyzer.task_types in Ht.
    enum_elem Ht; subst t; vm_compute; by eexists.
  - exists rows. split; [done|]. split; [done|]. split.
    + apply Hzero; [reflexivity|]. intros r Hr. vm_compute in Hr.
      enum_elem Hr; subst r; discriminate.
    + apply Hzero; [reflexivity|]. intros r Hr. vm_compute in Hr.
      enum_elem Hr; subst r; discriminate.
Defined.

(** C9 as stated fails where the function raises: on the frame of an empty
    list of entries, which has no [task_type] column, and on a frame with a
    cell the reductions do not accept, no row is produced at all. *)
Lemma observation_report_raises :
  Samples.observation_report [] = None ∧
  Samples.observation_report
    (BenchmarkAnalyzer.analyze_json_files Samples.strftime_stub
       [("a.json", Samples.steps_not_available)] true) = None.
Proof. split; vm_compute; reflexivity. Qed.

(** ** Aggregation *)

Section aggregation.
Import Py AnalyzeBenchmarkResults Contribution Cases.

(** A left fold whose steps commute does not depend on the order of the
    list. *)
Lemma fold_left_permutation {A B} (f : A → B → A) (l l' : list B) :
  (∀ a x y, f (f a x) y = f (f a y) x) →
  l ≡ₚ l' → ∀ a, fold_left f l a = fold_left f l' a.
Proof.
  intros Hcomm Hperm.
  induction Hperm as [|x l l' _ IH|x y l|l l' l'' _ IH1 _ IH2]; intros a; simpl.
  - done.
  - apply IH.
  - by rewrite Hcomm.
  - by rewrite IH1, IH2.
Qed.

Lemma amount_add_0_r (a : amount) : amount_add a (Some 0) = a.
Proof. destruct a as [x|]; simpl; [f_equal; lia|done]. Qed.

Lemma amount_add_swap (a d1 d2 : amount) :
  amount_add (amount_add a d1) d2 = amount_add (amount_add a d2) d1.
Proof. destruct a, d1, d2; simpl; try done. f_equal; lia. Qed.

Lemma tally_add_swap (g d1 d2 : tally) :
  tally_add (tally_add g d1) d2 = tally_add (tally_add g d2) d1.
Proof.
  unfold tally_add. simpl. f_equal; try lia; apply amount_add_swap.
Qed.

Lemma bump_comm `{Countable K} (k1 k2 : K) (d1 d2 : tally) (table : gmap K tally) :
  bump k2 d2 (bump k1 d1 table) = bump k1 d1 (bump k2 d2 table).
Proof.
  unfold bump. destruct (decide (k1 = k2)) as [->|Hne].
  - rewrite !lookup_insert_eq, !insert_insert_eq. simpl.
    by rewrite tally_add_swap.
  - rewrite !lookup_insert_ne by done. by apply insert_insert_ne.
Qed.

(** *** One addition *)

Lemma magnitude_nonneg (v : json) : 0 ≤ magnitude v.
Proof. unfold magnitude. destruct (as_num v) as [[z|f]|]; lia. Qed.

Lemma case_magnitude_nonneg (c : case) : 0 ≤ case_magnitude c.
Proof.
  unfold case_magnitude.
  pose proof (magnitude_nonneg (in_tokens c)).
  pose proof (magnitude_nonneg (out_tokens c)).
  pose proof (magnitude_nonneg (execution_time c)). lia.
Qed.

Lemma mass_nonneg (cases : list case) : 0 ≤ mass cases.
Proof.
  induction cases as [|c cases IH]; simpl; [lia|].
  pose proof (case_magnitude_nonneg c). lia.
Qed.

Lemma mass_permutation (cases cases' : list case) :
  cases ≡ₚ cases' → mass cases = mass cases'.
Proof.
  induction 1 as [|x l l' _ IH|x y l|l l' l'' _ IH1 _ IH2]; simpl; lia.
Qed.

Lemma within_le (b b' : Z) (n : num) : b ≤ b' → within b n → within b' n.
Proof. destruct n; simpl; [lia|done]. Qed.

(** An integer below the limit converts to a float. *)
Lemma float_of_Z_is_Some (z : Z) :
  Z.abs z < float_limit → is_Some (float_of_Z z).
Proof.
  intros Hz. unfold float_of_Z.
  destruct (Z.ltb_spec (Z.abs z) float_limit); [by eexists|lia].
Qed.

(** The addition of two numbers raises only on an integer beyond the
    limit; the amount of the sum is the sum of the amounts. *)
Lemma add_within (acc n : num) (b m : Z) :
  0 ≤ b → within b acc → within m n → b + m < float_limit → 0 ≤ m →
  ∃ acc', PyNum.add acc n = Some acc' ∧
          amount_of acc' = amount_add (amount_of acc) (amount_of n) ∧
          within (b + m) acc'.
Proof.
  intros Hb Hacc Hn Hlim Hm. destruct acc as [z|f], n as [y|g]; simpl in *.
  - eexists. split; [done|]. split; [done|]. simpl. lia.
  - destruct (float_of_Z_is_Some z) as [x Hx]; [lia|].
    unfold PyNum.add, to_float. rewrite Hx. simpl. by eexists.
  - destruct (float_of_Z_is_Some y) as [x Hx]; [lia|].
    unfold PyNum.add, to_float. rewrite Hx. simpl. by eexists.
  - by eexists.
Qed.

Lemma as_num_within (v : json) (n : num) :
  as_num v = Some n → within (magnitude v) n.
Proof.
  intros Hn. unfold magnitude. rewrite Hn. destruct n; simpl; [lia|done].
Qed.

(** [acc += v] raises exactly when [v] is no number, as long as no integer
    is beyond the limit. *)
Lemma accumulate_within (acc : num) (v : json) (b m : Z) :
  0 ≤ b → within b acc → magnitude v ≤ m → b + m < float_limit →
  match as_num v with
  | None => accumulate acc v = None
  | Some n =>
      ∃ acc', accumulate acc v = Some acc' ∧
              amount_of acc' = amount_add (amount_of acc) (amount_of n) ∧
              within (b + m) acc'
  end.
Proof.
  intros Hb Hacc Hv Hlim. unfold accumulate.
  destruct (as_num v) as [n|] eqn:Hn; [|done]. simpl.
  pose proof (magnitude_nonneg v).
  apply (add_within acc n b m); try done; [|lia].
  eapply within_le; [exact Hv|]. by apply as_num_within.
Qed.

(** *** One block *)

Lemma table_within_le `{Countable K} (b b' : Z) (table : gmap K group) :
  b ≤ b' → table_within b table → table_within b' table.
Proof.
  intros Hle Htable k g Hk. destruct (Htable k g Hk) as (? & ? & ?).
  split; [|split]; by eapply within_le.
Qed.

(** A block adds the increment of the case to the tally of its key, and
    ends normally exactly when the three quantities are numbers. *)
Lemma update_group_tally `{Countable K} (table : gmap K group) (k : K) (c : case)
    (b : Z) :
  0 ≤ b → table_within b table → b + case_magnitude c < float_limit →
  ∃ table',
    update_group table k c = (if completes c then Done table' else Raised table') ∧
    tally_of <$> table' = bump k (delta c) (tally_of <$> table) ∧
    table_within (b + case_magnitude c) table'.
Proof.
  intros Hb Htable Hlim.
  pose proof (magnitude_nonneg (in_tokens c)) as Hmi.
  pose proof (magnitude_nonneg (out_tokens c)) as Hmo.
  pose proof (magnitude_nonneg (execution_time c)) as Hmt.
  set (m := case_magnitude c) in *.
  assert (magnitude (in_tokens c) ≤ m ∧ magnitude (out_tokens c) ≤ m ∧
          magnitude (execution_time c) ≤ m) as (Hi & Ho & Ht)
    by (unfold m, case_magnitude; lia).
  unfold update_group, completes, delta, bump.
  set (g0 := default group_zero (table !! k)).
  assert (within b (tokens_in g0) ∧ within b (tokens_out g0) ∧
          within b (total_time g0)) as (Wi & Wo & Wt).
  { unfold g0. destruct (table !! k) as [g|] eqn:Hk; [by apply (Htable k)|].
    simpl. lia. }
  assert (default tally_zero ((tally_of <$> table) !! k) = tally_of g0) as ->.
  { rewrite lookup_fmap. unfold g0. by destruct (table !! k). }
  assert (∀ g, within (b + m) (tokens_in g) → within (b + m) (tokens_out g) →
               within (b + m) (total_time g) →
               table_within (b + m) (<[k := g]> table)) as Hinsert.
  { intros g ? ? ?. apply map_Forall_insert_2; [done|].
    apply (table_within_le b); [lia|done]. }
  assert (b ≤ b + m) as Hle by lia.
  pose proof (accumulate_within (tokens_in g0) (in_tokens c) b m Hb Wi Hi Hlim) as Ain.
  pose proof (accumulate_within (tokens_out g0) (out_tokens c) b m Hb Wo Ho Hlim)
    as Aout.
  pose proof (accumulate_within (total_time g0) (execution_time c) b m Hb Wt Ht Hlim)
    as Atime.
  assert (∀ ok, tokens_in (count_case ok g0) = tokens_in g0 ∧
                tokens_out (count_case ok g0) = tokens_out g0 ∧
                total_time (count_case ok g0) = total_time g0) as Hcount
    by (by intros []).
  destruct (Hcount (truthy (case_success c))) as (Ci & Co & Ct).
  rewrite Ci.
  destruct (as_num (in_tokens c)) as [n_in|].
  2: { rewrite Ain. eexists. split; [done|]. split.
       - rewrite fmap_insert. f_equal. unfold tally_of, tally_add. simpl.
         rewrite Ci, Co, Ct, !amount_add_0_r.
         destruct (truthy (case_success c)); simpl; f_equal; lia.
       - apply Hinsert; rewrite ?Ci, ?Co, ?Ct; by eapply within_le. }
  destruct Ain as (a_in & -> & Ein & Win). cbn [set_tokens_in tokens_out]. rewrite Co.
  destruct (as_num (out_tokens c)) as [n_out|].
  2: { rewrite Aout. eexists. split; [done|]. split.
       - rewrite fmap_insert. f_equal. unfold tally_of, tally_add. simpl.
         rewrite Co, Ct, Ein, !amount_add_0_r.
         destruct (truthy (case_success c)); simpl; f_equal; lia.
       - apply Hinsert; simpl; rewrite ?Co, ?Ct; [done|by eapply within_le..]. }
  destruct Aout as (a_out & -> & Eout & Wout).
  cbn [set_tokens_out set_tokens_in total_time]. rewrite Ct.
  destruct (as_num (execution_time c)) as [n_time|].
  2: { rewrite Atime. eexists. split; [done|]. split.
       - rewrite fmap_insert. f_equal. unfold tally_of, tally_add. simpl.
         rewrite Ct, Ein, Eout, !amount_add_0_r.
         destruct (truthy (case_success c)); simpl; f_equal; lia.
       - apply Hinsert; simpl; rewrite ?Ct; [done..|by eapply within_le]. }
  destruct Atime as (a_time & -> & Etime & Wtime).
  eexists. split; [done|]. split.
  - rewrite fmap_insert. f_equal. unfold tally_of, tally_add. simpl.
    rewrite Ein, Eout, Etime.
    destruct (truthy (case_success c)); simpl; f_equal; lia.
  - by apply Hinsert.
Qed.

(** The total of the tokens of a recorded case can be formed. *)
Lemma total_tokens_is_Some (c : case) :
  completes c = true → case_magnitude c < float_limit →
  is_Some (total_tokens c).
Proof.
  unfold completes, total_tokens. intros Hc Hlim.
  pose proof (magnitude_nonneg (in_tokens c)) as Hmi.
  pose proof (magnitude_nonneg (out_tokens c)) as Hmo.
  pose proof (magnitude_nonneg (execution_time c)) as Hmt.
  unfold case_magnitude in Hlim.
  destruct (as_num (in_tokens c)) as [n_in|] eqn:Hin; [|done].
  destruct (as_num (out_tokens c)) as [n_out|] eqn:Hout; [|done]. simpl.
  destruct (add_within n_in n_out (magnitude (in_tokens c))
              (magnitude (out_tokens c))) as (t & -> & _);
    try done; try lia; by apply as_num_within.
Qed.

(** *** One case *)

Lemma stats_within_le (b b' : Z) (st : stats) :
  b ≤ b' → stats_within b st → stats_within b' st.
Proof.
  intros Hle (? & ? & ? & ?).
  split; [|split; [|split]]; by apply (table_within_le b).
Qed.

(** The effect of [update_statistics] on each accumulator. *)
Lemma update_statistics_fields (st : stats) (c : case) (b : Z) :
  0 ≤ b → stats_within b st → b + case_magnitude c < float_limit →
  let st' := update_statistics st c in
  (total_cases st', successful_cases st', failed_cases st')
    = overall_step (total_cases st, successful_cases st, failed_cases st) c ∧
  tally_of <$> by_agent st' = agent_step (tally_of <$> by_agent st) c ∧
  tally_of <$> by_problem_type st'
    = keyed_step problem_base (tally_of <$> by_problem_type st) c ∧
  tally_of <$> by_task_type st'
    = keyed_step task_type (tally_of <$> by_task_type st) c ∧
  tally_of <$> by_category st'
    = keyed_step category (tally_of <$> by_category st) c ∧
  detailed_cases st' = detailed_cases st ++ (if recorded c then [c] else []) ∧
  stats_within (b + case_magnitude c) st'.
Proof.
  intros Hb (W1 & W2 & W3 & W4) Hlim.
  pose proof (case_magnitude_nonneg c) as Hm.
  assert (stats_within (b + case_magnitude c) st) as (V1 & V2 & V3 & V4).
  { apply (stats_within_le b); [lia|done]. }
  unfold update_statistics, agent_step, keyed_step, overall_step, recorded.
  destruct (hash_key (agent c)) as [a|].
  2: { simpl. rewrite app_nil_r.
       by destruct (truthy (case_success c)). }
  cbn [by_agent by_problem_type by_task_type by_category count_overall
       set_by_agent set_by_problem_type set_by_task_type].
  destruct (update_group_tally (by_agent st) a c b Hb W1 Hlim) as (t1 & -> & E1 & U1).
  destruct (completes c) eqn:Hcompletes.
  2: { simpl. rewrite app_nil_r.
       by destruct (truthy (case_success c)). }
  cbn [by_agent by_problem_type by_task_type by_category count_overall
       set_by_agent set_by_problem_type set_by_task_type].
  destruct (update_group_tally (by_problem_type st) (problem_base c) c b Hb W2 Hlim)
    as (t2 & -> & E2 & U2).
  rewrite Hcompletes.
  cbn [by_agent by_problem_type by_task_type by_category count_overall
       set_by_agent set_by_problem_type set_by_task_type].
  destruct (update_group_tally (by_task_type st) (task_type c) c b Hb W3 Hlim)
    as (t3 & -> & E3 & U3).
  rewrite Hcompletes.
  cbn [by_agent by_problem_type by_task_type by_category count_overall
       set_by_agent set_by_problem_type set_by_task_type].
  destruct (update_group_tally (by_category st) (category c) c b Hb W4 Hlim)
    as (t4 & -> & E4 & U4).
  rewrite Hcompletes. unfold append_case.
  destruct (total_tokens_is_Some c Hcompletes) as [t ->]; [lia|].
  simpl. by destruct (truthy (case_success c)).
Qed.

(** Each accumulator of the aggregate is the fold of its own step. *)
Lemma aggregate_fields (cases : list case) (st : stats) (b : Z) :
  0 ≤ b → stats_within b st → b + mass cases < float_limit →
  let st' := aggregate cases st in
  (total_cases st', successful_cases st', failed_cases st')
    = fold_left overall_step cases
        (total_cases st, successful_cases st, failed_cases st) ∧
  tally_of <$> by_agent st' = fold_left agent_step cases (tally_of <$> by_agent st) ∧
  tally_of <$> by_problem_type st'
    = fold_left (keyed_step problem_base) cases (tally_of <$> by_problem_type st) ∧
  tally_of <$> by_task_type st'
    = fold_left (keyed_step task_type) cases (tally_of <$> by_task_type st) ∧
  tally_of <$> by_category st'
    = fold_left (keyed_step category) cases (tally_of <$> by_category st) ∧
  detailed_cases st' = detailed_cases st ++ filter (λ c, recorded c = true) cases.
Proof.
  unfold aggregate. revert st b.
  induction cases as [|c cases IH]; intros st b Hb Hst Hlim.
  { simpl. by rewrite app_nil_r. }
  cbn [fold_left]. cbn [mass foldr] in Hlim. fold (mass cases) in Hlim.
  pose proof (case_magnitude_nonneg c) as Hc.
  pose proof (mass_nonneg cases) as Hcases.
  destruct (update_statistics_fields st c b Hb Hst)
    as (H1 & H2 & H3 & H4 & H5 & H6 & Hnext); [lia|].
  cbv zeta in *. rewrite <- H1, <- H2, <- H3, <- H4, <- H5.
  destruct (IH (update_statistics st c) (b + case_magnitude c))
    as (I1 & I2 & I3 & I4 & I5 & I6); [lia|done|lia|].
  repeat split; try done.
  rewrite I6, H6, filter_cons. destruct (recorded c).
  - rewrite decide_True by done. by rewrite <- app_assoc.
  - rewrite decide_False by done. by rewrite app_nil_r.
Qed.

Lemma stats_init_within : stats_within 0 stats_init.
Proof. split; [|split; [|split]]; apply map_Forall_empty. Qed.

(** *** The order of the cases *)

Lemma agent_step_comm (table : gmap key tally) (c1 c2 : case) :
  agent_step (agent_step table c1) c2 = agent_step (agent_step table c2) c1.
Proof.
  unfold agent_step.
  destruct (hash_key (agent c1)), (hash_key (agent c2)); try done.
  apply bump_comm.
Qed.

Lemma keyed_step_comm (k : case → string) (table : gmap string tally)
    (c1 c2 : case) :
  keyed_step k (keyed_step k table c1) c2 = keyed_step k (keyed_step k table c2) c1.
Proof.
  unfold keyed_step.
  destruct (hash_key (agent c1)), (hash_key (agent c2)),
    (completes c1), (completes c2); try done.
  apply bump_comm.
Qed.

Lemma overall_step_comm (counters : Z * Z * Z) (c1 c2 : case) :
  overall_step (overall_step counters c1) c2
  = overall_step (overall_step counters c2) c1.
Proof.
  destruct counters as [[n s] f]. unfold overall_step.
  destruct (truthy (case_success c1)), (truthy (case_success c2)); done.
Qed.

(** The folds of the five steps do not depend on the order of the cases. *)
Lemma steps_permutation (cases cases' : list case) :
  cases ≡ₚ cases' →
  (∀ counters,
     fold_left overall_step cases counters = fold_left overall_step cases' counters) ∧
  (∀ table, fold_left agent_step cases table = fold_left agent_step cases' table) ∧
  (∀ k table,
     fold_left (keyed_step k) cases table = fold_left (keyed_step k) cases' table).
Proof.
  intros Hperm. split; [|split].
  - by apply fold_left_permutation; [apply overall_step_comm|].
  - by apply fold_left_permutation; [apply agent_step_comm|].
  - intros k. by apply fold_left_permutation; [apply keyed_step_comm|].
Qed.

Lemma same_amount_tally (a b : num) : amount_of a = amount_of b → same_amount a b.
Proof. destruct a, b; simpl; intros Heq; try done. by injection Heq. Qed.

(** Tables with the same tallies have the same sums. *)
Lemma same_table_tally `{Countable K} (table table' : gmap K group) :
  tally_of <$> table = tally_of <$> table' → same_table table table'.
Proof.
  intros Heq k. apply (f_equal (.!! k)) in Heq. rewrite !lookup_fmap in Heq.
  destruct (table !! k) as [g|], (table' !! k) as [g'|]; simpl in Heq; try done.
  injection Heq as ? ? ? ? ? ?.
  repeat split; try done; by apply same_amount_tally.
Qed.

(** C10, as the code has it.  As long as no integer the cases add up to is
    beyond the float range, folding a sequence of normalised cases into the
    statistics gives, for any permutation of it, the same overall counters
    and, in each table (per agent, problem type, task type and category) and
    for every key, the same counts and tallies and the same token and time
    sums up to the value of a float: a sum is the same integer in both
    orders, or a float in both. *)
Theorem aggregation_order_independent (cases cases' : list case) :
  cases ≡ₚ cases' →
  no_overflow cases →
  let s := aggregate cases stats_init in
  let s' := aggregate cases' stats_init in
  total_cases s = total_cases s' ∧
  successful_cases s = successful_cases s' ∧
  failed_cases s = failed_cases s' ∧
  same_table (by_agent s) (by_agent s') ∧
  same_table (by_problem_type s) (by_problem_type s') ∧
  same_table (by_task_type s) (by_task_type s') ∧
  same_table (by_category s) (by_category s').
Proof.
  intros Hperm Hcases. unfold no_overflow in Hcases.
  pose proof Hcases as Hcases'. rewrite (mass_permutation _ _ Hperm) in Hcases'.
  destruct (steps_permutation _ _ Hperm) as (Hoverall & Hagent & Hkeyed).
  destruct (aggregate_fields cases stats_init 0)
    as (H1 & H2 & H3 & H4 & H5 & _); [done|apply stats_init_within|lia|].
  destruct (aggregate_fields cases' stats_init 0)
    as (H1' & H2' & H3' & H4' & H5' & _); [done|apply stats_init_within|lia|].
  cbv zeta in *.
  rewrite Hoverall, <- H1' in H1. injection H1 as -> -> ->.
  rewrite Hagent, <- H2' in H2. rewrite Hkeyed, <- H3' in H3.
  rewrite Hkeyed, <- H4' in H4. rewrite Hkeyed, <- H5' in H5.
  repeat split; try done; by apply same_table_tally.
Qed.

Lemma aggregation_order_independent_witness :
  same_table
    (by_agent (aggregate [Samples.case_complete; Samples.case_partial] stats_init))
    (by_agent (aggregate [Samples.case_partial; Samples.case_complete] stats_init)).
Proof.
  apply (aggregation_order_independent
           [Samples.case_complete; Samples.case_partial]
           [Samples.case_partial; Samples.case_complete]).
  - apply perm_swap.
  - vm_compute. reflexivity.
Defined.

(** The loop over the files is the aggregation of the cases of the files
    that were not skipped. *)
Lemma process_files_aggregate (json_files : list (string * json)) (st : stats) :
  fold_left process_file json_files st
  = aggregate (omap (λ f, normalize f.1 f.2) json_files) st.
Proof.
  unfold aggregate. revert st.
  induction json_files as [|f files IH]; intros st; [done|].
  cbn [fold_left omap list_omap]. unfold process_file at 2.
  destruct (normalize f.1 f.2) as [c|]; apply IH.
Qed.

(** The statistics returned on a directory are the aggregate of the cases
    of its files. *)
Lemma analyze_results_aggregate (json_files : list (string * json)) (st : stats) :
  analyze_results json_files = Some st →
  st = aggregate (omap (λ f, normalize f.1 f.2) json_files) stats_init.
Proof.
  unfold analyze_results. intros Hst. rewrite <- process_files_aggregate.
  destruct json_files; [done|by injection Hst].
Qed.

(** The list of detailed cases, on the other hand, keeps the order of the
    files. *)
Example detailed_cases_keep_order :
  detailed_cases (aggregate [Samples.case_complete; Samples.case_complete] stats_init)
  = [Samples.case_complete; Samples.case_complete] ∧
  detailed_cases (aggregate [Samples.case_partial; Samples.case_complete] stats_init)
  = [Samples.case_complete].
Proof. split; vm_compute; reflexivity. Qed.

End aggregation.

(** C10 as stated fails on sums of floats: three runs of 0.865, 1.04 and
    1.7 seconds add up to 3.605 in this order and to 3.6050000000000004 in
    the opposite one.  And beyond the float range even the counts depend on
    the order: an integer of 1025 bits, its opposite and the float 1.5 are
    added without error in this order, all three runs being counted in the
    task-type table, whereas after the float neither integer can be added
    and only one run is counted. *)
Lemma float_time_sums_depend_on_order :
  let group_of files :=
    st ← AnalyzeBenchmarkResults.analyze_results files;
    AnalyzeBenchmarkResults.by_task_type st !! "mitigation" in
  let time_sum files := AnalyzeBenchmarkResults.total_time <$> group_of files in
  let counted files := AnalyzeBenchmarkResults.total <$> group_of files in
  time_sum Samples.float_runs = Some (PyNum.Float Samples.forward_sum) ∧
  time_sum (reverse Samples.float_runs) = Some (PyNum.Float Samples.backward_sum) ∧
  time_sum Samples.float_runs ≠ time_sum (reverse Samples.float_runs) ∧
  counted Samples.overflow_runs = Some 3 ∧
  counted (reverse Samples.overflow_runs) = Some 1.
Proof.
  cbv zeta. split; [vm_compute; reflexivity|]. split; [vm_compute; reflexivity|].
  split; [|split; vm_compute; reflexivity].
  intros Heq.
  apply (f_equal (λ sum, match sum with
                         | Some (PyNum.Float f) => Prim2SF f
                         | _ => S754_nan
                         end)) in Heq.
  vm_compute in Heq. discriminate.
Qed.

(** ** The statistics of the second analyzer *)

Section statistics.
Import Py AnalyzeBenchmarkResults Contribution Reports Cases.

(** *** Tallies *)

Lemma count_case_balanced (ok : bool) (g : group) :
  success g + failed g = total g ∧ 0 ≤ success g ∧ 0 ≤ failed g ∧ 0 ≤ total g →
  balanced (count_case ok g).
Proof. intros (? & ? & ? & ?). unfold balanced. destruct ok; simpl; lia. Qed.

(** A block leaves every group of its table balanced, however it ends. *)
Lemma update_group_balanced `{Countable K} (table : gmap K group) (k : K) (c : case) :
  map_Forall (λ _ g, balanced g) table →
  map_Forall (λ _ g, balanced g) (reached (update_group table k c)).
Proof.
  intros Htable. unfold update_group.
  set (g := count_case _ _).
  assert (balanced g) as Hg.
  { apply count_case_balanced. destruct (table !! k) as [g0|] eqn:Hk; simpl.
    - destruct (Htable k g0 Hk) as (? & ? & ? & ?). lia.
    - lia. }
  destruct (accumulate _ _); [|by apply map_Forall_insert_2].
  destruct (accumulate _ _); [|by apply map_Forall_insert_2].
  destruct (accumulate _ _); by apply map_Forall_insert_2.
Qed.

(** A block runs to its end only on three numbers. *)
Lemma update_group_done `{Countable K} (table table' : gmap K group) (k : K)
    (c : case) :
  update_group table k c = Done table' → completes c = true.
Proof.
  unfold update_group, completes, accumulate.
  destruct (as_num (in_tokens c)); simpl; [|done].
  destruct (PyNum.add _ _); [|done].
  destruct (as_num (out_tokens c)); simpl; [|done].
  destruct (PyNum.add _ _); [|done].
  destruct (as_num (execution_time c)); simpl; done.
Qed.

Lemma update_statistics_sound (st : stats) (c : case) :
  sound st → sound (update_statistics st c).
Proof.
  intros (H0 & H1 & H2 & H3 & H4).
  pose proof (update_group_balanced (by_problem_type st) (problem_base c) c H2) as B2.
  pose proof (update_group_balanced (by_task_type st) (task_type c) c H3) as B3.
  pose proof (update_group_balanced (by_category st) (category c) c H4) as B4.
  assert (successful_cases (count_overall (truthy (case_success c)) st)
          + failed_cases (count_overall (truthy (case_success c)) st)
          = total_cases (count_overall (truthy (case_success c)) st)) as H0'
    by (destruct (truthy (case_success c)); simpl; lia).
  unfold update_statistics, sound.
  destruct (hash_key (agent c)) as [a|]; [|done].
  pose proof (update_group_balanced (by_agent st) a c H1) as B1.
  cbn [by_agent by_problem_type by_task_type by_category count_overall
       set_by_agent set_by_problem_type set_by_task_type].
  destruct (update_group (by_agent st) a c) as [t1|t1]; [|done].
  cbn [by_agent by_problem_type by_task_type by_category count_overall
       set_by_agent set_by_problem_type set_by_task_type].
  destruct (update_group (by_problem_type st) _ c) as [t2|t2]; [|done].
  cbn [by_agent by_problem_type by_task_type by_category count_overall
       set_by_agent set_by_problem_type set_by_task_type].
  destruct (update_group (by_task_type st) _ c) as [t3|t3]; [|done].
  cbn [by_agent by_problem_type by_task_type by_category count_overall
       set_by_agent set_by_problem_type set_by_task_type].
  destruct (update_group (by_category st) _ c) as [t4|t4]; [|done].
  unfold append_case. by destruct (total_tokens c).
Qed.

Lemma aggregate_sound (cases : list case) (st : stats) :
  sound st → sound (aggregate cases st).
Proof.
  unfold aggregate. revert st.
  induction cases as [|c cases IH]; intros st Hst; [done|].
  simpl. by apply IH, update_statistics_sound.
Qed.

Lemma stats_init_sound : sound stats_init.
Proof.
  split; [done|]. split; [|split; [|split]]; apply map_Forall_empty.
Qed.

(** X1. In the statistics of any directory the successful and failed cases add
    up to the total, overall and in every group of every table, and every
    group of a table counts at least one case. *)
Theorem statistics_balanced (json_files : list (string * json)) (st : stats) :
  analyze_results json_files = Some st →
  successful_cases st + failed_cases st = total_cases st ∧
  (∀ k g, by_agent st !! k = Some g → balanced g) ∧
  (∀ k g, by_problem_type st !! k = Some g → balanced g) ∧
  (∀ k g, by_task_type st !! k = Some g → balanced g) ∧
  (∀ k g, by_category st !! k = Some g → balanced g).
Proof.
  intros Hst. apply analyze_results_aggregate in Hst as ->.
  apply (aggregate_sound _ _ stats_init_sound).
Qed.

Lemma statistics_balanced_witness :
  ∃ st, analyze_results [("a.json", Samples.timed); ("b.json", Samples.empty_results)]
        = Some st ∧
        successful_cases st + failed_cases st = total_cases st.
Proof.
  eexists. split; [reflexivity|].
  apply (statistics_balanced
           [("a.json", Samples.timed); ("b.json", Samples.empty_results)]).
  reflexivity.
Defined.

(** *** Counts *)

Lemma overall_steps_count (cases : list case) (n s f : Z) :
  fold_left overall_step cases (n, s, f) =
  (n + Z.of_nat (length cases),
   s + Z.of_nat (length (filter (λ c, truthy (case_success c) = true) cases)),
   f + Z.of_nat (length (filter (λ c, truthy (case_success c) = false) cases))).
Proof.
  revert n s f. induction cases as [|c cases IH]; intros n s f.
  - simpl. repeat (apply pair_equal_spec; split); lia.
  - cbn [fold_left]. rewrite !filter_cons. unfold overall_step at 2.
    destruct (truthy (case_success c)) eqn:Hc.
    + rewrite decide_True, decide_False by done. rewrite IH.
      cbn [length]. repeat (apply pair_equal_spec; split); lia.
    + rewrite decide_False, decide_True by done. rewrite IH.
      cbn [length]. repeat (apply pair_equal_spec; split); lia.
Qed.

Lemma aggregate_total_cases (cases : list case) (st : stats) :
  total_cases (aggregate cases st) = total_cases st + Z.of_nat (length cases).
Proof.
  unfold aggregate. revert st.
  induction cases as [|c cases IH]; intros st; [simpl; lia|].
  cbn [fold_left length]. rewrite IH.
  destruct (update_statistics_overall st c) as (-> & _). lia.
Qed.

(** A case gets a detail row only if its agent can be a key and its three
    quantities are numbers. *)
Lemma update_statistics_detailed (st : stats) (c : case) :
  ∃ row, detailed_cases (update_statistics st c) = detailed_cases st ++ row ∧
         (row = [] ∨ row = [c] ∧ recorded c = true).
Proof.
  unfold update_statistics, recorded.
  destruct (hash_key (agent c)) as [a|];
    [|exists []; by rewrite app_nil_r; auto].
  cbn [by_agent by_problem_type by_task_type by_category count_overall
       set_by_agent set_by_problem_type set_by_task_type].
  destruct (update_group (by_agent st) a c) as [t1|t1] eqn:E1;
    [|exists []; by rewrite app_nil_r; auto].
  apply update_group_done in E1.
  cbn [by_agent by_problem_type by_task_type by_category count_overall
       set_by_agent set_by_problem_type set_by_task_type].
  destruct (update_group (by_problem_type st) _ c) as [t2|t2];
    [|exists []; by rewrite app_nil_r; auto].
  cbn [by_agent by_problem_type by_task_type by_category count_overall
       set_by_agent set_by_problem_type set_by_task_type].
  destruct (update_group (by_task_type st) _ c) as [t3|t3];
    [|exists []; by rewrite app_nil_r; auto].
  cbn [by_agent by_problem_type by_task_type by_category count_overall
       set_by_agent set_by_problem_type set_by_task_type].
  destruct (update_group (by_category st) _ c) as [t4|t4];
    [|exists []; by rewrite app_nil_r; auto].
  unfold append_case. destruct (total_tokens c).
  - exists [c]. simpl. auto.
  - exists []. simpl. rewrite app_nil_r. auto.
Qed.

Lemma aggregate_detailed_sublist (cases : list case) (st : stats) :
  ∃ rows, detailed_cases (aggregate cases st) = detailed_cases st ++ rows ∧
          rows `sublist_of` filter (λ c, recorded c = true) cases.
Proof.
  unfold aggregate. revert st.
  induction cases as [|c cases IH]; intros st.
  { exists []. by rewrite app_nil_r. }
  cbn [fold_left].
  destruct (IH (update_statistics st c)) as (rows & -> & Hrows).
  destruct (update_statistics_detailed st c) as (row & -> & [->|[-> Hc]]).
  - exists rows. rewrite app_nil_r. split; [done|].
    rewrite filter_cons. destruct (decide _); [by apply sublist_cons|done].
  - exists (c :: rows). rewrite <- app_assoc. split; [done|].
    rewrite filter_cons, decide_True by done. by apply sublist_skip.
Qed.

(** X2. The total counts the files that were not skipped.  The detailed cases
    are, in the order of the files, cases whose agent can be a dictionary key
    and whose token counts and time are numbers, and all of these as long as
    no integer sum leaves the float range; a case whose update raised is
    counted but has no detail row. *)
Theorem statistics_counts (json_files : list (string * json)) (st : stats) :
  analyze_results json_files = Some st →
  let cases := omap (λ f, normalize f.1 f.2) json_files in
  total_cases st = Z.of_nat (length cases) ∧
  detailed_cases st `sublist_of` filter (λ c, recorded c = true) cases ∧
  (no_overflow cases → detailed_cases st = filter (λ c, recorded c = true) cases) ∧
  Z.of_nat (length (detailed_cases st)) ≤ total_cases st.
Proof.
  intros Hst cases. apply analyze_results_aggregate in Hst as ->. fold cases.
  rewrite aggregate_total_cases.
  destruct (aggregate_detailed_sublist cases stats_init) as (rows & Hrows & Hsub).
  simpl in Hrows. rewrite Hrows. simpl.
  split; [lia|]. split; [done|]. split.
  - intros Hcases. rewrite <- Hrows.
    destruct (aggregate_fields cases stats_init 0)
      as (_ & _ & _ & _ & _ & Hdetailed);
      [done|apply stats_init_within|unfold no_overflow in Hcases; lia|].
    by rewrite Hdetailed.
  - apply sublist_length in Hsub.
    pose proof (length_filter (λ c, recorded c = true) cases). lia.
Qed.

Lemma statistics_counts_witness :
  ∃ st, analyze_results [("a.json", Samples.timed); ("b.json", JStr "no object")]
        = Some st ∧ total_cases st = 1.
Proof.
  eexists. split; [reflexivity|].
  apply (statistics_counts [("a.json", Samples.timed); ("b.json", JStr "no object")]).
  reflexivity.
Defined.

(** Beyond the float range a detail row is lost although the values are
    numbers: after a float, an integer of 1024 bits cannot be added. *)
Example overflow_loses_detail :
  let cases :=
    omap (λ f, normalize f.1 f.2)
      [("a.json", Samples.tokens_of (JFloat 1.5));
       ("b.json", Samples.tokens_of (JNum (2 ^ 1024)))] in
  forallb recorded cases = true ∧
  length (detailed_cases (aggregate cases stats_init)) = 1%nat.
Proof. split; vm_compute; reflexivity. Qed.

(** X5. A directory whose files are all skipped still yields statistics: the
    initial, all-zero ones.  Only a directory without files yields none. *)
Theorem statistics_all_skipped (json_files : list (string * json)) :
  (analyze_results json_files = None ↔ json_files = []) ∧
  (json_files ≠ [] →
   Forall (λ f, normalize f.1 f.2 = None) json_files →
   analyze_results json_files = Some stats_init).
Proof.
  split.
  - by destruct json_files.
  - intros Hne Hskipped. destruct json_files as [|f files]; [done|].
    unfold analyze_results. f_equal.
    generalize (f :: files), Hskipped. clear. intros files Hskipped.
    induction Hskipped as [|f files Hf _ IH]; [done|].
    cbn [fold_left]. unfold process_file at 2. by rewrite Hf.
Qed.

Lemma statistics_all_skipped_witness :
  analyze_results [("a.json", JStr "no object"); ("b.json", JNull)]
  = Some stats_init.
Proof.
  apply (proj2 (statistics_all_skipped
                  [("a.json", JStr "no object"); ("b.json", JNull)])); [done|].
  repeat constructor.
Defined.

(** *** Sums *)

Lemma amount_add_0_l (a : amount) : amount_add (Some 0) a = a.
Proof. by destruct a as [x|]. Qed.

Lemma amount_add_assoc (a b c : amount) :
  amount_add a (amount_add b c) = amount_add (amount_add a b) c.
Proof. destruct a, b, c; simpl; try done. f_equal; lia. Qed.

Lemma amount_add_comm (a b : amount) : amount_add a b = amount_add b a.
Proof. destruct a, b; simpl; try done. f_equal; lia. Qed.

Lemma amount_sum_snoc {A} (f : A → amount) (l : list A) (x : A) :
  amount_sum f (l ++ [x]) = amount_add (amount_sum f l) (f x).
Proof.
  unfold amount_sum. induction l as [|y l IH]; simpl.
  - destruct (f x); simpl; [f_equal; lia|done].
  - by rewrite IH, amount_add_assoc.
Qed.

Lemma tally_count_insert `{Countable K} (field : tally → Z) (k : K) (d : tally)
    (table : gmap K tally) :
  table !! k = None →
  tally_count field (<[k := d]> table) = tally_count field table + field d.
Proof.
  intros Hk. unfold tally_count.
  rewrite map_fold_insert_L; [done| |done]. intros; lia.
Qed.

Lemma tally_amount_insert `{Countable K} (field : tally → amount) (k : K) (d : tally)
    (table : gmap K tally) :
  table !! k = None →
  tally_amount field (<[k := d]> table)
  = amount_add (tally_amount field table) (field d).
Proof.
  intros Hk. unfold tally_amount.
  rewrite map_fold_insert_L; [done| |done]. intros. apply amount_add_swap.
Qed.

(** Adding an increment to an entry adds it to the sum of the table. *)
Lemma tally_count_bump `{Countable K} (field : tally → Z) (k : K) (d : tally)
    (table : gmap K tally) :
  field tally_zero = 0 →
  (∀ g, field (tally_add g d) = field g + field d) →
  tally_count field (bump k d table) = tally_count field table + field d.
Proof.
  intros Hzero Hadd. unfold bump.
  destruct (table !! k) as [g|] eqn:Hk; simpl.
  - rewrite <- insert_delete_eq.
    rewrite tally_count_insert by apply lookup_delete_eq.
    rewrite <- (insert_delete_id table k g) at 2 by done.
    rewrite tally_count_insert by apply lookup_delete_eq.
    rewrite Hadd. lia.
  - rewrite tally_count_insert by done. rewrite Hadd, Hzero. lia.
Qed.

Lemma tally_amount_bump `{Countable K} (field : tally → amount) (k : K) (d : tally)
    (table : gmap K tally) :
  field tally_zero = Some 0 →
  (∀ g, field (tally_add g d) = amount_add (field g) (field d)) →
  tally_amount field (bump k d table)
  = amount_add (tally_amount field table) (field d).
Proof.
  intros Hzero Hadd. unfold bump.
  destruct (table !! k) as [g|] eqn:Hk; simpl.
  - rewrite <- insert_delete_eq.
    rewrite tally_amount_insert by apply lookup_delete_eq.
    rewrite <- (insert_delete_id table k g) at 2 by done.
    rewrite tally_amount_insert by apply lookup_delete_eq.
    by rewrite Hadd, amount_add_assoc.
  - rewrite tally_amount_insert by done.
    by rewrite Hadd, Hzero, amount_add_0_l.
Qed.

(** The increment of a case whose three quantities are numbers. *)
Lemma delta_completes (c : case) :
  completes c = true →
  count (delta c) = 1 ∧
  sum_in (delta c) = value_amount (in_tokens c) ∧
  sum_out (delta c) = value_amount (out_tokens c) ∧
  sum_time (delta c) = value_amount (execution_time c).
Proof.
  unfold completes, delta, value_amount.
  by destruct (as_num (in_tokens c)), (as_num (out_tokens c)),
    (as_num (execution_time c)).
Qed.

Lemma tallies_account_empty `{Countable K} :
  tallies_account (∅ : gmap K tally) [].
Proof.
  unfold tallies_account, tally_count, tally_amount. by rewrite !map_fold_empty.
Qed.

Lemma tallies_account_bump `{Countable K} (k : K) (c : case) (table : gmap K tally)
    (cases : list case) :
  completes c = true →
  tallies_account table cases →
  tallies_account (bump k (delta c) table) (cases ++ [c]).
Proof.
  intros Hc (Ht & Hin & Hout & Htime).
  destruct (delta_completes c Hc) as (Dt & Din & Dout & Dtime).
  unfold tallies_account.
  rewrite tally_count_bump by (done || (intros; unfold tally_add; simpl; lia)).
  rewrite !tally_amount_bump by done.
  rewrite length_app, !amount_sum_snoc, Ht, Hin, Hout, Htime, Dt, Din, Dout, Dtime.
  simpl. split; [lia|done].
Qed.

Lemma keyed_steps_account (k : case → string) (cases done_cases : list case)
    (table : gmap string tally) :
  tallies_account table done_cases →
  tallies_account (fold_left (keyed_step k) cases table)
    (done_cases ++ filter (λ c, recorded c = true) cases).
Proof.
  revert table done_cases.
  induction cases as [|c cases IH]; intros table done_cases Htable.
  - by rewrite app_nil_r.
  - cbn [fold_left]. rewrite filter_cons. unfold keyed_step at 2, recorded.
    destruct (hash_key (agent c)) as [a|].
    + destruct (completes c) eqn:Hc.
      * rewrite decide_True by done.
        rewrite cons_middle, (assoc_L (++)).
        apply IH. by apply tallies_account_bump.
      * rewrite decide_False by done. by apply IH.
    + rewrite decide_False by done. by apply IH.
Qed.

Lemma agent_steps_account (cases done_cases : list case) (table : gmap key tally) :
  Forall (λ c, recorded c = true) cases →
  tallies_account table done_cases →
  tallies_account (fold_left agent_step cases table) (done_cases ++ cases).
Proof.
  intros Hcases. revert table done_cases.
  induction Hcases as [|c cases Hc _ IH]; intros table done_cases Htable.
  - by rewrite app_nil_r.
  - cbn [fold_left]. unfold agent_step at 2. unfold recorded in Hc.
    destruct (hash_key (agent c)) as [a|]; [|done].
    rewrite cons_middle, (assoc_L (++)). apply IH. by apply tallies_account_bump.
Qed.

(** The sums over a table are the sums over its tallies. *)
Lemma accounts_for_tallies `{Countable K} (table : gmap K group) (cases : list case) :
  tallies_account (tally_of <$> table) cases → accounts_for table cases.
Proof.
  unfold tallies_account, accounts_for, tally_count, tally_amount, table_count,
    table_sum.
  by rewrite !map_fold_fmap.
Qed.

(** X3. As long as no integer sum leaves the float range, the problem-type,
    task-type and category tables account for exactly the detailed cases: in
    each of them the totals add up to the number of detail rows, and a token
    or time sum is the integer sum over these rows when every value is an
    integer, and a float otherwise. *)
Theorem group_tables_account (json_files : list (string * json)) (st : stats) :
  analyze_results json_files = Some st →
  no_overflow (omap (λ f, normalize f.1 f.2) json_files) →
  accounts_for (by_problem_type st) (detailed_cases st) ∧
  accounts_for (by_task_type st) (detailed_cases st) ∧
  accounts_for (by_category st) (detailed_cases st).
Proof.
  intros Hst Hcases. apply analyze_results_aggregate in Hst as ->.
  set (cases := omap _ json_files) in *. unfold no_overflow in Hcases.
  destruct (aggregate_fields cases stats_init 0)
    as (_ & _ & H3 & H4 & H5 & H6); [done|apply stats_init_within|lia|].
  cbv zeta in *. rewrite H6. simpl in *. rewrite fmap_empty in H3, H4, H5.
  split; [|split]; apply accounts_for_tallies.
  - rewrite H3. apply (keyed_steps_account _ cases [] ∅), tallies_account_empty.
  - rewrite H4. apply (keyed_steps_account _ cases [] ∅), tallies_account_empty.
  - rewrite H5. apply (keyed_steps_account _ cases [] ∅), tallies_account_empty.
Qed.

Lemma group_tables_account_witness :
  ∃ st, analyze_results [("a.json", Samples.timed); ("b.json", Samples.untimed)]
        = Some st ∧
        table_count total (by_task_type st) = 2.
Proof.
  eexists. split; [reflexivity|].
  destruct (group_tables_account
              [("a.json", Samples.timed); ("b.json", Samples.untimed)] _ eq_refl)
    as (_ & (Htotal & _) & _).
  - vm_compute. reflexivity.
  - rewrite Htotal. reflexivity.
Defined.

(** X4. When every case has a hashable agent and numeric token counts and
    time, and no integer sum leaves the float range, every case has a detail
    row and the token and time totals of the summary report, which are
    summed over the agents, are the sums over the detail rows: the same
    integer when every value is one, and a float otherwise. *)
Theorem summary_rows_account (json_files : list (string * json)) (st : stats) :
  analyze_results json_files = Some st →
  no_overflow (omap (λ f, normalize f.1 f.2) json_files) →
  Forall (λ c, recorded c = true) (omap (λ f, normalize f.1 f.2) json_files) →
  let rows := summary_rows st in
  row_total_cases rows = Z.of_nat (length (detailed_cases st)) ∧
  row_total_tokens_in rows
    = amount_sum (λ c, value_amount (in_tokens c)) (detailed_cases st) ∧
  row_total_tokens_out rows
    = amount_sum (λ c, value_amount (out_tokens c)) (detailed_cases st) ∧
  row_total_tokens rows
    = amount_sum (λ c, amount_add (value_amount (in_tokens c))
                                  (value_amount (out_tokens c)))
        (detailed_cases st) ∧
  row_total_time rows
    = amount_sum (λ c, value_amount (execution_time c)) (detailed_cases st).
Proof.
  intros Hst Hlim Hcases. apply analyze_results_aggregate in Hst as ->.
  set (cases := omap _ json_files) in *. unfold no_overflow in Hlim.
  destruct (aggregate_fields cases stats_init 0)
    as (H1 & H2 & _ & _ & _ & H6); [done|apply stats_init_within|lia|].
  pose proof (agent_steps_account cases [] ∅ Hcases tallies_account_empty) as Hacc.
  cbv zeta in *. simpl in H1, H2, H6, Hacc. rewrite fmap_empty in H2.
  rewrite <- H2 in Hacc. apply accounts_for_tallies in Hacc as (_ & Hin & Hout & Htime).
  rewrite overall_steps_count in H1. injection H1 as H1 _ _.
  unfold summary_rows. simpl. rewrite H1, Hin, Hout, Htime, H6.
  assert (filter (λ c, recorded c = true) cases = cases) as ->.
  { clear -Hcases. induction Hcases as [|c cases Hc _ IH]; [done|].
    by rewrite filter_cons, decide_True, IH by done. }
  repeat split; try lia.
  unfold amount_sum. clear. induction cases as [|c cases IH]; [done|].
  simpl. rewrite <- IH.
  destruct (value_amount (in_tokens c)), (value_amount (out_tokens c)),
    (foldr _ _ cases), (foldr _ _ cases); simpl; try done.
  f_equal. lia.
Qed.

Lemma summary_rows_account_witness :
  ∃ st, analyze_results [("a.json", Samples.timed); ("b.json", Samples.untimed)]
        = Some st ∧
        row_total_time (summary_rows st) = Some 67.
Proof.
  eexists. split; [reflexivity|].
  destruct (summary_rows_account
              [("a.json", Samples.timed); ("b.json", Samples.untimed)] _ eq_refl)
    as (_ & _ & _ & _ & ->).
  - vm_compute. reflexivity.
  - vm_compute. repeat constructor.
  - reflexivity.
Defined.

End statistics.

(** ** Which documents the analyzers accept *)

Section accepted.
Import Py Document Cases Accepted.

(** The three ways in which [a > b] does not raise. *)
Lemma gt_inv (a b : json) (r : bool) :
  gt a b = Some r →
  (∃ x y, as_num a = Some x ∧ as_num b = Some y ∧ r = PyNum.gt x y) ∨
  (∃ s t, a = JStr s ∧ b = JStr t ∧ r = String.ltb t s) ∨
  (∃ l l', a = JArr l ∧ b = JArr l').
Proof.
  destruct a, b; intros Hgt; try (right; right; by eauto);
    cbn [gt as_num] in Hgt; try discriminate; injection Hgt as <-;
    try (left; by eauto); right; left; by eauto.
Qed.

Lemma gt_num (a b : json) (x y : num) :
  as_num a = Some x → as_num b = Some y → gt a b = Some (PyNum.gt x y).
Proof.
  destruct a, b; cbn [as_num]; try discriminate; by intros [= <-] [= <-].
Qed.

Lemma sub_num (a b : json) (x y : num) :
  as_num a = Some x → as_num b = Some y → sub a b = of_num <$> PyNum.sub x y.
Proof. unfold sub. by intros -> ->. Qed.

Lemma sub_is_Some (a b : json) :
  is_Some (sub a b) → ∃ x y, as_num a = Some x ∧ as_num b = Some y.
Proof.
  unfold sub. destruct (as_num a) as [x|]; [|by intros []].
  destruct (as_num b) as [y|]; [|by intros []]. by eauto.
Qed.

Lemma resolve_execution_time_is_Some (start_time end_time ttm : json) :
  is_Some (AnalyzeBenchmarkResults.resolve_execution_time start_time end_time ttm)
  ↔ timestamps_accepted start_time end_time.
Proof.
  unfold AnalyzeBenchmarkResults.resolve_execution_time, timestamps_accepted.
  split.
  - intros Hsome.
    destruct (gt end_time start_time) as [later|] eqn:Hgt; [|by destruct Hsome].
    simpl in Hsome.
    destruct (gt_inv _ _ _ Hgt)
      as [(e & s & He & Hs & ->)|[(e & s & -> & -> & ->)|(e & s & -> & ->)]].
    + left. exists s, e. split; [done|]. split; [done|].
      intros Hlater. rewrite Hlater, (sub_num _ _ _ _ He Hs) in Hsome.
      by apply fmap_is_Some in Hsome.
    + right. left. exists s, e. split; [done|]. split; [done|].
      destruct (String.ltb s e); [|done].
      apply sub_is_Some in Hsome as (? & ? & ? & ?). discriminate.
    + right. right. exists s, e. split; [done|]. split; [done|].
      destruct later; [|done].
      apply sub_is_Some in Hsome as (? & ? & ? & ?). discriminate.
  - intros [(s & e & Hs & He & Hsub)|[(s & e & -> & -> & Hlt)|(s & e & -> & -> & Hgt)]].
    + rewrite (gt_num _ _ _ _ He Hs). simpl.
      destruct (PyNum.gt e s); [|by eexists].
      rewrite (sub_num _ _ _ _ He Hs). by apply fmap_is_Some, Hsub.
    + cbn [gt as_num]. rewrite Hlt. by eexists.
    + rewrite Hgt. by eexists.
Qed.

(** X6. The second analyzer turns a file into a case exactly when the document
    is an object, its [results] (an empty dictionary by default) is an
    object, its [problem_id] (["unknown"] by default) is a string, and its
    timestamps ([0] by default) are two numbers whose difference can be
    formed when the end is the greater, two strings with the end not after
    the start, or two lists of which the end does not compare greater. *)
Theorem normalize_accepts (json_file : string) (data : json) :
  is_Some (AnalyzeBenchmarkResults.normalize json_file data) ↔
  ∃ doc results problem_id,
    data = JObj doc ∧
    get "results" (JObj ∅) doc = JObj results ∧
    get "problem_id" (JStr "unknown") doc = JStr problem_id ∧
    timestamps_accepted (get "start_time" (JNum 0) doc) (get "end_time" (JNum 0) doc).
Proof.
  split.
  - intros [c Hc].
    pose proof Hc as Hinv.
    apply normalize_inv in Hinv
      as (doc & results & pid & -> & Hres & Hid & _ & _ & _ & _ & Ht).
    exists doc, results, pid. split; [done|].
    unfold results_of in Hres.
    destruct (get "results" (JObj ∅) doc) as [| | | | | |results'] eqn:Hr; try done.
    split; [congruence|]. split; [done|].
    eapply (proj1 (resolve_execution_time_is_Some _ _ _)). by eexists.
  - intros (doc & results & pid & -> & Hres & Hid & Ht).
    apply (proj2 (resolve_execution_time_is_Some _ _
                    (AnalyzeBenchmarkResults.resolve_ttm results))) in Ht as [t Ht].
    unfold AnalyzeBenchmarkResults.normalize. rewrite Hres, Ht, Hid. simpl.
    by destruct (AnalyzeBenchmarkResults.extract_problem_info pid).
Qed.

Lemma normalize_accepts_witness :
  is_Some (AnalyzeBenchmarkResults.normalize "a.json"
             (Samples.obj [("start_time", JArr [JNum 1]); ("end_time", JArr [JNum 0])])) ∧
  is_Some (AnalyzeBenchmarkResults.normalize "a.json"
             (Samples.obj [("start_time", JStr "b"); ("end_time", JStr "a")])) ∧
  AnalyzeBenchmarkResults.normalize "a.json"
    (Samples.obj [("start_time", JStr "a"); ("end_time", JStr "b")]) = None.
Proof.
  split; [|split].
  - apply (proj2 (normalize_accepts "a.json" _)).
    exists (list_to_map [("start_time", JArr [JNum 1]); ("end_time", JArr [JNum 0])]),
      ∅, "unknown".
    split; [reflexivity|]. split; [reflexivity|]. split; [reflexivity|].
    right. right. by exists [JNum 1], [JNum 0].
  - apply (proj2 (normalize_accepts "a.json" _)).
    exists (list_to_map [("start_time", JStr "b"); ("end_time", JStr "a")]), ∅, "unknown".
    split; [reflexivity|]. split; [reflexivity|]. split; [reflexivity|].
    right. left. by exists "b", "a".
  - apply eq_None_not_Some. intros Hsome.
    apply (proj1 (normalize_accepts "a.json" _)) in Hsome
      as (doc & results & pid & [= <-] & _ & _ &
          [(s & e & Hs & _)|[(s & e & Hs & He & Hlt)|(s & e & Hs & _)]]).
    + vm_compute in Hs. discriminate.
    + vm_compute in Hs, He. injection Hs as <-. injection He as <-. discriminate.
    + vm_compute in Hs. discriminate.
Defined.

Lemma convert_timestamp_is_Some (strftime_utc : num → option string) (v : json) :
  is_Some (BenchmarkAnalyzer.convert_timestamp_to_utc strftime_utc v)
  ↔ convertible strftime_utc v.
Proof.
  unfold BenchmarkAnalyzer.convert_timestamp_to_utc, convertible. split.
  - intros Hsome. destruct v; simpl in *;
      try (by left); try (by destruct Hsome);
      right; eexists; (split; [done|]);
      by apply fmap_is_Some in Hsome.
  - intros [->|(t & Ht & Hfmt)]; [by eexists|].
    destruct v; simpl in *; try done;
      injection Ht as <-; by apply fmap_is_Some.
Qed.

(** A timestamp that can be formatted converts to a float. *)
Lemma format_timestamp_to_float (strftime_utc : num → option string) (t : num) :
  is_Some (BenchmarkAnalyzer.format_timestamp strftime_utc t) → is_Some (to_float t).
Proof.
  destruct t as [z|f]; simpl; [|by eexists].
  unfold BenchmarkAnalyzer.fits_time_t.
  destruct (Z.leb_spec (- 2 ^ 63) z), (Z.ltb_spec z (2 ^ 63));
    simpl; try by intros [].
  intros _. apply float_of_Z_is_Some.
  apply (Z.le_lt_trans _ (2 ^ 63)); [lia|]. by vm_compute.
Qed.

Lemma resolve_duration_convertible (strftime_utc : num → option string)
    (start_time end_time : json) :
  convertible strftime_utc start_time → convertible strftime_utc end_time →
  is_Some (BenchmarkAnalyzer.resolve_duration start_time end_time).
Proof.
  unfold BenchmarkAnalyzer.resolve_duration.
  intros [->|(s & Hs & Fs)] [->|(e & He & Fe)]; simpl;
    rewrite ?andb_false_r; try by eexists.
  destruct (truthy start_time && truthy end_time); [|by eexists].
  rewrite (sub_num _ _ _ _ He Hs). apply fmap_is_Some.
  apply format_timestamp_to_float in Fs as [x Hx], Fe as [y Hy].
  destruct e, s; simpl in *; rewrite ?Hx, ?Hy; by eexists.
Qed.

Lemma extract_task_type_is_Some (problem_id : json) :
  is_Some (BenchmarkAnalyzer.extract_task_type problem_id) ↔ classifiable problem_id.
Proof.
  unfold BenchmarkAnalyzer.extract_task_type, classifiable.
  destruct (truthy problem_id) eqn:Htruthy; simpl.
  - split.
    + intros Hsome. right. destruct problem_id; try (by destruct Hsome). by eexists.
    + intros [?|[s ->]]; [done|by eexists].
  - split; [by left|by eexists].
Qed.

(** X7. The first analyzer turns a file into an entry exactly when the document
    is an object, its [results] (an empty dictionary by default) is an
    object, its [problem_id] is falsy or a string, and each timestamp is
    absent, [null], or a number the calendar formatting accepts; the
    supervisor flag plays no part. *)
Theorem analyze_json_file_accepts (strftime_utc : num → option string)
    (json_file : string) (data : json) (is_supervisor_enabled : bool) :
  is_Some (BenchmarkAnalyzer.analyze_json_file strftime_utc json_file data
             is_supervisor_enabled) ↔
  ∃ doc results,
    data = JObj doc ∧
    get "results" (JObj ∅) doc = JObj results ∧
    classifiable (get "problem_id" (JStr "") doc) ∧
    convertible strftime_utc (get "start_time" JNull doc) ∧
    convertible strftime_utc (get "end_time" JNull doc).
Proof.
  unfold BenchmarkAnalyzer.analyze_json_file. split.
  - intros Hsome. destruct data as [| | | | | |doc]; try by destruct Hsome.
    destruct (get "results" (JObj ∅) doc) as [| | | | | |results] eqn:Hres;
      try by destruct Hsome.
    exists doc, results. split; [done|]. split; [done|].
    destruct (BenchmarkAnalyzer.extract_task_type _) as [t|] eqn:Ht;
      [|by destruct Hsome].
    destruct (BenchmarkAnalyzer.resolve_duration _ _) as [d|]; [|by destruct Hsome].
    destruct (BenchmarkAnalyzer.convert_timestamp_to_utc _ (get "start_time" _ _))
      as [s|] eqn:Hs; [|by destruct Hsome].
    destruct (BenchmarkAnalyzer.convert_timestamp_to_utc _ (get "end_time" _ _))
      as [e|] eqn:He; [|by destruct Hsome].
    split; [apply extract_task_type_is_Some; by eexists|].
    split; apply convert_timestamp_is_Some; by eexists.
  - intros (doc & results & -> & Hres & Hid & Hs & He). rewrite Hres.
    apply extract_task_type_is_Some in Hid as [t ->].
    destruct (resolve_duration_convertible _ _ _ Hs He) as [d ->].
    apply convert_timestamp_is_Some in Hs as [s ->].
    apply convert_timestamp_is_Some in He as [e ->].
    by eexists.
Qed.

Lemma analyze_json_file_accepts_witness :
  is_Some (BenchmarkAnalyzer.analyze_json_file Samples.strftime_stub "a.json"
             (Samples.obj [("problem_id", JNum 0); ("start_time", JBool true)])
             true).
Proof.
  apply (proj2 (analyze_json_file_accepts Samples.strftime_stub "a.json" _ true)).
  exists (list_to_map [("problem_id", JNum 0); ("start_time", JBool true)]), ∅.
  split; [reflexivity|]. split; [reflexivity|]. split; [by left|].
  split; [right; exists (Int 1); by split; [|eexists]|by left].
Defined.

End accepted.

(** ** The entries of the first analyzer *)

Section entries.
Import Py Document Accepted BenchmarkAnalyzer.
Variable strftime_utc : num → option string.

Lemma analyze_json_files_Forall (P : result → Prop) (Q : string * json → Prop)
    (json_files : list (string * json)) (sup : bool) :
  (∀ f r, Q f → analyze_json_file strftime_utc f.1 f.2 sup = Some r → P r) →
  Forall Q json_files →
  Forall P (analyze_json_files strftime_utc json_files sup).
Proof.
  intros HP Hfiles. unfold analyze_json_files.
  induction Hfiles as [|f files Hf _ IH]; [constructor|].
  cbn [omap list_omap].
  destruct (analyze_json_file strftime_utc f.1 f.2 sup) as [r|] eqn:Hr; [|done].
  constructor; [by apply (HP f)|done].
Qed.

Lemma resolve_success_tri_state (results : dict) (sv : json) (sup : bool) :
  (∀ v, results !! "success" = Some v → ∃ b, v = JBool b) →
  tri_state (resolve_success results sv sup).
Proof.
  intros Hbool. unfold resolve_success, has_key, get, tri_state.
  destruct (results !! "success") as [v|]; [right; by apply Hbool|].
  repeat (match goal with
          | |- context [match results !! ?k with _ => _ end] =>
              destruct (results !! k)
          end);
    try destruct sup; try (right; by eexists); by left.
Qed.

(** A float is equal to at most one integer, and then is no [nan]. *)
Lemma compare_Z_float_eq (y y' : Z) (f : spec_float) :
  compare_Z_float y f = Some Eq → compare_Z_float y' f = Some Eq →
  y = y' ∧ f ≠ S754_nan.
Proof.
  unfold compare_Z_float. destruct f as [sign|sign| |sign mantissa e]; try done.
  - intros [= ->%Z.compare_eq] [= ->%Z.compare_eq]. done.
  - by destruct sign.
  - destruct (Z.leb_spec 0 e).
    + intros [= H1%Z.compare_eq] [= H2%Z.compare_eq]. split; [congruence|done].
    + intros [= H1%Z.compare_eq] [= H2%Z.compare_eq]. split; [|done].
      apply (Z.mul_reg_r _ _ (2 ^ (- e))); [|congruence].
      apply Z.pow_nonzero; lia.
Qed.

Lemma eq_float_int (f : float) (y : Z) :
  PyNum.eq (Float f) (Int y) = true → compare_Z_float y (Prim2SF f) = Some Eq.
Proof.
  unfold PyNum.eq, PyNum.compare.
  by destruct (compare_Z_float y (Prim2SF f)) as [[]|].
Qed.

(** A cell is equal to at most one of [True] and [False], and then is not
    missing. *)
Lemma cell_buckets_exclusive (v : json) :
  (cell_eq_bool v true = true →
   cell_eq_bool v false = false ∧ isna v = false) ∧
  (cell_eq_bool v false = true → isna v = false).
Proof.
  unfold cell_eq_bool, isna.
  destruct v as [|b|z|f|s|l|m]; cbn [as_num]; try done.
  - by destruct b.
  - unfold PyNum.eq, PyNum.compare.
    destruct (Z.compare_spec z 1), (Z.compare_spec z 0); try done; lia.
  - unfold isnan. split.
    + intros H1%eq_float_int. split.
      * destruct (PyNum.eq (Float f) (Int 0)) eqn:H0; [|done].
        apply eq_float_int in H0.
        by destruct (compare_Z_float_eq _ _ _ H1 H0).
      * destruct (compare_Z_float_eq _ _ _ H1 H1) as [_ Hnan].
        by destruct (Prim2SF f).
    + intros H0%eq_float_int.
      destruct (compare_Z_float_eq _ _ _ H0 H0) as [_ Hnan].
      by destruct (Prim2SF f).
Qed.

Lemma bucket_counts (df : list result) :
  let o := print_summary_stats df in
  successful_tasks o + failed_tasks o + unknown_tasks o ≤ total_tasks o ∧
  (Forall (λ r, tri_state (success r)) df →
   successful_tasks o + failed_tasks o + unknown_tasks o = total_tasks o).
Proof.
  unfold print_summary_stats, count. simpl.
  induction df as [|r df [IHle IHeq]]; [done|].
  rewrite !filter_cons. cbn [length].
  destruct (cell_buckets_exclusive (success r)) as [H1 H2].
  split.
  - repeat case_decide; cbn [length]; try lia.
    all: try (destruct H1 as [? ?]; [done|congruence]).
    all: try (specialize (H2 ltac:(done)); congruence).
  - intros Htri. inversion Htri as [|? ? Hr Hdf]; subst. specialize (IHeq Hdf).
    destruct Hr as [Hr|[[] Hr]]; rewrite Hr; simpl;
      repeat case_decide; try done; cbn [length]; lia.
Qed.

(** X8. The three buckets of the console summary never overlap, and on a
    corpus whose [success] fields are booleans they add up to the total:
    every entry is successful, failed or of unknown status. *)
Theorem summary_buckets (json_files : list (string * json)) (sup : bool) :
  let o := print_summary_stats (analyze_json_files strftime_utc json_files sup) in
  successful_tasks o + failed_tasks o + unknown_tasks o ≤ total_tasks o ∧
  (Forall (λ f, boolean_success f.2) json_files →
   successful_tasks o + failed_tasks o + unknown_tasks o = total_tasks o).
Proof.
  intros o.
  destruct (bucket_counts (analyze_json_files strftime_utc json_files sup))
    as [Hle Heq].
  split; [done|]. intros Hfiles. apply Heq.
  eapply analyze_json_files_Forall; [|done].
  intros f r Hf Hr. simpl in Hf.
  apply analyze_json_file_inv in Hr as (doc & results & _ & Hres & _ & -> & _).
  apply resolve_success_tri_state. intros v Hv. by apply (Hf results).
Qed.

Lemma scan_task_types_range (lowered : string) (types : list string) :
  scan_task_types lowered types ∈ "unknown" :: types.
Proof.
  induction types as [|t types IH]; simpl; [by left|].
  destruct (PyStr.contains t lowered); [by right; left|].
  apply elem_of_cons in IH as [->|IH]; [by left|by do 2 right].
Qed.

Lemma extract_task_type_range (problem_id : json) (t : string) :
  extract_task_type problem_id = Some t → t ∈ "unknown" :: task_types.
Proof.
  unfold extract_task_type. destruct (negb (truthy problem_id)).
  - intros [= <-]. by left.
  - destruct problem_id as [| | | |s| |]; try done. intros Ht.
    assert (t = scan_task_types (PyStr.lower s) task_types) as -> by congruence.
    apply scan_task_types_range.
Qed.

(** X9. The task type of every entry is one of detection, localization,
    analysis, mitigation, unknown, so that the four groups of the
    observation report and the entries of unknown type partition the
    frame. *)
Theorem task_types_partition (json_files : list (string * json)) (sup : bool) :
  let df := analyze_json_files strftime_utc json_files sup in
  let group t := length (filter (λ r, task_type r = t) df) in
  Forall (λ r, task_type r ∈ "unknown" :: task_types) df ∧
  length df = (group "unknown" + group "detection" + group "localization"
               + group "analysis" + group "mitigation")%nat.
Proof.
  intros df group.
  assert (Forall (λ r, task_type r ∈ "unknown" :: task_types) df) as Hdf.
  { apply (analyze_json_files_Forall _ (λ _, True)); [|by apply Forall_true].
    intros f r _ Hr.
    apply analyze_json_file_inv in Hr as (doc & _ & _ & _ & Ht & _).
    by apply extract_task_type_range in Ht. }
  split; [done|]. unfold group. clear group.
  induction Hdf as [|r df Hr _ IH]; [done|].
  rewrite !filter_cons. cbn [length]. rewrite IH.
  unfold task_types in Hr. enum_elem Hr; rewrite Hr;
    repeat case_decide; try done; cbn [length]; lia.
Qed.

End entries.

Lemma boolean_success_absent (data : Py.json) (results : Py.dict) :
  Document.results_of data = Some results →
  results !! "success" = None →
  Accepted.boolean_success data.
Proof. intros Hres Hnone results' v Hres' Hv. congruence. Qed.

Lemma summary_buckets_witness :
  let o := BenchmarkAnalyzer.print_summary_stats Samples.frame in
  (BenchmarkAnalyzer.successful_tasks o + BenchmarkAnalyzer.failed_tasks o
   + BenchmarkAnalyzer.unknown_tasks o = BenchmarkAnalyzer.total_tasks o).
Proof.
  apply (proj2 (summary_buckets Samples.strftime_stub
                  [("a.json", Samples.detection_confirmed);
                   ("b.json", Samples.timed); ("c.json", Samples.only_ttm)] true)).
  apply Forall_cons_2; [|apply Forall_cons_2; [|apply Forall_cons_2; [|apply Forall_nil_2]]].
  - apply (boolean_success_absent _
             (list_to_map [("Detection Accuracy", Py.JStr "Correct");
                           ("supervisor_result", Py.JStr "Correct")]));
      vm_compute; reflexivity.
  - apply (boolean_success_absent _
             (list_to_map [("TTD", Py.JNum 7); ("TTM", Py.JNum 5)]));
      vm_compute; reflexivity.
  - apply (boolean_success_absent _ (list_to_map [("TTM", Py.JNum 5)]));
      vm_compute; reflexivity.
Defined.

(** ** The two analyzers compared *)

Section agreement.
Import Py Document.

Lemma resolve_success_agree (results : dict) (sv : json) (sup : bool) :
  (∃ field, field ∈ success_fields ∧ is_Some (results !! field)) →
  is_Some (results !! "success") ∨ results !! "Detection Accuracy" = None ∨
    sup = false →
  BenchmarkAnalyzer.resolve_success results sv sup
  = AnalyzeBenchmarkResults.resolve_success results.
Proof.
  intros (field & Hfield & Hsome) Hbranch.
  unfold BenchmarkAnalyzer.resolve_success, AnalyzeBenchmarkResults.resolve_success,
    has_key.
  destruct (results !! "success") as [v|] eqn:H1; [done|].
  destruct (results !! "Detection Accuracy") as [v|] eqn:H2.
  { destruct Hbranch as [[? ?]|[?| ->]]; done. }
  destruct (results !! "Localization Accuracy") eqn:H3; [done|].
  destruct (results !! "Analysis Accuracy") eqn:H4; [done|].
  destruct (results !! "Mitigation Accuracy") eqn:H5; [done|].
  destruct (results !! "Accuracy") eqn:H6; [done|].
  unfold success_fields in Hfield.
  enum_elem Hfield; subst field; destruct Hsome as [? Hsome]; congruence.
Qed.

Lemma resolve_success_stricter (results : dict) (sv : json) (sup : bool) :
  BenchmarkAnalyzer.resolve_success results sv sup = JBool true →
  AnalyzeBenchmarkResults.resolve_success results = JBool true.
Proof.
  unfold BenchmarkAnalyzer.resolve_success, AnalyzeBenchmarkResults.resolve_success.
  destruct (has_key "success" results); [done|].
  destruct (has_key "Detection Accuracy" results).
  { destruct sup; [|done]. intros [= [H _]%andb_true_iff]. by rewrite H. }
  by repeat (match goal with |- context [has_key ?k results] =>
               destruct (has_key k results) end).
Qed.

(** X10. On a document with some recognised success field, the two analyzers
    resolve the same success, except on the supervised detection branch (no
    [success] field, a ["Detection Accuracy"] field, supervisor enabled);
    and on every document, an entry the first analyzer resolves to [True]
    is a case the second one resolves to [True]. *)
Theorem analyzers_agree_on_success (strftime_utc : num → option string)
    (json_file : string) (data : json) (sup : bool) (results : dict)
    (r : BenchmarkAnalyzer.result) (c : AnalyzeBenchmarkResults.case) :
  BenchmarkAnalyzer.analyze_json_file strftime_utc json_file data sup = Some r →
  AnalyzeBenchmarkResults.normalize json_file data = Some c →
  results_of data = Some results →
  ((∃ field, field ∈ success_fields ∧ is_Some (results !! field)) →
   is_Some (results !! "success") ∨ results !! "Detection Accuracy" = None ∨
     sup = false →
   BenchmarkAnalyzer.success r = AnalyzeBenchmarkResults.case_success c) ∧
  (BenchmarkAnalyzer.success r = JBool true →
   AnalyzeBenchmarkResults.case_success c = JBool true).
Proof.
  intros Hr Hc Hres.
  apply analyze_json_file_inv in Hr as (doc & results' & _ & Hres' & _ & -> & _).
  assert (results' = results) as -> by congruence.
  apply normalize_inv in Hc as (doc' & results' & pid & _ & Hres'' & _ & _ & _ & -> & _).
  assert (results' = results) as -> by congruence.
  split; [apply resolve_success_agree|apply resolve_success_stricter].
Qed.

Lemma analyzers_agree_on_success_witness :
  BenchmarkAnalyzer.success <$>
    BenchmarkAnalyzer.analyze_json_file Samples.strftime_stub "a.json"
      Samples.detection_confirmed true
  = AnalyzeBenchmarkResults.case_success <$>
      AnalyzeBenchmarkResults.normalize "a.json" Samples.detection_confirmed.
Proof.
  destruct (BenchmarkAnalyzer.analyze_json_file _ _ _ _) as [r|] eqn:Hr;
    [|vm_compute in Hr; discriminate].
  destruct (AnalyzeBenchmarkResults.normalize _ _) as [c|] eqn:Hc;
    [|vm_compute in Hc; discriminate].
  simpl. f_equal.
  destruct (analyzers_agree_on_success Samples.strftime_stub "a.json"
              Samples.detection_confirmed true
              (list_to_map [("Detection Accuracy", JStr "Correct");
                            ("supervisor_result", JStr "Correct")]) r c Hr Hc)
    as [_ Htrue]; [vm_compute; reflexivity|].
  assert (BenchmarkAnalyzer.success r = JBool true) as Hs.
  { vm_compute in Hr. by injection Hr as <-. }
  by rewrite Hs, (Htrue Hs).
Defined.

End agreement.

(** ** The scenarios of the specification *)

Section scenarios.
Import Py.

(** A detection confirmed by the supervisor: task type [detection],
    category [infrastructure], success [True]. *)
Example scenario_detection_confirmed :
  (λ r, (BenchmarkAnalyzer.task_type r, BenchmarkAnalyzer.success r)) <$>
    BenchmarkAnalyzer.analyze_json_file Samples.strftime_stub "a.json"
      Samples.detection_confirmed true
  = Some ("detection", JBool true) ∧
  (λ c, (AnalyzeBenchmarkResults.task_type c, AnalyzeBenchmarkResults.category c)) <$>
    AnalyzeBenchmarkResults.normalize "a.json" Samples.detection_confirmed
  = Some ("detection", "infrastructure").
Proof. split; vm_compute; reflexivity. Qed.

(** Two mitigation runs of 10 and 20 seconds, one of them successful:
    average time 15, success rate 50. *)
Example scenario_mitigation_average :
  (λ rows, (λ row, (BenchmarkAnalyzer.averageTime row,
                    BenchmarkAnalyzer.successRate row)) <$> rows !! 3%nat) <$>
    Samples.observation_report
      (BenchmarkAnalyzer.analyze_json_files Samples.strftime_stub
         [("a.json", Samples.mitigation_10); ("b.json", Samples.mitigation_20)] true)
  = Some (Some (JFloat 15, JFloat 50)).
Proof. vm_compute. reflexivity. Qed.

(** A document with [results = {}] is counted under "Unknown Status" by
    the first analyzer. *)
Example scenario_empty_results_unknown :
  BenchmarkAnalyzer.print_summary_stats
    (BenchmarkAnalyzer.analyze_json_files Samples.strftime_stub
       [("a.json", Samples.empty_results); ("b.json", Samples.mitigation_20)] true)
  = BenchmarkAnalyzer.Overall 2 0 1 1.
Proof. vm_compute. reflexivity. Qed.

End scenarios.

(** ** More on the classifiers *)

Section classifiers.
Import PyStr Py.
#[local] Arguments String.append !_ _ / : simpl nomatch.

Lemma substring_of_trans (a b c : string) :
  substring_of a b → substring_of b c → substring_of a c.
Proof.
  intros (p1 & q1 & ->) (p2 & q2 & ->).
  exists (p2 +:+ p1), (q1 +:+ q2). by rewrite !append_assoc.
Qed.

Lemma join_cons (sep p : string) (ps : list string) :
  ps ≠ [] → join sep (p :: ps) = p +:+ sep +:+ join sep ps.
Proof. by destruct ps. Qed.

Lemma join_app (sep : string) (l1 l2 : list string) :
  l1 ≠ [] → l2 ≠ [] →
  join sep (l1 ++ l2) = join sep l1 +:+ sep +:+ join sep l2.
Proof.
  intros H1 H2. induction l1 as [|p l1 IH]; [done|].
  destruct l1 as [|q l1].
  - simpl app. by rewrite join_cons.
  - rewrite <- app_comm_cons, join_cons by done.
    rewrite IH by done. rewrite (join_cons sep p (q :: l1)) by done.
    by rewrite !append_assoc.
Qed.

(** A segment of a string occurs in it. *)
Lemma segment_substring (sep : ascii) (s seg : string) :
  seg ∈ split sep s → substring_of seg s.
Proof.
  intros Hseg. apply list_elem_of_split in Hseg as (l1 & l2 & Hparts).
  pose proof (join_split sep s) as Hjoin. rewrite Hparts in Hjoin.
  rewrite <- Hjoin. set (d := String sep "").
  destruct l1 as [|a l1]; [cbn [app]|]; destruct l2 as [|b l2].
  - exists "", "". simpl. by rewrite append_nil_r.
  - exists "", (d +:+ join d (b :: l2)). by rewrite (join_cons d seg).
  - exists (join d (a :: l1) +:+ d), "".
    rewrite (join_app d (a :: l1) [seg]) by done.
    simpl join. by rewrite append_nil_r, append_assoc.
  - exists (join d (a :: l1) +:+ d), (d +:+ join d (b :: l2)).
    rewrite (join_app d (a :: l1) (seg :: b :: l2)) by done.
    rewrite (join_cons d seg) by done. by rewrite !append_assoc.
Qed.

(** X12. The parts variant B returns put the identifier back together: an
    identifier without ['-'] is returned whole with type [unknown];
    otherwise the identifier is the problem base, the task type and one more
    segment joined by ['-'] (the task type and that segment alone when
    there are two segments), and the task type holds no ['-']. *)
Theorem extract_problem_info_reassembles (problem_id base t : string) :
  AnalyzeBenchmarkResults.extract_problem_info problem_id = (base, t) →
  (mem_ascii "-" problem_id = false ∧ base = problem_id ∧ t = "unknown") ∨
  (∃ variant,
     mem_ascii "-" t = false ∧ mem_ascii "-" variant = false ∧
     ((length (split "-" problem_id) = 2%nat ∧ base = "" ∧
       problem_id = t +:+ "-" +:+ variant) ∨
      ((3 ≤ length (split "-" problem_id))%nat ∧
       problem_id = base +:+ "-" +:+ t +:+ "-" +:+ variant))).
Proof.
  intros Hinfo.
  pose proof (join_split "-" problem_id) as Hjoin.
  pose proof (split_sep_free "-" problem_id) as Hfree.
  pose proof (split_nonempty "-" problem_id) as Hne.
  destruct (decide (2 ≤ length (split "-" problem_id))%nat) as [Hlen|Hlen].
  - right. destruct (two_last _ Hlen) as (before & t' & v & Hparts).
    rewrite (extract_problem_info_parts _ _ _ _ Hparts) in Hinfo.
    injection Hinfo as <- <-. rewrite Hparts in Hjoin, Hfree |- *.
    apply Forall_app in Hfree as [_ Hfree].
    apply Forall_cons in Hfree as [Ht Hfree].
    apply Forall_cons in Hfree as [Hv _].
    exists v. split; [done|]. split; [done|].
    destruct before as [|b before].
    + left. by rewrite <- Hjoin.
    + right. rewrite length_app. cbn [length]. split; [lia|].
      rewrite <- Hjoin, join_app by done. done.
  - left. unfold AnalyzeBenchmarkResults.extract_problem_info in Hinfo.
    rewrite bool_decide_eq_false_2 in Hinfo by done. injection Hinfo as <- <-.
    destruct (split "-" problem_id) as [|s [|s' l]]; [done| |cbn in Hlen; lia].
    simpl in Hjoin. subst s. by apply Forall_cons in Hfree as [Hs _].
Qed.

Lemma extract_problem_info_reassembles_witness :
  ∃ variant,
    "k8s_target_port-detection-1" = "k8s_target_port" +:+ "-" +:+ "detection" +:+ "-" +:+ variant.
Proof.
  destruct (extract_problem_info_reassembles
              "k8s_target_port-detection-1" "k8s_target_port" "detection" eq_refl)
    as [(_ & _ & Hu)|(variant & _ & _ & [(Hlen & _)|(_ & Hid)])].
  - discriminate.
  - vm_compute in Hlen. discriminate.
  - by exists variant.
Defined.

(** X13. When variant B names one of the four task types and no earlier task
    type of the list occurs in the lowered identifier, variant A names the
    same task type. *)
Theorem variants_agree (problem_id base : string) (earlier later : list string)
    (t : string) :
  AnalyzeBenchmarkResults.extract_problem_info problem_id = (base, t) →
  BenchmarkAnalyzer.task_types = earlier ++ t :: later →
  (∀ t', t' ∈ earlier → ¬ substring_of t' (lower problem_id)) →
  BenchmarkAnalyzer.extract_task_type (JStr problem_id) = Some t.
Proof.
  intros Hinfo Htypes Hearlier.
  assert (t ∈ BenchmarkAnalyzer.task_types) as Ht by (rewrite Htypes; set_solver).
  assert (lower t = t ∧ t ≠ "unknown") as [Hlow Hknown]
    by (unfold BenchmarkAnalyzer.task_types in Ht; enum_elem Ht; by subst t).
  assert (t ∈ split "-" problem_id) as Hseg.
  { unfold AnalyzeBenchmarkResults.extract_problem_info in Hinfo.
    case_bool_decide as Hlen; [|by injection Hinfo as _ <-].
    destruct (two_last _ Hlen) as (before & t' & v & Hparts).
    rewrite Hparts in Hinfo |- *. injection Hinfo as _ Ht'.
    rewrite length_app in Ht'. cbn [length] in Ht'.
    replace (length before + 2 - 2)%nat with (length before) in Ht' by lia.
    rewrite lookup_app_r, Nat.sub_diag in Ht' by lia. simpl in Ht'. subst t'.
    apply elem_of_app. right. left. }
  apply segment_substring, substring_of_lower in Hseg. rewrite Hlow in Hseg.
  assert (problem_id ≠ "") as Hid.
  { intros ->. apply contains_spec in Hseg.
    unfold BenchmarkAnalyzer.task_types in Ht. enum_elem Ht; subst t; discriminate. }
  rewrite extract_task_type_nonempty, Htypes by done. f_equal.
  apply scan_task_types_first_match; [|by apply contains_spec].
  apply Forall_forall. intros t' Ht'. apply contains_false. by apply Hearlier.
Qed.

Lemma variants_agree_witness :
  BenchmarkAnalyzer.extract_task_type (JStr "pod_kill-localization-2")
  = Some "localization".
Proof.
  apply (variants_agree "pod_kill-localization-2" "pod_kill"
           ["detection"] ["analysis"; "mitigation"] "localization").
  - reflexivity.
  - reflexivity.
  - intros t' Ht'. apply contains_false. enum_elem Ht'; subst; reflexivity.
Defined.

Lemma scan_categories_range (problem_base : string)
    (cats : list (string * list string)) :
  AnalyzeBenchmarkResults.scan_categories problem_base cats ∈ "other" :: cats.*1.
Proof.
  induction cats as [|[c ps] cats IH]; simpl; [by left|].
  destruct (AnalyzeBenchmarkResults.scan_problems problem_base ps); [by right; left|].
  apply elem_of_cons in IH as [->|IH]; [by left|by do 2 right].
Qed.

Lemma scan_categories_other (problem_base : string)
    (cats : list (string * list string)) :
  "other" ∉ cats.*1 →
  AnalyzeBenchmarkResults.scan_categories problem_base cats = "other" →
  Forall (λ cp, AnalyzeBenchmarkResults.scan_problems problem_base cp.2 = false) cats.
Proof.
  induction cats as [|[c ps] cats IH]; simpl; intros Hother Hscan; [constructor|].
  apply not_elem_of_cons in Hother as [Hc Hother].
  destruct (AnalyzeBenchmarkResults.scan_problems problem_base ps) eqn:Hps;
    [by subst c|].
  constructor; [done|by apply IH].
Qed.

Lemma scan_problems_mono (pb pb' : string) (problems : list string) :
  substring_of pb pb' →
  AnalyzeBenchmarkResults.scan_problems pb problems = true →
  AnalyzeBenchmarkResults.scan_problems pb' problems = true.
Proof.
  intros Hsub. rewrite !scan_problems_spec. intros (kw & Hkw & Hocc).
  exists kw. split; [done|]. by apply substring_of_trans with pb.
Qed.

(** X14. The category is always one of infrastructure, application,
    operational, baseline, other; it is [other] exactly when no keyword of
    any list occurs in the problem base; and a problem base that contains a
    categorised one is categorised too. *)
Theorem categorize_problem_type_range (problem_base : string) :
  AnalyzeBenchmarkResults.categorize_problem_type problem_base
    ∈ ["other"; "infrastructure"; "application"; "operational"; "baseline"] ∧
  (AnalyzeBenchmarkResults.categorize_problem_type problem_base = "other" ↔
   ∀ c ps kw, (c, ps) ∈ AnalyzeBenchmarkResults.categories → kw ∈ ps →
              ¬ substring_of kw problem_base) ∧
  (∀ longer, substring_of problem_base longer →
     AnalyzeBenchmarkResults.categorize_problem_type problem_base ≠ "other" →
     AnalyzeBenchmarkResults.categorize_problem_type longer ≠ "other").
Proof.
  unfold AnalyzeBenchmarkResults.categorize_problem_type.
  assert ("other" ∉ AnalyzeBenchmarkResults.categories.*1) as Hother.
  { cbn. intros H. enum_elem H; discriminate. }
  split; [apply (scan_categories_range problem_base)|]. split; [split|].
  - intros Hscan c ps kw Hc Hkw Hocc.
    apply scan_categories_other in Hscan; [|done].
    rewrite Forall_forall in Hscan. specialize (Hscan (c, ps) Hc). simpl in Hscan.
    assert (AnalyzeBenchmarkResults.scan_problems problem_base ps = true)
      by (apply scan_problems_spec; eauto).
    congruence.
  - intros Hnone. by apply scan_categories_no_match, no_keyword_scan.
  - intros longer Hsub Hcat Hlonger. apply Hcat.
    apply scan_categories_other in Hlonger; [|done].
    apply scan_categories_no_match.
    eapply Forall_impl; [exact Hlonger|]. intros [c ps] Hps. simpl in *.
    destruct (AnalyzeBenchmarkResults.scan_problems problem_base ps) eqn:Hpb; [|done].
    by rewrite (scan_problems_mono _ _ _ Hsub Hpb) in Hps.
Qed.

Lemma categorize_problem_type_range_witness :
  AnalyzeBenchmarkResults.categorize_problem_type "my_network_loss_hotel" ≠ "other".
Proof.
  apply (proj2 (proj2 (categorize_problem_type_range "network_loss"))).
  - by exists "my_", "_hotel".
  - discriminate.
Defined.

End classifiers.

(** ** More on the field-stripping utility *)

Section stripping_more.
Import PyStr Py Document RemoveSupervisor StripDirectory.

Lemma search_patterns_spec (lowered : string) (patterns : list string) :
  search_patterns lowered patterns = true ↔
  ∃ p, p ∈ patterns ∧ substring_of p lowered.
Proof.
  induction patterns as [|p ps IH]; simpl.
  - split; [done|]. intros (q & Hq & _). by apply elem_of_nil in Hq.
  - destruct (contains p lowered) eqn:Hp.
    + split; [intros _|done]. exists p. split; [left|by apply contains_spec].
    + rewrite IH. apply contains_false in Hp.
      split; intros (q & Hq & Hsub); exists q.
      * split; [by right|done].
      * apply elem_of_cons in Hq as [->|Hq]; [done|by split].
Qed.

(** X15. A task is a detection task exactly when "detect" occurs in its lowered
    identifier: the pattern "detection" adds nothing to the pattern
    "detect". *)
Theorem is_detection_task_detect (problem_id : string) :
  is_detection_task problem_id = true ↔ substring_of "detect" (lower problem_id).
Proof.
  unfold is_detection_task. rewrite search_patterns_spec. split.
  - intros (p & Hp & Hsub). unfold detection_patterns in Hp.
    enum_elem Hp; subst p; [|done].
    apply substring_of_trans with "detection"; [|done]. by exists "", "ion".
  - intros Hsub. exists "detect". split; [|done].
    unfold detection_patterns. by right; left.
Qed.

Lemma is_detection_task_detect_witness :
  is_detection_task "Detector-analysis-1" = true.
Proof.
  apply (proj2 (is_detection_task_detect "Detector-analysis-1")).
  by exists "", "or-analysis-1".
Defined.

Lemma scan_task_types_detection (lowered : string) :
  BenchmarkAnalyzer.scan_task_types lowered BenchmarkAnalyzer.task_types = "detection" →
  contains "detection" lowered = true.
Proof.
  unfold BenchmarkAnalyzer.task_types. simpl.
  destruct (contains "detection" lowered); [done|].
  by repeat (match goal with |- context [contains ?k lowered] =>
               destruct (contains k lowered) end).
Qed.

(** X16. A document whose identifier the first analyzer classifies as a
    detection task is left as it is by the utility, supervisor fields
    included. *)
Theorem detection_documents_kept (json_dump : json → bool) (data : dict)
    (problem_id : string) :
  data !! "problem_id" = Some (JStr problem_id) →
  BenchmarkAnalyzer.extract_task_type (JStr problem_id) = Some "detection" →
  process_file (JObj data) = DetectionKept ∧
  process_entry json_dump (Some (JObj data)) (Counters 0 0 0)
    = (Some (JObj data), Counters 1 0 0).
Proof.
  intros Hid Htype.
  assert (is_detection_task problem_id = true) as Hdet.
  { destruct (decide (problem_id = "")) as [->|Hne]; [done|].
    rewrite extract_task_type_nonempty in Htype by done.
    injection Htype as Htype. apply scan_task_types_detection in Htype.
    unfold is_detection_task, detection_patterns. simpl. by rewrite Htype. }
  assert (process_file (JObj data) = DetectionKept) as Hkept.
  { unfold process_file, has_key, get. rewrite Hid. simpl. by rewrite Hdet. }
  split; [done|]. unfold process_entry. by rewrite Hkept.
Qed.

Lemma detection_documents_kept_witness :
  process_file Samples.detection_confirmed = DetectionKept.
Proof.
  apply (detection_documents_kept Samples.json_dump_stub
           (list_to_map
              [("problem_id", JStr "k8s_target_port-detection-1");
               ("results", Samples.obj [("Detection Accuracy", JStr "Correct");
                                        ("supervisor_result", JStr "Correct")])])
           "k8s_target_port-detection-1");
    vm_compute; reflexivity.
Defined.

(** X17. The utility touches nothing but the two supervisor fields: the other
    keys of the document and the other fields of its results are as
    before, and a document for which no field is reported is returned
    unchanged. *)
Theorem remove_supervisor_fields_frame (data modified_data : dict)
    (removed_fields : list string) :
  remove_supervisor_fields data = (modified_data, removed_fields) →
  (∀ k, k ≠ "results" → modified_data !! k = data !! k) ∧
  (∀ field, field ∉ fields_to_remove →
     results_field modified_data field = results_field data field) ∧
  (removed_fields = [] → modified_data = data).
Proof.
  rewrite remove_supervisor_fields_unfold. intros Hremove.
  destruct (data !! "results") as [[| | | | | |results]|] eqn:Hres;
    injection Hremove as <- <-; try done.
  split; [|split].
  - intros k Hk. by rewrite lookup_insert_ne.
  - intros field Hfield. unfold results_field, fields_to_remove in *.
    rewrite lookup_insert_eq, Hres.
    apply not_elem_of_cons in Hfield as [H1 Hfield].
    apply not_elem_of_cons in Hfield as [H2 _].
    by rewrite !lookup_delete_ne.
  - unfold fields_to_remove. rewrite !filter_cons, filter_nil.
    destruct (results !! "supervisor_result") eqn:H1.
    { rewrite decide_True by (by eexists). by destruct (decide _). }
    rewrite decide_False by (by intros [? ?]).
    destruct (results !! "supervisor_explanation") eqn:H2.
    { by rewrite decide_True by (by eexists). }
    intros _. rewrite !delete_id by (by rewrite ?lookup_delete_ne).
    by apply insert_id.
Qed.

Lemma remove_supervisor_fields_frame_witness :
  (remove_supervisor_fields
     (list_to_map [("problem_id", JStr "pod_kill-mitigation-1");
                   ("results", Samples.obj [("steps", JNum 3);
                                            ("supervisor_result", JStr "Correct")])])).1
    !! "problem_id" = Some (JStr "pod_kill-mitigation-1").
Proof.
  destruct (remove_supervisor_fields _) as [modified_data removed_fields] eqn:Hrun.
  destruct (remove_supervisor_fields_frame _ _ _ Hrun) as (Hkeys & _).
  simpl. rewrite Hkeys by done. vm_compute. reflexivity.
Defined.

End stripping_more.

(** ** The directory loop of the field-stripping utility *)

Section directory.
Import Py RemoveSupervisor StripDirectory.
Variable json_dump : json → bool.

Lemma process_file_Rewritten_inv (data : json) (modified_data : dict)
    (removed_fields : list string) :
  process_file data = Rewritten modified_data removed_fields →
  ∃ d, data = JObj d.
Proof.
  destruct data as [| | | |s|l|d]; simpl; try done; [| |by eexists].
  - by destruct (negb (PyStr.contains "problem_id" s)).
  - by destruct (negb (existsb _ l)).
Qed.

(** One file: the counters move by at most one each, in the order
    modified, non-detection, processed.  When the write, if any, succeeds,
    the content changes only if the file is counted as modified, and a
    second pass over the new content leaves it alone and moves the first
    two counters as the first pass did. *)
Lemma process_entry_step (content content' : option json) (n n' : counters) :
  process_entry json_dump content n = (content', n') →
  (∃ p d m, ahead n n' = (p, d, m) ∧ 0 ≤ m ≤ d ∧ d ≤ p ≤ 1 ∧
     (writable_content json_dump content →
      (m = 0 → content' = content) ∧
      ∀ k, process_entry json_dump content' k
           = (content', Counters (processed_files k + p)
                                 (non_detection_files k + d) (modified_files k)))).
Proof.
  unfold process_entry, ahead. destruct content as [data|].
  - destruct (process_file data) as [| |m r| |] eqn:Hfile.
    3: destruct (json_dump (JObj m)) eqn:Hdump.
    all: intros [= <- <-];
      cbn [processed_files non_detection_files modified_files].
    + exists 1, 0, 0. split; [repeat (apply pair_equal_spec; split); lia|].
      split; [lia|]. split; [lia|]. intros _. split; [done|].
      intros k. rewrite Hfile. do 2 f_equal; lia.
    + exists 1, 0, 0. split; [repeat (apply pair_equal_spec; split); lia|].
      split; [lia|]. split; [lia|]. intros _. split; [done|].
      intros k. rewrite Hfile. do 2 f_equal; lia.
    + exists 1, 1, 1. split; [repeat (apply pair_equal_spec; split); lia|].
      split; [lia|]. split; [lia|]. intros _. split; [done|].
      intros k. destruct (process_file_Rewritten_inv _ _ _ Hfile) as [d ->].
      rewrite (process_file_second_pass _ _ _ Hfile). do 2 f_equal; lia.
    + exists 1, 1, 0. split; [repeat (apply pair_equal_spec; split); lia|].
      split; [lia|]. split; [lia|]. intros Hwrite.
      rewrite (Hwrite data m r eq_refl Hfile) in Hdump. done.
    + exists 1, 1, 0. split; [repeat (apply pair_equal_spec; split); lia|].
      split; [lia|]. split; [lia|]. intros _. split; [done|].
      intros k. rewrite Hfile. do 2 f_equal; lia.
    + exists 1, 0, 0. split; [repeat (apply pair_equal_spec; split); lia|].
      split; [lia|]. split; [lia|]. intros _. split; [done|].
      intros k. rewrite Hfile. do 2 f_equal; lia.
  - intros [= <- <-]. exists 0, 0, 0.
    split; [repeat (apply pair_equal_spec; split); lia|].
    split; [lia|]. split; [lia|]. intros _. split; [done|].
    intros k. destruct k; simpl. do 2 f_equal; lia.
Qed.

Lemma process_entries_steps (directory directory' : list (string * option json))
    (n n' : counters) :
  process_entries json_dump directory n = (directory', n') →
  directory'.*1 = directory.*1 ∧
  (∀ name c, (name, c) ∈ directory → endswith ".json" name = false →
             (name, c) ∈ directory') ∧
  ∃ p d m, ahead n n' = (p, d, m) ∧ 0 ≤ m ≤ d ∧
    d ≤ p ≤ Z.of_nat (length (filter (λ f, endswith ".json" f.1 = true) directory)) ∧
    (writable json_dump directory →
     (m = 0 → directory' = directory) ∧
     ∀ k, process_entries json_dump directory' k
          = (directory', Counters (processed_files k + p)
                                  (non_detection_files k + d) (modified_files k))).
Proof.
  revert directory' n n'.
  induction directory as [|[name content] rest IH]; intros directory' n n'.
  - intros [= <- <-]. split; [done|]. split; [by intros ?? ?%elem_of_nil|].
    exists 0, 0, 0. unfold ahead. simpl.
    split; [repeat (apply pair_equal_spec; split); lia|].
    split; [lia|]. split; [lia|]. intros _. split; [done|].
    intros k. destruct k. simpl. do 2 f_equal; lia.
  - cbn [process_entries]. rewrite filter_cons. simpl fst.
    destruct (endswith ".json" name) eqn:Hname.
    + rewrite decide_True by done.
      destruct (process_entry json_dump content n) as [content1 n1] eqn:Hentry.
      destruct (process_entries json_dump rest n1) as [rest1 n2] eqn:Hrest.
      intros [= <- <-].
      destruct (process_entry_step _ _ _ _ Hentry)
        as (p1 & d1 & m1 & Ha1 & ? & ? & Hwritten1).
      destruct (IH _ _ _ Hrest)
        as (Hnames & Hkeep & p2 & d2 & m2 & Ha2 & ? & ? & Hwritten2).
      split; [by rewrite !fmap_cons, Hnames|]. split.
      { intros name' c' Hin Hjson.
        apply elem_of_cons in Hin as [[= -> ->]|Hin]; [congruence|].
        right. by apply Hkeep. }
      exists (p1 + p2), (d1 + d2), (m1 + m2).
      unfold ahead in *. injection Ha1 as ? ? ?. injection Ha2 as ? ? ?.
      cbn [length]. split; [repeat (apply pair_equal_spec; split); lia|].
      split; [lia|]. split; [lia|].
      intros [Hcontent Hwritable]%Forall_cons.
      destruct (Hwritten1 (Hcontent Hname)) as [Hsame1 Hagain1].
      destruct (Hwritten2 Hwritable) as [Hsame2 Hagain2]. split.
      * intros Hm. rewrite Hsame1, Hsame2 by lia. done.
      * intros k. cbn [process_entries]. rewrite Hname, Hagain1, Hagain2. simpl.
        do 2 f_equal; lia.
    + rewrite decide_False by done.
      destruct (process_entries json_dump rest n) as [rest1 n1] eqn:Hrest.
      intros [= <- <-].
      destruct (IH _ _ _ Hrest)
        as (Hnames & Hkeep & p2 & d2 & m2 & Ha2 & ? & ? & Hwritten2).
      split; [by rewrite !fmap_cons, Hnames|]. split.
      { intros name' c' Hin Hjson.
        apply elem_of_cons in Hin as [[= -> ->]|Hin]; [by left|].
        right. by apply Hkeep. }
      exists p2, d2, m2. split; [done|]. split; [done|]. split; [done|].
      intros [_ Hwritable]%Forall_cons.
      destruct (Hwritten2 Hwritable) as [Hsame2 Hagain2]. split.
      * intros Hm. by rewrite Hsame2.
      * intros k. cbn [process_entries]. by rewrite Hname, Hagain2.
Qed.

(** X18. In the summary of a directory the counters are ordered: files modified
    at most the non-detection tasks, at most the files processed, at most
    the files listed.  The file names are kept, a file whose name does not
    end in [.json] keeps its content, and when no file is counted as
    modified and no write failed, the directory is as before. *)
Theorem process_directory_counters (directory directory' : list (string * option json))
    (n : counters) :
  process_directory json_dump directory = (directory', Some n) →
  0 ≤ modified_files n ≤ non_detection_files n ∧
  non_detection_files n ≤ processed_files n ∧
  processed_files n
    ≤ Z.of_nat (length (filter (λ f, endswith ".json" f.1 = true) directory)) ∧
  directory'.*1 = directory.*1 ∧
  (∀ name c, (name, c) ∈ directory → endswith ".json" name = false →
             (name, c) ∈ directory') ∧
  (writable json_dump directory → modified_files n = 0 → directory' = directory).
Proof.
  unfold process_directory.
  destruct (filter _ directory) as [|f fs] eqn:Hlisted; [done|].
  rewrite <- Hlisted.
  destruct (process_entries json_dump directory (Counters 0 0 0)) as [d1 n1] eqn:Hrun.
  intros [= <- <-].
  destruct (process_entries_steps _ _ _ _ Hrun)
    as (Hnames & Hkeep & p & d & m & Ha & ? & ? & Hwritten).
  unfold ahead in Ha. simpl in Ha. injection Ha as ? ? ?.
  repeat split; try done; try lia.
  intros Hwritable Hm. apply (Hwritten Hwritable). lia.
Qed.

(** X19. When every write of the first run succeeded, running the utility on
    the directory it left behind counts the same files as processed and as
    non-detection tasks, modifies none, and leaves the directory as it
    is. *)
Theorem process_directory_idempotent (directory directory' : list (string * option json))
    (n : counters) :
  writable json_dump directory →
  process_directory json_dump directory = (directory', Some n) →
  process_directory json_dump directory'
  = (directory', Some (Counters (processed_files n) (non_detection_files n) 0)).
Proof.
  intros Hwritable. unfold process_directory.
  destruct (filter _ directory) as [|f fs] eqn:Hlisted; [done|].
  destruct (process_entries json_dump directory (Counters 0 0 0)) as [d1 n1] eqn:Hrun.
  intros [= <- <-].
  destruct (process_entries_steps _ _ _ _ Hrun)
    as (Hnames & _ & p & d & m & Ha & _ & _ & Hwritten).
  destruct (Hwritten Hwritable) as [_ Hagain].
  assert (filter (λ f, endswith ".json" f.1 = true) d1 ≠ []) as Hlisted'.
  { assert (f.1 ∈ directory.*1) as Hf.
    { apply list_elem_of_fmap. exists f. split; [done|].
      eapply list_elem_of_filter. rewrite Hlisted. left. }
    assert (endswith ".json" f.1 = true) as Hjson.
    { eapply (list_elem_of_filter (λ f, endswith ".json" f.1 = true)).
      rewrite Hlisted. left. }
    rewrite <- Hnames in Hf. apply list_elem_of_fmap in Hf as (f' & Hname & Hf').
    intros Hnil.
    assert (f' ∈ filter (λ f, endswith ".json" f.1 = true) d1) as Hin
      by (apply list_elem_of_filter; split; [by rewrite <- Hname|done]).
    rewrite Hnil in Hin. by apply elem_of_nil in Hin. }
  destruct (filter _ d1) as [|g gs]; [done|].
  rewrite Hagain. unfold ahead in Ha. simpl in Ha. injection Ha as ? ? ?.
  simpl. do 3 f_equal; lia.
Qed.

End directory.

Lemma process_directory_counters_witness :
  ∃ directory' n,
    StripDirectory.process_directory Samples.json_dump_stub
      [("a.json", Some Samples.timed); ("notes.txt", None)]
      = (directory', Some n) ∧
    directory'.*1 = ["a.json"; "notes.txt"].
Proof.
  destruct (StripDirectory.process_directory Samples.json_dump_stub
              [("a.json", Some Samples.timed); ("notes.txt", None)])
    as [directory' [n|]] eqn:Hrun; [|vm_compute in Hrun; discriminate].
  exists directory', n. split; [done|].
  by destruct (process_directory_counters _ _ _ _ Hrun) as (_ & _ & _ & -> & _).
Defined.

Lemma process_directory_idempotent_witness :
  ∃ directory',
    StripDirectory.process_directory Samples.json_dump_stub
      [("a.json",
        Some (Samples.obj
                [("problem_id", Py.JStr "pod_kill-mitigation-1");
                 ("results",
                  Samples.obj [("supervisor_result", Py.JStr "Correct")])]))]
    = (directory', Some (StripDirectory.Counters 1 1 1)) ∧
    StripDirectory.process_directory Samples.json_dump_stub directory'
    = (directory', Some (StripDirectory.Counters 1 1 0)).
Proof.
  destruct (StripDirectory.process_directory _ _) as [directory' [n|]] eqn:Hrun;
    [|vm_compute in Hrun; discriminate].
  exists directory'.
  assert (StripDirectory.writable Samples.json_dump_stub
            [("a.json",
              Some (Samples.obj
                      [("problem_id", Py.JStr "pod_kill-mitigation-1");
                       ("results",
                        Samples.obj [("supervisor_result", Py.JStr "Correct")])]))])
    as Hwritable.
  { apply Forall_cons_2; [|apply Forall_nil_2].
    intros _ data modified_data removed_fields [= <-] Hfile.
    vm_compute in Hfile. injection Hfile as <- _. vm_compute. reflexivity. }
  pose proof (process_directory_idempotent _ _ _ _ Hwritable Hrun) as Hagain.
  assert (n = StripDirectory.Counters 1 1 1) as ->
    by (vm_compute in Hrun; by injection Hrun).
  by split.
Defined.

(** A write that fails: the document holds a string without UTF-8 encoding.
    The file is counted as a non-detection task but not as modified, and is
    cut off; the second run cannot read it, and counts nothing. *)
Example failed_write_truncates :
  StripDirectory.process_directory Samples.json_dump_stub
    [("a.json", Some Samples.surrogate)]
  = ([("a.json", None)], Some (StripDirectory.Counters 1 1 0)) ∧
  StripDirectory.process_directory Samples.json_dump_stub [("a.json", None)]
  = ([("a.json", None)], Some (StripDirectory.Counters 0 0 0)).
Proof. split; vm_compute; reflexivity. Qed.

(** ** The conversation extractor *)

Section conversations.
Import PyStr ExtractConversations.
#[local] Arguments String.append !_ _ / : simpl nomatch.

Example processing_file_sample :
  processing_file
    ["===== prompt =====" +:+ String newline "";
     "list the pods" +:+ String newline "";
     "===== Agent (gpt) =====" +:+ String newline "";
     "```" +:+ String newline "";
     "exec_shell(" +:+ String double_quote ("kubectl get pods" +:+ String double_quote ")")
       +:+ String newline "";
     "```" +:+ String newline ""]
  = [Conversation "list the pods" "kubectl get pods"].
Proof. vm_compute. reflexivity. Qed.

(** [strip] removes the whitespace of Unicode, not only that of ASCII: a
    marker between a no-break space and a line separator is a marker. *)
Example prompt_line_unicode_space :
  prompt_line (PyStr.bytes [194; 160]%N +:+ "===== prompt ====="
               +:+ PyStr.bytes [226; 128; 168]%N +:+ String newline "") = true.
Proof. vm_compute. reflexivity. Qed.

Lemma find_agent_None (lines : list string) :
  find_agent lines = None ↔ Forall (λ l, agent_line l = false) lines.
Proof.
  unfold agent_line. induction lines as [|l lines IH]; simpl.
  - split; [constructor|done].
  - destruct (agent_match (strip l)) eqn:Hl.
    + split; [done|]. intros H. apply Forall_cons in H as [? _]. congruence.
    + rewrite IH. split; [by constructor|]. by intros [_ ?]%Forall_cons.
Qed.

Lemma find_agent_app (between rest : list string) :
  Forall (λ l, agent_line l = false) between →
  find_agent (between ++ rest) = find_agent rest.
Proof.
  unfold agent_line. induction 1 as [|l between Hl _ IH]; [done|].
  simpl. by rewrite Hl.
Qed.

Lemma processing_file_no_agent (lines : list string) :
  Forall (λ l, agent_line l = false) lines → processing_file lines = [].
Proof.
  induction 1 as [|l lines Hl Hlines IH]; [done|]. simpl.
  destruct (prompt_match (strip l)); [|done].
  by rewrite (proj2 (find_agent_None lines) Hlines).
Qed.

(** A prompt marker is not an Agent marker. *)
Lemma prompt_not_agent (l : string) : prompt_line l = true → agent_line l = false.
Proof.
  unfold prompt_line, agent_line, prompt_match, agent_match.
  intros [H|H]%orb_true_iff; apply String.eqb_eq in H; by rewrite H.
Qed.

Lemma processing_file_le (lines : list string) :
  (length (processing_file lines)
   ≤ length (filter (λ l, prompt_line l = true) lines))%nat.
Proof.
  induction lines as [|l lines IH]; [done|].
  cbn [processing_file]. destruct (prompt_match (strip l)) eqn:Hp.
  - rewrite filter_cons, decide_True by done.
    destruct (find_agent lines); cbn [length]; lia.
  - by rewrite filter_cons, decide_False by (unfold prompt_line; congruence).
Qed.

(** X20. The extractor yields one conversation for each prompt marker that
    comes before the last Agent marker: none when the file has no Agent
    marker, never more than there are prompt markers, and a prompt marker
    after the last Agent marker is dropped. *)
Theorem conversations_count (lines : list string) :
  (length (processing_file lines)
   ≤ length (filter (λ l, prompt_line l = true) lines))%nat ∧
  (Forall (λ l, agent_line l = false) lines → processing_file lines = []) ∧
  (∀ before l after,
     lines = before ++ l :: after →
     agent_line l = true →
     Forall (λ l, agent_line l = false) after →
     length (processing_file lines)
     = length (filter (λ l, prompt_line l = true) before)).
Proof.
  split; [apply processing_file_le|]. split; [apply processing_file_no_agent|].
  intros before l after -> Hl Hafter.
  induction before as [|x before IH].
  - simpl. destruct (prompt_match (strip l)) eqn:Hp.
    + apply prompt_not_agent in Hp. congruence.
    + by rewrite processing_file_no_agent.
  - simpl app. cbn [processing_file].
    destruct (prompt_match (strip x)) eqn:Hp.
    + rewrite filter_cons, decide_True by done.
      destruct (find_agent (before ++ l :: after)) as [lines_after|] eqn:Hfind.
      * cbn [length]. by rewrite IH.
      * apply find_agent_None, Forall_app in Hfind as [_ Hfind].
        apply Forall_cons in Hfind as [? _]. congruence.
    + by rewrite filter_cons, decide_False by (unfold prompt_line; congruence).
Qed.

Lemma conversations_count_witness :
  length (processing_file
            ["===== prompt ====="; "first"; "===== prompt ====="; "second";
             "===== Agent"; "answer"; "===== prompt ====="; "third"])
  = 2%nat.
Proof.
  rewrite (proj2 (proj2 (conversations_count _))
             ["===== prompt ====="; "first"; "===== prompt ====="; "second"]
             "===== Agent" ["answer"; "===== prompt ====="; "third"]).
  - reflexivity.
  - reflexivity.
  - reflexivity.
  - repeat constructor.
Defined.

(** X21. A prompt that has no Agent marker before the next prompt marker takes
    the response of that next prompt: the inner loop runs on to the first
    Agent marker, wherever it is. *)
Theorem unanswered_prompt_shares_response (p1 p2 : string)
    (between rest : list string) :
  prompt_line p1 = true → prompt_line p2 = true →
  Forall (λ l, agent_line l = false) between →
  response <$> head (processing_file (p1 :: between ++ p2 :: rest))
  = response <$> head (processing_file (p2 :: rest)).
Proof.
  unfold prompt_line. intros H1 H2 Hbetween. cbn [processing_file].
  rewrite H1, H2, find_agent_app by done.
  cbn [find_agent]. pose proof (prompt_not_agent p2 H2) as Hp2.
  unfold agent_line in Hp2. rewrite Hp2.
  destruct (find_agent rest) as [lines_after|] eqn:Hfind; [done|].
  apply find_agent_None in Hfind.
  rewrite !processing_file_no_agent; [done..|].
  apply Forall_app. split; [done|]. by constructor.
Qed.

Lemma unanswered_prompt_shares_response_witness :
  response <$> head (processing_file
                       ["===== prompt ====="; "first"; "===== prompt =====";
                        "second"; "===== Agent"; "answer"])
  = Some "answer".
Proof.
  transitivity
    (response <$> head (processing_file
                          ["===== prompt ====="; "second"; "===== Agent"; "answer"])).
  - apply (unanswered_prompt_shares_response "===== prompt =====" "===== prompt ====="
             ["first"] ["second"; "===== Agent"; "answer"]).
    + reflexivity.
    + reflexivity.
    + repeat constructor.
  - reflexivity.
Defined.

Lemma strip_prefix_app (p s : string) : strip_prefix p (p +:+ s) = Some s.
Proof.
  induction p as [|a p IH]; simpl; [by destruct s|]. by rewrite Ascii.eqb_refl.
Qed.

Lemma strip_prefix_Some (p s r : string) :
  strip_prefix p s = Some r → s = p +:+ r.
Proof.
  revert s. induction p as [|a p IH]; intros s; simpl.
  - destruct s; congruence.
  - destruct s as [|b s]; [done|].
    destruct (Ascii.eqb_spec a b) as [->|]; [|done].
    intros Hr. by rewrite (IH _ Hr).
Qed.

Lemma string_length_app (a b : string) :
  String.length (a +:+ b) = (String.length a + String.length b)%nat.
Proof. induction a as [|c a IH]; simpl; [done|by rewrite IH]. Qed.

Lemma strip_suffix_app (suffix s : string) :
  strip_suffix suffix (s +:+ suffix) = Some s.
Proof.
  induction s as [|c s IH].
  - change ("" +:+ suffix) with suffix.
    destruct suffix; cbn [strip_suffix]; by rewrite String.eqb_refl.
  - change (String c s +:+ suffix) with (String c (s +:+ suffix)).
    cbn [strip_suffix]. rewrite IH.
    destruct (String.eqb_spec (String c (s +:+ suffix)) suffix) as [Heq|]; [|done].
    apply (f_equal String.length) in Heq. simpl in Heq.
    rewrite string_length_app in Heq. lia.
Qed.

Lemma rstrip_app_newline (s : string) :
  rstrip (s +:+ String newline "") = rstrip s.
Proof. induction s as [|c s IH]; simpl; [done|]. by rewrite IH. Qed.

Lemma last_byte_app (s : string) (c : ascii) : last_byte (s +:+ String c "") = Some c.
Proof.
  induction s as [|x s IH]; [done|].
  change (String x s +:+ String c "") with (String x (s +:+ String c "")).
  cbn [last_byte]. rewrite IH. by destruct s.
Qed.

(** A string that ends with a byte no whitespace character ends with is no
    whitespace character. *)
Lemma is_space_last (s : string) (c : ascii) :
  ends_space c = false → is_space (s +:+ String c "") = false.
Proof.
  unfold ends_space, is_space. generalize whitespace. intros spaces.
  induction spaces as [|w spaces IH]; [done|]. cbn [existsb].
  intros [Hw Hspaces]%orb_false_iff. rewrite (IH Hspaces), orb_false_r.
  destruct (String.eqb_spec (s +:+ String c "") w) as [<-|]; [|done].
  rewrite last_byte_app in Hw. by rewrite bool_decide_eq_false in Hw.
Qed.

Lemma rstrip_app_nonspace (s : string) (c : ascii) :
  ends_space c = false → rstrip (s +:+ String c "") = s +:+ String c "".
Proof.
  intros Hc. induction s as [|x s IH].
  - pose proof (is_space_last "" c Hc) as Hspace.
    change ("" +:+ String c "") with (String c "") in *. cbn [rstrip].
    by rewrite Hspace.
  - change (String x s +:+ String c "") with (String x (s +:+ String c "")).
    cbn [rstrip]. rewrite IH.
    pose proof (is_space_last (String x s) c Hc) as Hspace.
    change (String x s +:+ String c "") with (String x (s +:+ String c "")) in Hspace.
    by rewrite Hspace.
Qed.

Lemma bare_command_tail (c : ascii) (command : string) :
  bare_command (String c command) → bare_command command.
Proof.
  intros [Hnl Hclose]. split.
  - simpl in Hnl. by apply orb_false_iff in Hnl as [_ ?].
  - intros q Hq (pre & post & ->). apply (Hclose q Hq).
    by exists (String c pre), post.
Qed.

(** The lazy group captures a bare command whole. *)
Lemma lazy_until_close_bare (command tail : string) (q : ascii) :
  is_quote q = true → bare_command command →
  lazy_until_close (command +:+ String q (")" +:+ tail)) = Some command.
Proof.
  intros Hq. induction command as [|c command IH]; intros Hbare.
  - simpl. by rewrite Hq.
  - change (String c command +:+ String q (")" +:+ tail))
      with (String c (command +:+ String q (")" +:+ tail))).
    cbn [lazy_until_close]. rewrite (IH (bare_command_tail _ _ Hbare)).
    destruct Hbare as [Hnl Hclose]. simpl in Hnl.
    apply orb_false_iff in Hnl as [Hc _].
    assert (is_quote c && startswith ")" (command +:+ String q (")" +:+ tail))
            = false) as ->.
    { destruct (is_quote c) eqn:Hqc; [|done]. cbn [andb].
      destruct command as [|d command].
      - change ("" +:+ String q (")" +:+ tail)) with (String q (")" +:+ tail)).
        cbn [startswith].
        destruct (Ascii.eqb_spec ")" q) as [<-|]; [vm_compute in Hq; discriminate|done].
      - change (String d command +:+ String q (")" +:+ tail))
          with (String d (command +:+ String q (")" +:+ tail))).
        cbn [startswith].
        destruct (Ascii.eqb_spec ")" d) as [<-|]; [|done].
        destruct (Hclose c Hqc). by exists "", command. }
    by rewrite Hc.
Qed.

Lemma lazy_until_close_Some (s command : string) :
  lazy_until_close s = Some command →
  mem_ascii newline command = false ∧
  ∃ q tail, is_quote q = true ∧ s = command +:+ String q (")" +:+ tail).
Proof.
  revert command. induction s as [|c s IH]; intros command; [done|].
  cbn [lazy_until_close].
  destruct (is_quote c && startswith ")" s) eqn:Hclose.
  - intros [= <-]. split; [done|].
    apply andb_true_iff in Hclose as [Hq [tail ->]%startswith_spec].
    by exists c, tail.
  - destruct (Ascii.eqb c newline) eqn:Hc; [done|].
    destruct (lazy_until_close s) as [r|]; [|done]. intros [= <-].
    destruct (IH r eq_refl) as (Hnl & q & tail & Hq & ->).
    split; [simpl; by rewrite Hc|]. by exists q, tail.
Qed.

Lemma exec_shell_match_bare (q1 q2 : ascii) (command tail : string) :
  is_quote q1 = true → is_quote q2 = true → bare_command command →
  exec_shell_match
    ("exec_shell(" +:+ String q1 (command +:+ String q2 (")" +:+ tail)))
  = Some command.
Proof.
  intros H1 H2 Hbare. unfold exec_shell_match.
  rewrite strip_prefix_app, H1. by apply lazy_until_close_bare.
Qed.

(** X22. The [exec_shell] pattern unwraps a call whose argument is a bare
    command, whichever of the two quotes opens and closes it, and drops
    what follows the call; and whenever it matches, the response is such a
    call and the captured text holds no newline. *)
Theorem exec_shell_match_unwraps :
  (∀ q1 q2 command tail,
     is_quote q1 = true → is_quote q2 = true → bare_command command →
     exec_shell_match
       ("exec_shell(" +:+ String q1 (command +:+ String q2 (")" +:+ tail)))
     = Some command) ∧
  (∀ response command,
     exec_shell_match response = Some command →
     mem_ascii newline command = false ∧
     ∃ q1 q2 tail,
       is_quote q1 = true ∧ is_quote q2 = true ∧
       response = "exec_shell(" +:+ String q1 (command +:+ String q2 (")" +:+ tail))).
Proof.
  split.
  - intros q1 q2 command tail. apply exec_shell_match_bare.
  - intros response command. unfold exec_shell_match.
    destruct (strip_prefix "exec_shell(" response) as [[|q1 rest]|] eqn:Hprefix;
      try done.
    destruct (is_quote q1) eqn:H1; [|done]. intros Hclose.
    apply lazy_until_close_Some in Hclose as (Hnl & q2 & tail & H2 & ->).
    split; [done|]. exists q1, q2, tail.
    by rewrite (strip_prefix_Some _ _ _ Hprefix).
Qed.

Lemma exec_shell_match_unwraps_witness :
  exec_shell_match
    ("exec_shell(" +:+ String single_quote
       ("kubectl get pods" +:+ String double_quote (")" +:+ " # list")))
  = Some "kubectl get pods".
Proof.
  apply (proj1 exec_shell_match_unwraps).
  - reflexivity.
  - reflexivity.
  - split; [reflexivity|]. intros q Hq. apply contains_false.
    unfold is_quote in Hq. apply orb_true_iff in Hq as [Hq|Hq];
      apply Ascii.eqb_eq in Hq; subst q; reflexivity.
Defined.

(** The content read from a fenced block of one line. *)
Lemma read_content_fenced (call : string) :
  rstrip (call +:+ String newline "") = call →
  startswith "=====" call = false →
  read_content_until_delimiter
    ["```" +:+ String newline ""; call +:+ String newline "";
     "```" +:+ String newline ""] 0
  = ("```" +:+ String newline "") +:+ call +:+ String newline "```".
Proof.
  intros Hline Hstart. unfold read_content_until_delimiter.
  cbn [drop content_lines]. rewrite Hline.
  change (rstrip ("```" +:+ String newline "")) with "```".
  change (startswith "=====" "```") with false. cbv iota. rewrite Hstart.
  cbn [join].
  set (raw := "```" +:+ String newline "" +:+ call +:+ String newline "" +:+ "```").
  assert (raw = ("```" +:+ String newline "") +:+ call +:+ String newline "```")
    as Hraw by (unfold raw; by rewrite !append_assoc).
  assert (raw = ("```" +:+ String newline "" +:+ call +:+ String newline "``")
                +:+ "`") as Hend.
  { by rewrite Hraw, !append_assoc. }
  unfold strip. rewrite Hend at 1. rewrite rstrip_app_nonspace by done.
  by rewrite <- Hend, Hraw.
Qed.

(** X23. An Agent block that is a fenced [exec_shell] call of a bare command
    yields the command itself as the response. *)
Theorem agent_response_unwraps (q1 q2 : ascii) (command : string) :
  is_quote q1 = true → is_quote q2 = true → bare_command command →
  agent_response
    ["```" +:+ String newline "";
     ("exec_shell(" +:+ String q1 (command +:+ String q2 ")")) +:+ String newline "";
     "```" +:+ String newline ""]
  = command.
Proof.
  intros H1 H2 Hbare.
  set (call := "exec_shell(" +:+ String q1 (command +:+ String q2 ")")).
  assert (call = ("exec_shell(" +:+ String q1 (command +:+ String q2 "")) +:+ ")")
    as Hcall.
  { unfold call. simpl. do 12 f_equal. by rewrite append_assoc. }
  assert (rstrip (call +:+ String newline "") = call) as Hline.
  { rewrite rstrip_app_newline. rewrite Hcall.
    by rewrite rstrip_app_nonspace. }
  assert (strip call = call) as Hstrip.
  { unfold strip. rewrite Hcall at 1. rewrite rstrip_app_nonspace by done.
    by rewrite <- Hcall. }
  unfold agent_response.
  rewrite read_content_fenced by done.
  unfold code_block_match. rewrite strip_prefix_app, strip_suffix_app, Hstrip.
  pose proof (exec_shell_match_bare q1 q2 command "" H1 H2 Hbare) as Hexec.
  change (")" +:+ "") with ")" in Hexec. unfold call. by rewrite Hexec.
Qed.

Lemma agent_response_unwraps_witness :
  agent_response
    ["```" +:+ String newline "";
     ("exec_shell(" +:+ String double_quote
        ("kubectl get pods -n default" +:+ String double_quote ")"))
       +:+ String newline "";
     "```" +:+ String newline ""]
  = "kubectl get pods -n default".
Proof.
  apply (agent_response_unwraps double_quote double_quote).
  - reflexivity.
  - reflexivity.
  - split; [reflexivity|]. intros q Hq. apply contains_false.
    unfold is_quote in Hq. apply orb_true_iff in Hq as [Hq|Hq];
      apply Ascii.eqb_eq in Hq; subst q; reflexivity.
Defined.

End conversations.
